(** * VISAGE: camera life cycle and frame processing of [visage.py]

    A shallow embedding of the Python module [src/visage.py] (a Streamlit
    script that reads frames from a camera with OpenCV, detects faces and
    draws annotations) and the properties its specification states.

    Python code is embedded in a state-and-exception monad over an explicit
    world.  The external libraries are not part of the module; their
    behaviour enters as an environment [Env] of oracles (what the camera
    driver, the clock, the network and OpenCV answer), over which every
    theorem quantifies.  Modelling conventions for the libraries:

    - [cv2.VideoCapture(i)] builds a capture object that is opened or not,
      as the driver decides; [isOpened], [release] and [set] never raise;
      [read] on an open object returns what the driver delivers and on a
      closed one [(False, None)].
    - [st.info], [st.success], [st.warning], [st.error] and the placeholders
      display: they are recorded in the trace.
    - [st.stop()] raises Streamlit's [StopException], which derives from
      [BaseException] and is therefore not caught by [except Exception].
    - The first part of the file describes runs in which the display calls
      only display, also after [st.stop()].  Under the Streamlit runtime a
      display call is also the point where a pending stop or rerun request
      reaches the script, as a control exception; the module [Live] embeds
      the functions that call Streamlit a second time with these yield
      points, and the properties that depend on them are stated there.
    - [@st.cache_resource] memoises the value a call returns; a call that
      raises stores nothing.
    - [time.time()] readings are rationals; [int(x)] truncates toward zero. *)

From Stdlib Require Import ZArith QArith Lqa.
From stdpp Require Import base option list strings pretty.

Open Scope Z_scope.
Open Scope string_scope.
Open Scope list_scope.
Open Scope nat_scope.

(** ** Exceptions *)

(** The exception classes the module meets.  All but [StopException] are
    subclasses of [Exception]. *)
Inductive exn : Type :=
  | ValueError (msg : string)
  | RuntimeError (msg : string)
  | ZeroDivisionError
  | URLError (msg : string)
  | CvError (msg : string)
  | OtherError (msg : string)
  | StopException.

Definition is_Exception (e : exn) : bool :=
  match e with StopException => false | _ => true end.

Definition is_URLError (e : exn) : bool :=
  match e with URLError _ => true | _ => false end.

Definition is_ZeroDivisionError (e : exn) : bool :=
  match e with ZeroDivisionError => true | _ => false end.

(** [str(e)] *)
Definition exn_str (e : exn) : string :=
  match e with
  | ValueError m | RuntimeError m | URLError m | CvError m | OtherError m => m
  | ZeroDivisionError => "division by zero"
  | StopException => ""
  end.

(** ** Data *)

(** A pixel is its three channel values in memory order; a frame is a grid
    of pixels, rows first.  [frame.size] counts array elements. *)
Definition Pixel : Type := (Z * Z * Z)%type.
Abbreviation Frame := (list (list Pixel)).
Abbreviation Gray := (list (list Z)).

Definition fsize (f : Frame) : nat := 3 * length (concat f).

(** A face box [(x, y, w, h)]. *)
Definition FaceBox : Type := (Z * Z * Z * Z)%type.

Inductive DetectRes : Type :=
  | DetectError (msg : string)
  | Detected (faces : list FaceBox).

(** A [cv2.CascadeClassifier] object: whether it is empty, and what
    [detectMultiScale(gray, scaleFactor, minNeighbors, minSize)] answers. *)
Record Classifier : Type := {
  cc_empty : bool;
  cc_detect : Gray -> Q -> Z -> Z * Z -> DetectRes
}.

(** What [urlretrieve] does, and what [cv2.CascadeClassifier(path)] makes of
    a file. *)
Inductive CtorRes : Type :=
  | CtorRaise (e : string)
  | CtorOk (c : Classifier).

Inductive FetchRes : Type :=
  | FetchURLError (msg : string)
  | FetchOtherError (msg : string)
  | FetchOk (file : CtorRes).

(** Observable events, in program order. *)
Inductive Event : Type :=
  | EvInfo (s : string)
  | EvSuccess (s : string)
  | EvWarning (s : string)
  | EvError (s : string)
  | EvSleep (d : Q)
  | EvOpen (h idx : nat) (ok : bool)
  | EvSet (h : nat) (prop : string) (v : Z)
  | EvRead (h : nat)
  | EvRelease (h : nat)
  | EvLoad
  | EvFetch
  | EvDetect (g : Gray)
  | EvImage (frame : option nat)
  | EvStats (fps : Q) (faces : nat).

(** The environment: the answers of the world outside the module. *)
Record Env : Type := {
  (** does the [n]-th [VideoCapture] object, built for device [idx], open *)
  open_script : nat -> nat -> bool;
  (** what the [n]-th [read()] on an open object returns *)
  read_script : nat -> bool * option Frame;
  (** the [n]-th reading of [time.time()] *)
  clock : nat -> Q;
  (** the [n]-th [urlretrieve] *)
  fetch_script : nat -> FetchRes;
  (** pixels that [cv2.rectangle(img, p1, p2, color, thickness)] paints *)
  rect_mask : Z * Z -> Z * Z -> Z -> Z -> Z -> bool;
  (** pixels that [cv2.putText(img, text, org, font, scale, color, thickness)]
      paints (the font is always FONT_HERSHEY_SIMPLEX) *)
  text_mask : string -> Z * Z -> Q -> Z -> Z -> Z -> bool;
  (** whether a drawing call is refused with [cv2.error] *)
  rectangle_raises : Frame -> Z * Z -> Z * Z -> bool;
  putText_raises : Frame -> string -> Z * Z -> bool
}.

(** The state: capture objects (the index of a cell is the identity of the
    object, its content whether it is opened), the arrays allocated so far,
    the two module globals, the cascade file, the resource cache, the binding
    of [main]'s local [cap] (None while unbound) and the trace.  [peak_open]
    is a ghost field: the largest number of capture objects that were open
    at the same time so far. *)
Record World : Type := {
  caps : list bool;
  peak_open : nat;
  n_read : nat;
  n_clock : nat;
  n_fetch : nat;
  heap : list Frame;
  prev_frame_time : Q;
  fps : Q;
  cascade_file : option CtorRes;
  cache : option Classifier;
  main_cap : option nat;
  trace : list Event
}.

Definition set_caps (v : list bool) (w : World) : World :=
  {| caps := v; peak_open := peak_open w; n_read := n_read w; n_clock := n_clock w;
     n_fetch := n_fetch w; heap := heap w; prev_frame_time := prev_frame_time w;
     fps := fps w; cascade_file := cascade_file w; cache := cache w;
     main_cap := main_cap w; trace := trace w |}.

Definition set_peak_open (v : nat) (w : World) : World :=
  {| caps := caps w; peak_open := v; n_read := n_read w; n_clock := n_clock w;
     n_fetch := n_fetch w; heap := heap w; prev_frame_time := prev_frame_time w;
     fps := fps w; cascade_file := cascade_file w; cache := cache w;
     main_cap := main_cap w; trace := trace w |}.

Definition set_n_read (v : nat) (w : World) : World :=
  {| caps := caps w; peak_open := peak_open w; n_read := v; n_clock := n_clock w;
     n_fetch := n_fetch w; heap := heap w; prev_frame_time := prev_frame_time w;
     fps := fps w; cascade_file := cascade_file w; cache := cache w;
     main_cap := main_cap w; trace := trace w |}.

Definition set_n_clock (v : nat) (w : World) : World :=
  {| caps := caps w; peak_open := peak_open w; n_read := n_read w; n_clock := v;
     n_fetch := n_fetch w; heap := heap w; prev_frame_time := prev_frame_time w;
     fps := fps w; cascade_file := cascade_file w; cache := cache w;
     main_cap := main_cap w; trace := trace w |}.

Definition set_n_fetch (v : nat) (w : World) : World :=
  {| caps := caps w; peak_open := peak_open w; n_read := n_read w;
     n_clock := n_clock w; n_fetch := v; heap := heap w;
     prev_frame_time := prev_frame_time w; fps := fps w;
     cascade_file := cascade_file w; cache := cache w; main_cap := main_cap w;
     trace := trace w |}.

Definition set_heap (v : list Frame) (w : World) : World :=
  {| caps := caps w; peak_open := peak_open w; n_read := n_read w;
     n_clock := n_clock w; n_fetch := n_fetch w; heap := v;
     prev_frame_time := prev_frame_time w; fps := fps w;
     cascade_file := cascade_file w; cache := cache w; main_cap := main_cap w;
     trace := trace w |}.

Definition set_prev_frame_time (v : Q) (w : World) : World :=
  {| caps := caps w; peak_open := peak_open w; n_read := n_read w;
     n_clock := n_clock w; n_fetch := n_fetch w; heap := heap w; prev_frame_time := v;
     fps := fps w; cascade_file := cascade_file w; cache := cache w;
     main_cap := main_cap w; trace := trace w |}.

Definition set_fps (v : Q) (w : World) : World :=
  {| caps := caps w; peak_open := peak_open w; n_read := n_read w;
     n_clock := n_clock w; n_fetch := n_fetch w; heap := heap w;
     prev_frame_time := prev_frame_time w; fps := v; cascade_file := cascade_file w;
     cache := cache w; main_cap := main_cap w; trace := trace w |}.

Definition set_cascade_file (v : option CtorRes) (w : World) : World :=
  {| caps := caps w; peak_open := peak_open w; n_read := n_read w;
     n_clock := n_clock w; n_fetch := n_fetch w; heap := heap w;
     prev_frame_time := prev_frame_time w; fps := fps w; cascade_file := v;
     cache := cache w; main_cap := main_cap w; trace := trace w |}.

Definition set_cache (v : option Classifier) (w : World) : World :=
  {| caps := caps w; peak_open := peak_open w; n_read := n_read w;
     n_clock := n_clock w; n_fetch := n_fetch w; heap := heap w;
     prev_frame_time := prev_frame_time w; fps := fps w;
     cascade_file := cascade_file w; cache := v; main_cap := main_cap w;
     trace := trace w |}.

Definition set_main_cap (v : option nat) (w : World) : World :=
  {| caps := caps w; peak_open := peak_open w; n_read := n_read w;
     n_clock := n_clock w; n_fetch := n_fetch w; heap := heap w;
     prev_frame_time := prev_frame_time w; fps := fps w;
     cascade_file := cascade_file w; cache := cache w; main_cap := v;
     trace := trace w |}.

Definition emit (v : Event) (w : World) : World :=
  {| caps := caps w; peak_open := peak_open w; n_read := n_read w;
     n_clock := n_clock w; n_fetch := n_fetch w; heap := heap w;
     prev_frame_time := prev_frame_time w; fps := fps w;
     cascade_file := cascade_file w; cache := cache w; main_cap := main_cap w;
     trace := trace w ++ [v] |}.

(** ** The monad of Python computations *)

(** A computation returns, raises, or is still running when the fuel of a
    [while] loop is used up. *)
Inductive Res (A : Type) : Type :=
  | Ret (a : A)
  | Raise (e : exn)
  | OutOfFuel.
Arguments Ret {A} a.
Arguments Raise {A} e.
Arguments OutOfFuel {A}.

Definition M (A : Type) : Type := World -> Res A * World.

Definition ret {A} (a : A) : M A := fun w => (Ret a, w).
Definition raise {A} (e : exn) : M A := fun w => (Raise e, w).
Definition out_of_fuel {A} : M A := fun w => (OutOfFuel, w).

Definition bind {A B} (m : M A) (k : A -> M B) : M B := fun w =>
  match m w with
  | (Ret a, w') => k a w'
  | (Raise e, w') => (Raise e, w')
  | (OutOfFuel, w') => (OutOfFuel, w')
  end.

Declare Scope py_scope.
Delimit Scope py_scope with py.
Notation "x <- m ;; k" := (bind m (fun x => k))
  (at level 100, m at next level, right associativity) : py_scope.
Notation "m ;; k" := (bind m (fun _ => k))
  (at level 100, right associativity) : py_scope.
Open Scope py_scope.

(** [try: body  except <classes> as e: handler e] *)
Definition try_except {A} (catches : exn -> bool) (body : M A) (handler : exn -> M A) : M A :=
  fun w =>
    match body w with
    | (Raise e, w') => if catches e then handler e w' else (Raise e, w')
    | r => r
    end.

(** [try: body  finally: fin].  The [finally] block runs on every way out of
    the body; a loop that is still running has not left it. *)
Definition try_finally {A} (body : M A) (fin : M unit) : M A :=
  fun w =>
    match body w with
    | (OutOfFuel, w') => (OutOfFuel, w')
    | (r, w') =>
        match fin w' with
        | (Ret _, w'') => (r, w'')
        | (Raise e, w'') => (Raise e, w'')
        | (OutOfFuel, w'') => (OutOfFuel, w'')
        end
    end.

Definition get {A} (f : World -> A) : M A := fun w => (Ret (f w), w).
Definition modify (f : World -> World) : M unit := fun w => (Ret tt, f w).
Definition log (e : Event) : M unit := modify (emit e).

(** ** Streamlit and time *)

Definition st_info (s : string) : M unit := log (EvInfo s).
Definition st_success (s : string) : M unit := log (EvSuccess s).
Definition st_warning (s : string) : M unit := log (EvWarning s).
Definition st_error (s : string) : M unit := log (EvError s).
Definition st_stop {A} : M A := raise StopException.
Definition time_sleep (d : Q) : M unit := log (EvSleep d).

Section Program.

Variable env : Env.

Definition time_time : M Q := fun w =>
  (Ret (clock env (n_clock w)), set_n_clock (S (n_clock w)) w).

(** ** cv2.VideoCapture *)

Definition is_opened (w : World) (h : nat) : bool := default false (caps w !! h).

(** The number of open capture objects. *)
Definition count_open (l : list bool) : nat := length (filter (eq true) l).

(** [cv2.VideoCapture(idx, ...)]: a new capture object *)
Definition VideoCapture (idx : nat) : M nat := fun w =>
  let h := length (caps w) in
  let ok := open_script env h idx in
  let l := caps w ++ [ok] in
  (Ret h, emit (EvOpen h idx ok)
            (set_peak_open (Nat.max (peak_open w) (count_open l)) (set_caps l w))).

Definition cap_isOpened (h : nat) : M bool := get (fun w => is_opened w h).

Definition cap_release (h : nat) : M unit :=
  modify (fun w => emit (EvRelease h) (set_caps (<[h := false]> (caps w)) w)).

Definition cap_set (h : nat) (prop : string) (v : Z) : M unit := log (EvSet h prop v).

(** [cap.read()]: the frame delivered, if any, is a new array *)
Definition cap_read (h : nat) : M (bool * option nat) := fun w =>
  if is_opened w h then
    let w1 := emit (EvRead h) (set_n_read (S (n_read w)) w) in
    match read_script env (n_read w) with
    | (r, Some f) => (Ret (r, Some (length (heap w))), set_heap (heap w ++ [f]) w1)
    | (r, None) => (Ret (r, None), w1)
    end
  else (Ret (false, None), emit (EvRead h) w).

Definition frame_of (w : World) (r : nat) : Frame := default [] (heap w !! r).

(** [frame.size] of an optional array reference; 0 stands for [None] too. *)
Definition frame_size (w : World) (fr : option nat) : nat :=
  match fr with Some r => fsize (frame_of w r) | None => 0 end.

(** ** safe_camera_release *)

Definition safe_camera_release (cap : option nat) : M unit :=
  match cap with
  | None => ret tt
  | Some h =>
      opened <- cap_isOpened h ;;
      if opened then cap_release h ;; time_sleep (1 # 10) else ret tt
  end.

(** ** initialize_camera *)

(** [for i in range(5): safe_camera_release(cv2.VideoCapture(i))] *)
Fixpoint release_stale (idxs : list nat) : M unit :=
  match idxs with
  | [] => ret tt
  | i :: rest =>
      c <- VideoCapture i ;;
      safe_camera_release (Some c) ;;
      release_stale rest
  end.

(** [for _ in range(n): ...] of the validation, followed by the [raise] *)
Fixpoint validate (n : nat) (cap : nat) : M nat :=
  match n with
  | O => raise (RuntimeError "La caméra ne produit pas d'images valides")
  | S k =>
      r <- cap_read cap ;;
      sz <- get (fun w => frame_size w (snd r)) ;;
      if fst r && bool_decide (is_Some (snd r)) && bool_decide (0 < sz) then
        st_success "Caméra initialisée avec succès" ;; ret cap
      else
        time_sleep (1 # 2) ;; validate k cap
  end.

(** The body of the [try] once [cap] is bound.  The constructor does not
    raise, so ['cap' in locals()] holds in the handler. *)
Definition open_and_validate (cap : nat) : M nat :=
  opened <- cap_isOpened cap ;;
  if negb opened then raise (RuntimeError "Échec de l'ouverture de la caméra")
  else
    cap_set cap "CAP_PROP_FRAME_WIDTH" 640 ;;
    cap_set cap "CAP_PROP_FRAME_HEIGHT" 480 ;;
    validate 3 cap.

(** [cap = cv2.VideoCapture(0, ...)] is the first statement of the [try];
    as it does not raise it is written before the [try], so that the handler
    can name [cap]. *)
Definition initialize_camera : M nat :=
  st_info "Initialisation de la caméra..." ;;
  release_stale (seq 0 5) ;;
  time_sleep (1 # 2) ;;
  cap <- VideoCapture 0 ;;
  try_except is_Exception
    (open_and_validate cap)
    (fun e =>
       safe_camera_release (Some cap) ;;
       st_error ("Erreur d'initialisation de la caméra: " +:+ exn_str e) ;;
       st_stop).

(** ** calculate_fps *)

(** Float division: [ZeroDivisionError] exactly when the divisor is zero. *)
Definition py_div (a b : Q) : M Q :=
  if Qeq_bool b 0 then raise ZeroDivisionError else ret (a / b)%Q.

(** [int(x)]: truncation toward zero *)
Definition py_int (q : Q) : Z := Z.quot (Qnum q) (Zpos (Qden q)).

Definition calculate_fps : M Z :=
  curr_frame_time <- time_time ;;
  prev <- get prev_frame_time ;;
  try_except is_ZeroDivisionError
    (f <- py_div 1 (curr_frame_time - prev)%Q ;; modify (set_fps f))
    (fun _ => modify (set_fps 0%Q)) ;;
  modify (set_prev_frame_time curr_frame_time) ;;
  f <- get fps ;;
  ret (py_int f).

(** ** cv2 colour conversion, detection and drawing *)

Definition swap_rb (p : Pixel) : Pixel := let '(c0, c1, c2) := p in (c2, c1, c0).

(** Fixed-point weights of OpenCV's 8-bit grey conversion:
    Y = 0.299 R + 0.587 G + 0.114 B, scaled by 2^15 and rounded.  The BGR
    variant reads blue from channel 0, the RGB variant reads red there. *)
Definition luma (r g b : Z) : Z := Z.shiftr (r * 9798 + g * 19235 + b * 3735 + 16384) 15.

Definition gray_of_bgr (p : Pixel) : Z := let '(c0, c1, c2) := p in luma c2 c1 c0.
Definition gray_of_rgb (p : Pixel) : Z := let '(c0, c1, c2) := p in luma c0 c1 c2.

Definition COLOR_BGR2RGB (f : Frame) : Frame := map (map swap_rb) f.
Definition COLOR_BGR2GRAY (f : Frame) : Gray := map (map gray_of_bgr) f.
Definition COLOR_RGB2GRAY (f : Frame) : Gray := map (map gray_of_rgb) f.

(** [cv2.cvtColor] refuses an empty array. *)
Definition cvtColor_BGR2RGB (r : nat) : M nat := fun w =>
  let f := frame_of w r in
  if fsize f =? 0 then (Raise (CvError "cvtColor: empty input"), w)
  else (Ret (length (heap w)), set_heap (heap w ++ [COLOR_BGR2RGB f]) w).

Definition cvtColor_BGR2GRAY (r : nat) : M Gray := fun w =>
  let f := frame_of w r in
  if fsize f =? 0 then (Raise (CvError "cvtColor: empty input"), w)
  else (Ret (COLOR_BGR2GRAY f), w).

Definition detectMultiScale (c : Classifier) (g : Gray) (scaleFactor : Q)
    (minNeighbors : Z) (minSize : Z * Z) : M (list FaceBox) := fun w =>
  let w1 := emit (EvDetect g) w in
  match cc_detect c g scaleFactor minNeighbors minSize with
  | DetectError m => (Raise (CvError m), w1)
  | Detected faces => (Ret faces, w1)
  end.

(** Painting: the pixels of the mask take the colour, in place. *)
Definition paint (mask : Z -> Z -> bool) (color : Pixel) (f : Frame) : Frame :=
  imap (fun y row =>
          imap (fun x p => if mask (Z.of_nat x) (Z.of_nat y) then color else p) row) f.

Definition paint_at (r : nat) (mask : Z -> Z -> bool) (color : Pixel) (w : World) : World :=
  set_heap (<[r := paint mask color (frame_of w r)]> (heap w)) w.

Definition cv2_rectangle (r : nat) (p1 p2 : Z * Z) (color : Pixel) (thickness : Z) : M unit :=
  fun w =>
    if rectangle_raises env (frame_of w r) p1 p2 then (Raise (CvError "rectangle"), w)
    else (Ret tt, paint_at r (rect_mask env p1 p2 thickness) color w).

Definition cv2_putText (r : nat) (text : string) (org : Z * Z) (scale : Q)
    (color : Pixel) (thickness : Z) : M unit :=
  fun w =>
    if putText_raises env (frame_of w r) text org then (Raise (CvError "putText"), w)
    else (Ret tt, paint_at r (text_mask env text org scale thickness) color w).

(** ** detect_faces_frame *)

(** [for (x, y, w, h) in faces: ...] *)
Fixpoint draw_faces (r : nat) (faces : list FaceBox) (color : Pixel) : M unit :=
  match faces with
  | [] => ret tt
  | (x, y, w, h) :: rest =>
      cv2_rectangle r (x, y) (x + w, y + h)%Z color 2 ;;
      cv2_putText r "Visage" (x, y - 10)%Z (1 # 2) color 2 ;;
      draw_faces r rest color
  end.

(** The body of the [try]. *)
Definition detect_faces_try (frame : option nat) (face_cascade : Classifier)
    (scaleFactor : Q) (minNeighbors : Z) (rectangle_color : Pixel) : M (option nat * nat) :=
  sz <- get (fun w => frame_size w frame) ;;
  match frame with
  | None => raise (ValueError "Frame invalide")
  | Some r =>
      if sz =? 0 then raise (ValueError "Frame invalide")
      else
        gray <- cvtColor_BGR2GRAY r ;;
        faces <- detectMultiScale face_cascade gray scaleFactor minNeighbors (30, 30)%Z ;;
        draw_faces r faces rectangle_color ;;
        cv2_putText r ("Visages: " +:+ pretty (length faces)) (10, 30)%Z 1
          rectangle_color 2 ;;
        current_fps <- calculate_fps ;;
        cv2_putText r ("FPS: " +:+ pretty current_fps) (10, 70)%Z 1 rectangle_color 2 ;;
        ret (frame, length faces)
  end.

Definition detect_faces_frame (frame : option nat) (face_cascade : Classifier)
    (scaleFactor : Q) (minNeighbors : Z) (rectangle_color : Pixel) : M (option nat * nat) :=
  try_except is_Exception
    (detect_faces_try frame face_cascade scaleFactor minNeighbors rectangle_color)
    (fun e =>
       st_error ("Erreur lors de la détection: " +:+ exn_str e) ;;
       ret (frame, 0)).

(** ** load_cascade_classifier *)

Definition empty_classifier : Classifier :=
  {| cc_empty := true; cc_detect := fun _ _ _ _ => DetectError "empty classifier" |}.

Definition urlretrieve : M unit := fun w =>
  let w1 := emit EvFetch (set_n_fetch (S (n_fetch w)) w) in
  match fetch_script env (n_fetch w) with
  | FetchURLError m => (Raise (URLError m), w1)
  | FetchOtherError m => (Raise (OtherError m), w1)
  | FetchOk file => (Ret tt, set_cascade_file (Some file) w1)
  end.

(** [cv2.CascadeClassifier(str(cascade_path))]; a missing file gives an
    empty classifier. *)
Definition CascadeClassifier : M Classifier := fun w =>
  match cascade_file w with
  | Some (CtorOk c) => (Ret c, w)
  | Some (CtorRaise m) => (Raise (CvError m), w)
  | None => (Ret empty_classifier, w)
  end.

(** The function under the decorator.  [EvLoad] marks each execution. *)
Definition load_cascade_classifier_body : M Classifier :=
  log EvLoad ;;
  present <- get (fun w => bool_decide (is_Some (cascade_file w))) ;;
  (if negb present then
     st_info "Téléchargement du fichier de classification..." ;;
     try_except is_Exception
       (urlretrieve ;;
        st_success "Fichier de classification téléchargé avec succès.")
       (fun e =>
          if is_URLError e then
            st_error ("Erreur de téléchargement (URL invalide ? Problème de réseau ?): "
                      +:+ exn_str e) ;;
            st_stop
          else
            st_error ("Erreur lors du téléchargement: " +:+ exn_str e) ;;
            st_stop)
   else ret tt) ;;
  try_except is_Exception
    (face_cascade <- CascadeClassifier ;;
     if cc_empty face_cascade then
       raise (ValueError ("Erreur de chargement du classificateur depuis : "
                          +:+ "haarcascade_frontalface_default.xml"))
     else ret face_cascade)
    (fun e =>
       st_error ("Erreur lors de la création du classificateur : " +:+ exn_str e) ;;
       st_stop).

(** [@st.cache_resource] *)
Definition cache_resource (body : M Classifier) : M Classifier :=
  c <- get cache ;;
  match c with
  | Some v => ret v
  | None => v <- body ;; modify (set_cache (Some v)) ;; ret v
  end.

Definition load_cascade_classifier : M Classifier :=
  cache_resource load_cascade_classifier_body.

(** ** main *)

(** What the sidebar and the button hand to one run of the script: [run],
    [color_rgb] (the picked colour, already parsed from its hexadecimal
    form), [minNeighbors], [scaleFactor].  The page set-up, the widgets and
    the columns only display and are left out. *)
Record UI : Type := {
  run : bool;
  color_rgb : Pixel;
  minNeighbors : Z;
  scaleFactor : Q
}.

(** The recovery branch of the loop body, up to the new handle. *)
Definition reopen (h : nat) : M nat :=
  st_warning "Erreur de lecture de la caméra. Tentative de réinitialisation..." ;;
  safe_camera_release (Some h) ;;
  time_sleep 1 ;;
  initialize_camera.

(** The two branches of the loop body: recovery after a failed read, and
    the processing and display of a frame. *)
Definition recover (h : nat) : M unit :=
  c <- reopen h ;;
  modify (set_main_cap (Some c)).

Definition process_and_publish (ui : UI) (face_cascade : Classifier) (fr : nat) : M unit :=
  frame <- cvtColor_BGR2RGB fr ;;
  res <- detect_faces_frame (Some frame) face_cascade (scaleFactor ui)
           (minNeighbors ui) (color_rgb ui) ;;
  log (EvImage (fst res)) ;;
  f <- get fps ;;
  log (EvStats f (snd res)) ;;
  time_sleep (1 # 100).

(** One pass through the body of [while run:] (inside its [try]).  The test
    [not ret or frame is None or frame.size == 0] is split on [frame]. *)
Definition loop_body (ui : UI) (face_cascade : Classifier) : M unit :=
  cap <- get main_cap ;;
  match cap with
  | None => raise (OtherError "local variable 'cap' referenced before assignment")
  | Some h =>
      r <- cap_read h ;;
      sz <- get (fun w => frame_size w (snd r)) ;;
      match snd r with
      | None => recover h
      | Some fr =>
          if negb (fst r) || (sz =? 0) then recover h
          else process_and_publish ui face_cascade fr
      end
  end.

(** [while run:] with [run] true; [run] is never assigned in the loop. *)
Fixpoint capture_loop (fuel : nat) (ui : UI) (face_cascade : Classifier) : M unit :=
  match fuel with
  | O => out_of_fuel
  | S k =>
      try_except is_Exception
        (loop_body ui face_cascade)
        (fun e =>
           st_error ("Erreur dans la boucle principale: " +:+ exn_str e) ;;
           time_sleep (1 # 10)) ;;
      capture_loop k ui face_cascade
  end.

(** The body of the outer [try]. *)
Definition main_try (fuel : nat) (ui : UI) : M unit :=
  face_cascade <- load_cascade_classifier ;;
  cap <- initialize_camera ;;
  modify (set_main_cap (Some cap)) ;;
  if run ui then capture_loop fuel ui face_cascade else ret tt.

(** The [finally] block: [if 'cap' in locals(): safe_camera_release(cap)] *)
Definition main_finally : M unit :=
  cap <- get main_cap ;;
  match cap with
  | Some h => safe_camera_release (Some h)
  | None => ret tt
  end ;;
  st_info "Ressources libérées".

(** [try: body  except Exception: ...  finally: ...] of [main] *)
Definition main_guard (body : M unit) : M unit :=
  try_finally
    (try_except is_Exception body
       (fun e => st_error ("Erreur générale: " +:+ exn_str e)))
    main_finally.

(** A call of [main] starts with no local bound. *)
Definition main (fuel : nat) (ui : UI) : M unit :=
  modify (set_main_cap None) ;;
  main_guard (main_try fuel ui).

(** One run of the script: the module body sets the two globals, then calls
    [main()].  Streamlit runs the script again on every interaction, in the
    same process: the capture objects, the files and the resource cache live
    on from one run to the next. *)
Definition script (fuel : nat) (ui : UI) : M unit :=
  modify (set_prev_frame_time 0%Q) ;;
  modify (set_fps 0%Q) ;;
  main fuel ui.

(** ** Vocabulary of the specification *)

(** The number of [read()] calls recorded in a trace. *)
Fixpoint read_attempts (t : list Event) : nat :=
  match t with
  | [] => 0
  | EvRead _ :: rest => S (read_attempts rest)
  | _ :: rest => read_attempts rest
  end.

(** The state after one round of the stale-handle cleanup, and the state in
    which [initialize_camera] opens device 0. *)
Definition stale_step (i : nat) (w : World) : World :=
  (safe_camera_release (Some (length (caps w))) (VideoCapture i w).2).2.

Definition pre_open (w : World) : World :=
  emit (EvSleep (1 # 2))
    (release_stale (seq 0 5) (emit (EvInfo "Initialisation de la caméra...") w)).2.

(** What [cap.read()] returns in [w] and the state it leaves; whether the
    loop takes that read for a failure
    ([not ret or frame is None or frame.size == 0]). *)
Definition read_result (h : nat) (w : World) : bool * option nat :=
  match (cap_read h w).1 with
  | Ret r => r
  | _ => (false, None)
  end.

Definition after_read (h : nat) (w : World) : World := (cap_read h w).2.

Definition read_bad (h : nat) (w : World) : bool :=
  let r := read_result h w in
  negb r.1 || bool_decide (r.2 = None) || (frame_size (after_read h w) r.2 =? 0).

(** The state in which the recovery calls [initialize_camera]: after the
    warning, the release of the old handle and the pause. *)
Definition closing (h : nat) (w : World) : World :=
  emit (EvSleep 1)
    (safe_camera_release (Some h)
       (emit (EvWarning "Erreur de lecture de la caméra. Tentative de réinitialisation...")
          w)).2.

(** A delivered read is usable when it reports success with a non-empty
    frame; the trace of [n] failed validation attempts on handle [h]. *)
Definition frame_ok (r : bool * option Frame) : bool :=
  r.1 && match r.2 with Some f => 0 <? fsize f | None => false end.

Fixpoint failed_attempts (n h : nat) : list Event :=
  match n with
  | O => []
  | S k => EvRead h :: EvSleep (1 # 2) :: failed_attempts k h
  end.

(** [frame is None or frame.size == 0] *)
Definition invalid_frame (w : World) (fr : option nat) : Prop :=
  fr = None \/ exists r, fr = Some r /\ fsize (frame_of w r) = 0.

(** The images handed to [detectMultiScale], in order. *)
Fixpoint detector_inputs (t : list Event) : list Gray :=
  match t with
  | [] => []
  | EvDetect g :: rest => g :: detector_inputs rest
  | _ :: rest => detector_inputs rest
  end.

(** The pixel at column [x] of row [y]. *)
Definition pixel_at (f : Frame) (x y : nat) : option Pixel :=
  match f !! y with
  | Some row => row !! x
  | None => None
  end.

(** What the detector answers on the frame [r] of [w]; the pixels the
    drawing calls of [detect_faces_frame] may paint for a box, and for the
    whole annotation of a frame with these boxes. *)
Definition detected_faces (fc : Classifier) (sf : Q) (mn : Z) (w : World) (r : nat)
    : list FaceBox :=
  match cc_detect fc (COLOR_BGR2GRAY (frame_of w r)) sf mn (30, 30)%Z with
  | Detected faces => faces
  | DetectError _ => []
  end.

Definition face_region (fb : FaceBox) (x y : Z) : bool :=
  let '(fx, fy, fw, fh) := fb in
  rect_mask env (fx, fy) (fx + fw, fy + fh)%Z 2 x y
  || text_mask env "Visage" (fx, fy - 10)%Z (1 # 2) 2 x y.

Definition annotated (faces : list FaceBox) (x y : nat) : Prop :=
  (exists fb, fb ∈ faces /\ face_region fb (Z.of_nat x) (Z.of_nat y) = true)
  \/ text_mask env ("Visages: " +:+ pretty (length faces)) (10, 30)%Z 1 2
       (Z.of_nat x) (Z.of_nat y) = true
  \/ exists k : Z, text_mask env ("FPS: " +:+ pretty k) (10, 70)%Z 1 2
                     (Z.of_nat x) (Z.of_nat y) = true.

(** Between [w] and [w'] no array was allocated, the arrays other than [r]
    are the same, and the pixels of [r] outside [S] are the same. *)
Definition same_outside (S : nat -> nat -> Prop) (r : nat) (w w' : World) : Prop :=
  length (heap w') = length (heap w)
  /\ (forall r', r' <> r -> heap w' !! r' = heap w !! r')
  /\ forall x y, ~ S x y -> pixel_at (frame_of w' r) x y = pixel_at (frame_of w r) x y.

Definition paints_within (S : nat -> nat -> Prop) (r : nat) {A} (m : M A) : Prop :=
  forall w, same_outside S r w (m w).2.

(** The number of executions of the loader body recorded in a trace. *)
Fixpoint loads (t : list Event) : nat :=
  match t with
  | [] => 0
  | EvLoad :: rest => S (loads rest)
  | _ :: rest => loads rest
  end.

(** The cache holds no empty classifier. *)
Definition cache_ok (w : World) : Prop :=
  forall c, cache w = Some c -> cc_empty c = false.

(** The download is needed and fails; the model the constructor would build
    from the file at hand is empty or invalid. *)
Definition fetch_fails (w : World) : Prop :=
  cascade_file w = None /\
  exists m, fetch_script env (n_fetch w) = FetchURLError m
            \/ fetch_script env (n_fetch w) = FetchOtherError m.

Definition model_invalid (w : World) : Prop :=
  exists file,
    (cascade_file w = Some file
     \/ (cascade_file w = None /\ fetch_script env (n_fetch w) = FetchOk file))
    /\ match file with
       | CtorRaise _ => True
       | CtorOk c => cc_empty c = true
       end.

(** The device seen as the specification does: [open()] is
    [cap = initialize_camera()] (a failed open leaves [cap] as it was) and
    [close()] is [safe_camera_release(cap)], on the variable [cap] that main
    keeps.  A sequence of calls is disciplined when no [open()] directly
    follows an [open()]. *)
Inductive DevOp : Type := DevOpen | DevClose.

Definition dev_step (op : DevOp) : M unit :=
  match op with
  | DevOpen => fun w =>
      match initialize_camera w with
      | (Ret c, w') => (Ret tt, set_main_cap (Some c) w')
      | (_, w') => (Ret tt, w')
      end
  | DevClose => cap <- get main_cap ;; safe_camera_release cap
  end.

Fixpoint dev_run (ops : list DevOp) : M unit :=
  match ops with
  | [] => ret tt
  | op :: rest => dev_step op ;; dev_run rest
  end.

Fixpoint disciplined (after_open : bool) (ops : list DevOp) : bool :=
  match ops with
  | [] => true
  | DevOpen :: rest => negb after_open && disciplined true rest
  | DevClose :: rest => disciplined false rest
  end.

(** [m] leaves the camera state (capture objects, ghost peak, [main]'s
    local) as it found it, and only adds to the trace. *)
Definition cam_eq (w w' : World) : Prop :=
  caps w' = caps w /\ peak_open w' = peak_open w /\ main_cap w' = main_cap w
  /\ trace w `prefix_of` trace w'.

Definition camless {A} (m : M A) : Prop := forall w, cam_eq w (m w).2.

(** [m] returns, or raises an exception of the class [E]; it is not a loop
    that is still running. *)
Definition raises {A} (E : exn -> Prop) (m : M A) : Prop :=
  forall w, match (m w).1 with
            | Ret _ => True
            | Raise e => E e
            | OutOfFuel => False
            end.

(** Every value [m] returns satisfies [P]. *)
Definition returns_only {A} (P : A -> Prop) (m : M A) : Prop :=
  forall w a, (m w).1 = Ret a -> P a.

(** Subclasses of [Exception]; errors of OpenCV. *)
Definition ordinary (e : exn) : Prop := is_Exception e = true.
Definition is_cv (e : exn) : Prop := exists m, e = CvError m.

(** What follows the validity test in [detect_faces_try], for a frame [r]. *)
Definition detect_and_draw (r : nat) (fc : Classifier) (sf : Q) (mn : Z) (c : Pixel)
    : M (option nat * nat) :=
  gray <- cvtColor_BGR2GRAY r ;;
  faces <- detectMultiScale fc gray sf mn (30, 30)%Z ;;
  draw_faces r faces c ;;
  cv2_putText r ("Visages: " +:+ pretty (length faces)) (10, 30)%Z 1 c 2 ;;
  current_fps <- calculate_fps ;;
  cv2_putText r ("FPS: " +:+ pretty current_fps) (10, 70)%Z 1 c 2 ;;
  ret (Some r, length faces).

(** From [base] on every capture object is closed; at most [c] is open;
    every open one is bound to [main]'s [cap]. *)
Definition closed_from (base : nat) (w : World) : Prop :=
  forall h, base <= h -> is_opened w h = false.

Definition only_open (base c : nat) (w : World) : Prop :=
  forall h, base <= h -> is_opened w h = true -> h = c.

Definition held (base : nat) (w : World) : Prop :=
  forall h, base <= h -> is_opened w h = true -> main_cap w = Some h.

(** Among [n] reads from the [start]-th on, the position of the first that
    is usable. *)
Fixpoint first_valid (n start : nat) : option nat :=
  match n with
  | O => None
  | S k =>
      if frame_ok (read_script env start) then Some 0
      else S <$> first_valid k (S start)
  end.

(** The model file the constructor is given: the local one if there is one,
    else what the download delivers. *)
Definition model_file (w : World) : option CtorRes :=
  match cascade_file w with
  | Some f => Some f
  | None =>
      match fetch_script env (n_fetch w) with
      | FetchOk f => Some f
      | _ => None
      end
  end.

(** The number of frames handed to the display in a trace. *)
Fixpoint frames_shown (t : list Event) : nat :=
  match t with
  | [] => 0
  | EvImage _ :: rest => S (frames_shown rest)
  | _ :: rest => frames_shown rest
  end.

(** [m] adds nothing to the trace. *)
Definition quiet {A} (m : M A) : Prop := forall w, trace (m w).2 = trace w.

End Program.

(** * The script under Streamlit's execution control

    The definitions above describe runs in which the display calls only
    display.  Under the Streamlit runtime every call that sends an element
    to the page is also a point where the runtime hands a pending request to
    the script: if the user has asked for a stop or a rerun (a click on a
    widget while the script runs), or the script itself has called
    [st.stop()], the call raises the control exception instead of
    displaying.  These exceptions ([StopException], [RerunException]) derive
    from [BaseException]; the module tells them apart nowhere and handles
    neither, and [StopException] stands for both below.

    [Live] embeds the functions of the module that call Streamlit once more,
    with these calls as yield points; the functions that do not call
    Streamlit are the ones above. *)

Module Live.

(** The state of one run of the script: the world, the number of Streamlit
    calls made so far, whether [st.stop()] has been called, and the elements
    stored with the cached resource for replay.  [cut] is a ghost field: the
    displays that a control exception has cut off, in order. *)
Record Run : Type := {
  world : World;
  n_st : nat;
  stop_requested : bool;
  replay : list Event;
  cut : list Event
}.

Definition set_world (v : World) (s : Run) : Run :=
  {| world := v; n_st := n_st s; stop_requested := stop_requested s;
     replay := replay s; cut := cut s |}.

Definition set_n_st (v : nat) (s : Run) : Run :=
  {| world := world s; n_st := v; stop_requested := stop_requested s;
     replay := replay s; cut := cut s |}.

Definition set_stop_requested (v : bool) (s : Run) : Run :=
  {| world := world s; n_st := n_st s; stop_requested := v;
     replay := replay s; cut := cut s |}.

Definition set_replay (v : list Event) (s : Run) : Run :=
  {| world := world s; n_st := n_st s; stop_requested := stop_requested s;
     replay := v; cut := cut s |}.

Definition set_cut (v : list Event) (s : Run) : Run :=
  {| world := world s; n_st := n_st s; stop_requested := stop_requested s;
     replay := replay s; cut := v |}.

(** A run that starts in the world [w]. *)
Definition start (w : World) : Run :=
  {| world := w; n_st := 0; stop_requested := false; replay := []; cut := [] |}.

Definition L (A : Type) : Type := Run -> Res A * Run.

Definition ret {A} (a : A) : L A := fun s => (Ret a, s).
Definition raise {A} (e : exn) : L A := fun s => (Raise e, s).
Definition out_of_fuel {A} : L A := fun s => (OutOfFuel, s).

Definition bind {A B} (m : L A) (k : A -> L B) : L B := fun s =>
  match m s with
  | (Ret a, s') => k a s'
  | (Raise e, s') => (Raise e, s')
  | (OutOfFuel, s') => (OutOfFuel, s')
  end.

Declare Scope live_scope.
Delimit Scope live_scope with live.
Notation "x <- m ;; k" := (bind m (fun x => k))
  (at level 100, m at next level, right associativity) : live_scope.
Notation "m ;; k" := (bind m (fun _ => k))
  (at level 100, right associativity) : live_scope.
Open Scope live_scope.

Definition try_except {A} (catches : exn -> bool) (body : L A) (handler : exn -> L A) : L A :=
  fun s =>
    match body s with
    | (Raise e, s') => if catches e then handler e s' else (Raise e, s')
    | r => r
    end.

Definition try_finally {A} (body : L A) (fin : L unit) : L A :=
  fun s =>
    match body s with
    | (OutOfFuel, s') => (OutOfFuel, s')
    | (r, s') =>
        match fin s' with
        | (Ret _, s'') => (r, s'')
        | (Raise e, s'') => (Raise e, s'')
        | (OutOfFuel, s'') => (OutOfFuel, s'')
        end
    end.

Definition get_run {A} (f : Run -> A) : L A := fun s => (Ret (f s), s).
Definition modify_run (f : Run -> Run) : L unit := fun s => (Ret tt, f s).

(** A computation that does not call Streamlit acts on the world alone. *)
Definition lift {A} (m : M A) : L A := fun s =>
  ((m (world s)).1, set_world (m (world s)).2 s).

Section Script.

Variable env : Env.

(** Whether a control request from outside is pending when the [n]-th
    Streamlit call of the run is made. *)
Variable req : nat -> bool.

(** ** Streamlit *)

Definition pending (s : Run) : bool := stop_requested s || req (n_st s).

(** A call that displays [ev]. *)
Definition st_call (ev : Event) : L unit := fun s =>
  if pending s then
    (Raise StopException, set_cut (cut s ++ [ev]) (set_n_st (S (n_st s)) s))
  else (Ret tt, set_n_st (S (n_st s)) (set_world (emit ev (world s)) s)).

(** A call of the page furniture (page set-up, titles, widgets, columns,
    placeholders): a yield point; what it displays is not recorded. *)
Definition st_widget : L unit := fun s =>
  if pending s then (Raise StopException, set_n_st (S (n_st s)) s)
  else (Ret tt, set_n_st (S (n_st s)) s).

Definition st_info (m : string) : L unit := st_call (EvInfo m).
Definition st_success (m : string) : L unit := st_call (EvSuccess m).
Definition st_warning (m : string) : L unit := st_call (EvWarning m).
Definition st_error (m : string) : L unit := st_call (EvError m).

(** [st.stop()] records the request and raises. *)
Definition st_stop {A} : L A := fun s =>
  (Raise StopException, set_stop_requested true s).

(** ** initialize_camera *)

Fixpoint validate (n : nat) (cap : nat) : L nat :=
  match n with
  | O => raise (RuntimeError "La caméra ne produit pas d'images valides")
  | S k =>
      r <- lift (cap_read env cap) ;;
      sz <- get_run (fun s => frame_size (world s) (snd r)) ;;
      if fst r && bool_decide (is_Some (snd r)) && bool_decide (0 < sz) then
        st_success "Caméra initialisée avec succès" ;; ret cap
      else
        lift (time_sleep (1 # 2)) ;; validate k cap
  end.

Definition open_and_validate (cap : nat) : L nat :=
  opened <- get_run (fun s => is_opened (world s) cap) ;;
  if negb opened then raise (RuntimeError "Échec de l'ouverture de la caméra")
  else
    lift (cap_set cap "CAP_PROP_FRAME_WIDTH" 640) ;;
    lift (cap_set cap "CAP_PROP_FRAME_HEIGHT" 480) ;;
    validate 3 cap.

Definition initialize_camera : L nat :=
  st_info "Initialisation de la caméra..." ;;
  lift (release_stale env (seq 0 5)) ;;
  lift (time_sleep (1 # 2)) ;;
  cap <- lift (VideoCapture env 0) ;;
  try_except is_Exception
    (open_and_validate cap)
    (fun e =>
       lift (safe_camera_release (Some cap)) ;;
       st_error ("Erreur d'initialisation de la caméra: " +:+ exn_str e) ;;
       st_stop).

(** ** detect_faces_frame *)

Definition detect_faces_frame (frame : option nat) (face_cascade : Classifier)
    (scaleFactor : Q) (minNeighbors : Z) (rectangle_color : Pixel) : L (option nat * nat) :=
  try_except is_Exception
    (lift (detect_faces_try env frame face_cascade scaleFactor minNeighbors rectangle_color))
    (fun e =>
       st_error ("Erreur lors de la détection: " +:+ exn_str e) ;;
       ret (frame, 0)).

(** ** load_cascade_classifier *)

Definition load_cascade_classifier_body : L Classifier :=
  lift (log EvLoad) ;;
  present <- get_run (fun s => bool_decide (is_Some (cascade_file (world s)))) ;;
  (if negb present then
     st_info "Téléchargement du fichier de classification..." ;;
     try_except is_Exception
       (lift (urlretrieve env) ;;
        st_success "Fichier de classification téléchargé avec succès.")
       (fun e =>
          if is_URLError e then
            st_error ("Erreur de téléchargement (URL invalide ? Problème de réseau ?): "
                      +:+ exn_str e) ;;
            st_stop
          else
            st_error ("Erreur lors du téléchargement: " +:+ exn_str e) ;;
            st_stop)
   else ret tt) ;;
  try_except is_Exception
    (face_cascade <- lift CascadeClassifier ;;
     if cc_empty face_cascade then
       raise (ValueError ("Erreur de chargement du classificateur depuis : "
                          +:+ "haarcascade_frontalface_default.xml"))
     else ret face_cascade)
    (fun e =>
       st_error ("Erreur lors de la création du classificateur : " +:+ exn_str e) ;;
       st_stop).

(** The elements a function displays. *)
Definition is_display (e : Event) : bool :=
  match e with
  | EvInfo _ | EvSuccess _ | EvWarning _ | EvError _ => true
  | _ => false
  end.

Fixpoint show_all (evs : list Event) : L unit :=
  match evs with
  | [] => ret tt
  | e :: rest => st_call e ;; show_all rest
  end.

(** [@st.cache_resource]: a call that returns stores the value together with
    the elements the function displayed; a call served by the cache displays
    them again.  What the decorator itself shows while the function runs (a
    spinner) is left out. *)
Definition cache_resource (body : L Classifier) : L Classifier :=
  c <- get_run (fun s => cache (world s)) ;;
  match c with
  | Some v =>
      msgs <- get_run replay ;;
      show_all msgs ;;
      ret v
  | None =>
      t0 <- get_run (fun s => trace (world s)) ;;
      v <- body ;;
      t1 <- get_run (fun s => trace (world s)) ;;
      lift (modify (set_cache (Some v))) ;;
      modify_run (set_replay (filter (fun e => is_display e = true) (drop (length t0) t1))) ;;
      ret v
  end.

Definition load_cascade_classifier : L Classifier :=
  cache_resource load_cascade_classifier_body.

(** ** main *)

Definition reopen (h : nat) : L nat :=
  st_warning "Erreur de lecture de la caméra. Tentative de réinitialisation..." ;;
  lift (safe_camera_release (Some h)) ;;
  lift (time_sleep 1) ;;
  initialize_camera.

Definition recover (h : nat) : L unit :=
  c <- reopen h ;;
  lift (modify (set_main_cap (Some c))).

(** [frame_placeholder.image] and [stats_placeholder.markdown] display. *)
Definition process_and_publish (ui : UI) (face_cascade : Classifier) (fr : nat) : L unit :=
  frame <- lift (cvtColor_BGR2RGB fr) ;;
  res <- detect_faces_frame (Some frame) face_cascade (scaleFactor ui)
           (minNeighbors ui) (color_rgb ui) ;;
  st_call (EvImage (fst res)) ;;
  f <- get_run (fun s => fps (world s)) ;;
  st_call (EvStats f (snd res)) ;;
  lift (time_sleep (1 # 100)).

Definition loop_body (ui : UI) (face_cascade : Classifier) : L unit :=
  cap <- get_run (fun s => main_cap (world s)) ;;
  match cap with
  | None => raise (OtherError "local variable 'cap' referenced before assignment")
  | Some h =>
      r <- lift (cap_read env h) ;;
      sz <- get_run (fun s => frame_size (world s) (snd r)) ;;
      match snd r with
      | None => recover h
      | Some fr =>
          if negb (fst r) || (sz =? 0) then recover h
          else process_and_publish ui face_cascade fr
      end
  end.

Fixpoint capture_loop (fuel : nat) (ui : UI) (face_cascade : Classifier) : L unit :=
  match fuel with
  | O => out_of_fuel
  | S k =>
      try_except is_Exception
        (loop_body ui face_cascade)
        (fun e =>
           st_error ("Erreur dans la boucle principale: " +:+ exn_str e) ;;
           lift (time_sleep (1 # 10))) ;;
      capture_loop k ui face_cascade
  end.

(** [with st.sidebar:] the header, the colour picker and the two sliders. *)
Definition sidebar : L unit :=
  st_widget ;; st_widget ;; st_widget ;; st_widget.

(** The columns, the image placeholder, the statistics title, the statistics
    placeholder and the button. *)
Definition layout : L unit :=
  st_widget ;; st_widget ;; st_widget ;; st_widget ;; st_widget.

Definition main_try (fuel : nat) (ui : UI) : L unit :=
  face_cascade <- load_cascade_classifier ;;
  sidebar ;;
  cap <- initialize_camera ;;
  lift (modify (set_main_cap (Some cap))) ;;
  layout ;;
  if run ui then capture_loop fuel ui face_cascade else ret tt.

Definition main_finally : L unit :=
  cap <- get_run (fun s => main_cap (world s)) ;;
  match cap with
  | Some h => lift (safe_camera_release (Some h))
  | None => ret tt
  end ;;
  st_info "Ressources libérées".

Definition main_guard (body : L unit) : L unit :=
  try_finally
    (try_except is_Exception body
       (fun e => st_error ("Erreur générale: " +:+ exn_str e)))
    main_finally.

(** [st.set_page_config] and [st.title] come before the [try]. *)
Definition main (fuel : nat) (ui : UI) : L unit :=
  lift (modify (set_main_cap None)) ;;
  st_widget ;;
  st_widget ;;
  main_guard (main_try fuel ui).

(** ** Vocabulary *)

(** The success message of [initialize_camera] (line 81), which stands
    between the validated read and the [return cap]. *)
Definition camera_ready : Event := EvSuccess "Caméra initialisée avec succès".

(** [m] does not touch the camera state, and what was cut stays cut. *)
Definition keeps (s s' : Run) : Prop :=
  cam_eq (world s) (world s') /\ cut s `prefix_of` cut s'.

Definition camless {A} (m : L A) : Prop := forall s, keeps s (m s).2.

Definition grows {A} (m : L A) : Prop := forall s, cut s `prefix_of` cut (m s).2.

(** Every open capture object from [base] on is bound to [cap], unless the
    success message of [initialize_camera] was cut. *)
Definition guarded (base : nat) (s : Run) : Prop :=
  camera_ready ∈ cut s \/ held base (world s).

Definition released (base : nat) (s : Run) : Prop :=
  camera_ready ∈ cut s \/ closed_from base (world s).

(** The state in which [main] enters its [try]: the page set-up and the
    title are displayed, no local is bound. *)
Definition entered (s : Run) : Run :=
  set_n_st (S (S (n_st s))) (set_world (set_main_cap None (world s)) s).

(** The world after the release of the [finally] block: [cap], if bound and
    open, is released. *)
Definition let_go (w : World) : World := (safe_camera_release (main_cap w) w).2.

(** The script has stopped itself in [initialize_camera]: the last thing
    displayed is its error message and the stop is requested. *)
Definition init_failed (s : Run) : Prop :=
  stop_requested s = true
  /\ exists m, last (trace (world s))
              = Some (EvError ("Erreur d'initialisation de la caméra: " +:+ m)).

(** Between [s] and [s'] only the world has changed. *)
Definition same_run (s s' : Run) : Prop :=
  n_st s' = n_st s /\ stop_requested s' = stop_requested s /\ cut s' = cut s.

(** A display was cut between [s] and [s']. *)
Definition interrupted (s s' : Run) : Prop := length (cut s) < length (cut s').

(** Started with no stop requested, [m] raises a control exception only
    where a Streamlit call finds a request or [initialize_camera] stops the
    script; otherwise no stop is requested afterwards. *)
Definition tame {A} (m : L A) : Prop :=
  forall s,
    cut s `prefix_of` cut (m s).2
    /\ (stop_requested s = false ->
        match (m s).1 with
        | Raise e =>
            (is_Exception e = true /\ stop_requested (m s).2 = false)
            \/ (e = StopException /\ (interrupted s (m s).2 \/ init_failed (m s).2))
        | _ => stop_requested (m s).2 = false
        end).

End Script.

End Live.

(** * Concrete worlds *)

Definition red_frame : Frame := [[(0, 0, 255)%Z; (255, 0, 0)%Z]].

Definition fc_ok : Classifier :=
  {| cc_empty := false; cc_detect := fun _ _ _ _ => Detected [(0, 0, 1, 1)%Z] |}.

Definition fc_failing : Classifier :=
  {| cc_empty := false; cc_detect := fun _ _ _ _ => DetectError "detection failed" |}.

(** A camera that opens whenever asked and delivers [red_frame]; a clock
    that advances by one second per reading; a network that delivers a good
    model; rectangles paint the pixel (0, 0), text paints nothing. *)
Definition env_live : Env :=
  {| open_script := fun _ _ => true;
     read_script := fun _ => (true, Some red_frame);
     clock := fun n => inject_Z (Z.of_nat n);
     fetch_script := fun _ => FetchOk (CtorOk fc_ok);
     rect_mask := fun _ _ _ x y => (x =? 0)%Z && (y =? 0)%Z;
     text_mask := fun _ _ _ _ _ _ => false;
     rectangle_raises := fun _ _ _ => false;
     putText_raises := fun _ _ _ => false |}.

(** The same with a camera that opens but never delivers a frame. *)
Definition env_blind : Env :=
  {| open_script := fun _ _ => true;
     read_script := fun _ => (false, None);
     clock := clock env_live;
     fetch_script := fetch_script env_live;
     rect_mask := rect_mask env_live;
     text_mask := text_mask env_live;
     rectangle_raises := rectangle_raises env_live;
     putText_raises := putText_raises env_live |}.

(** The same with no camera that can be opened. *)
Definition env_noopen : Env :=
  {| open_script := fun _ _ => false;
     read_script := fun _ => (false, None);
     clock := clock env_live;
     fetch_script := fetch_script env_live;
     rect_mask := rect_mask env_live;
     text_mask := text_mask env_live;
     rectangle_raises := rectangle_raises env_live;
     putText_raises := putText_raises env_live |}.

(** A camera that is unplugged after the start: the first six capture
    objects open and the first read delivers a frame, nothing after that. *)
Definition env_unplugged : Env :=
  {| open_script := fun n _ => n <? 6;
     read_script := fun n => if n =? 0 then (true, Some red_frame) else (false, None);
     clock := clock env_live;
     fetch_script := fetch_script env_live;
     rect_mask := rect_mask env_live;
     text_mask := text_mask env_live;
     rectangle_raises := rectangle_raises env_live;
     putText_raises := putText_raises env_live |}.

(** No network. *)
Definition env_offline : Env :=
  {| open_script := open_script env_live;
     read_script := read_script env_live;
     clock := clock env_live;
     fetch_script := fun _ => FetchURLError "unreachable";
     rect_mask := rect_mask env_live;
     text_mask := text_mask env_live;
     rectangle_raises := rectangle_raises env_live;
     putText_raises := putText_raises env_live |}.

(** A fresh process. *)
Definition w_init : World :=
  {| caps := []; peak_open := 0; n_read := 0; n_clock := 0; n_fetch := 0; heap := [];
     prev_frame_time := 0; fps := 0; cascade_file := None; cache := None;
     main_cap := None; trace := [] |}.

Definition ui_run : UI :=
  {| run := true; color_rgb := (0, 255, 0)%Z; minNeighbors := 5; scaleFactor := 11 # 10 |}.

Definition ui_idle : UI :=
  {| run := false; color_rgb := (0, 255, 0)%Z; minNeighbors := 5; scaleFactor := 11 # 10 |}.

(** The state of [main] on [env_unplugged] when it enters the loop. *)
Definition w_running : World :=
  set_main_cap (Some 5)
    (initialize_camera env_unplugged
       (load_cascade_classifier env_unplugged (set_main_cap None w_init)).2).2.

(** A world that holds one frame. *)
Definition w_frame : World := set_heap [red_frame] w_init.

(** A camera that misses the second read of the run and is fine otherwise. *)
Definition env_hiccup : Env :=
  {| open_script := open_script env_live;
     read_script := fun n => if n =? 1 then (false, None) else (true, Some red_frame);
     clock := clock env_live;
     fetch_script := fetch_script env_live;
     rect_mask := rect_mask env_live;
     text_mask := text_mask env_live;
     rectangle_raises := rectangle_raises env_live;
     putText_raises := putText_raises env_live |}.

(** A network that delivers a file from which only an empty classifier is
    built. *)
Definition env_badmodel : Env :=
  {| open_script := open_script env_live;
     read_script := read_script env_live;
     clock := clock env_live;
     fetch_script := fun _ => FetchOk (CtorOk empty_classifier);
     rect_mask := rect_mask env_live;
     text_mask := text_mask env_live;
     rectangle_raises := rectangle_raises env_live;
     putText_raises := putText_raises env_live |}.

(** The states in which the loop is entered on [env_live] and [env_hiccup]
    after the camera has been initialised in a fresh process. *)
Definition w_live : World :=
  set_main_cap (Some 5) (initialize_camera env_live w_init).2.

Definition w_hiccup : World :=
  set_main_cap (Some 5) (initialize_camera env_hiccup w_init).2.

(** A world whose last frame was timed five seconds before the next clock
    reading of [env_live], and one timed two seconds after it. *)
Definition w_late : World := set_n_clock 5 w_init.

Definition w_ahead : World := set_prev_frame_time 3 (set_n_clock 1 w_init).

(** Control requests: none during the run; one that is pending at the
    [k]-th Streamlit call only (a rerun); one that is pending from the
    [k]-th call on (a stop). *)
Definition req_never : nat -> bool := fun _ => false.
Definition req_at (k : nat) : nat -> bool := fun n => n =? k.
Definition req_from (k : nat) : nat -> bool := fun n => k <=? n.



(** * Reasoning about computations *)

Lemma cam_eq_refl w : cam_eq w w.
Proof. by repeat split. Qed.

Lemma cam_eq_trans w1 w2 w3 : cam_eq w1 w2 -> cam_eq w2 w3 -> cam_eq w1 w3.
Proof.
  intros (?&?&?&?) (?&?&?&?). repeat split; try congruence. by etrans.
Qed.

Lemma cam_eq_emit e w : cam_eq w (emit e w).
Proof. repeat split. by apply prefix_app_r. Qed.

Lemma camless_ret {A} (a : A) : camless (ret a).
Proof. intros w. apply cam_eq_refl. Qed.

Lemma camless_raise {A} e : camless (@raise A e).
Proof. intros w. apply cam_eq_refl. Qed.

Lemma camless_get {A} (f : World -> A) : camless (get f).
Proof. intros w. apply cam_eq_refl. Qed.

Lemma camless_log e : camless (log e).
Proof. intros w. apply cam_eq_emit. Qed.

Lemma camless_bind {A B} (m : M A) (k : A -> M B) :
  camless m -> (forall a, camless (k a)) -> camless (bind m k).
Proof.
  intros Hm Hk w. unfold bind. specialize (Hm w).
  destruct (m w) as [[a|e|] w1]; simpl in *; auto.
  eapply cam_eq_trans; [exact Hm | apply Hk].
Qed.

Lemma camless_try_except {A} c (m : M A) h :
  camless m -> (forall e, camless (h e)) -> camless (try_except c m h).
Proof.
  intros Hm Hh w. unfold try_except. specialize (Hm w).
  destruct (m w) as [[a|e|] w1]; simpl in *; auto.
  destruct (c e); simpl; auto.
  eapply cam_eq_trans; [exact Hm | apply Hh].
Qed.

Lemma raises_ret {A} E (a : A) : raises E (ret a).
Proof. by intros w. Qed.

Lemma raises_get {A} E (f : World -> A) : raises E (get f).
Proof. by intros w. Qed.

Lemma raises_modify E f : raises E (modify f).
Proof. by intros w. Qed.

Lemma raises_log E e : raises E (log e).
Proof. by intros w. Qed.

Lemma raises_raise {A} (E : exn -> Prop) e : E e -> raises E (@raise A e).
Proof. by intros H w. Qed.

Lemma raises_bind {A B} E (m : M A) (k : A -> M B) :
  raises E m -> (forall a, raises E (k a)) -> raises E (bind m k).
Proof.
  intros Hm Hk w. unfold bind. specialize (Hm w).
  destruct (m w) as [[a|e|] w1]; simpl in *; auto. apply Hk.
Qed.

Lemma returns_only_bind {A B} (P : B -> Prop) (m : M A) (k : A -> M B) :
  (forall a, returns_only P (k a)) -> returns_only P (bind m k).
Proof.
  intros Hk w b. unfold bind.
  destruct (m w) as [[a|e|] w1]; simpl; try discriminate. apply Hk.
Qed.

Lemma returns_only_ret {A} (P : A -> Prop) a : P a -> returns_only P (ret a).
Proof. intros H w b [= <-]. done. Qed.

Lemma returns_only_raise {A} (P : A -> Prop) e : returns_only P (raise e).
Proof. by intros w b. Qed.

(** The steps that close goals about [camless] and [mild] on straight-line
    code: structural rules, then a case split on the scrutinee. *)
Ltac py_split :=
  match goal with
  | |- _ (if ?b then _ else _) => destruct b
  | |- _ (match ?x with _ => _ end) => destruct x
  | |- _ (let _ := _ in _) => cbv zeta
  end.

Create HintDb py discriminated.

Ltac camless_tac :=
  repeat first
    [ progress intros
    | solve [eauto with py]
    | apply camless_ret | apply camless_raise | apply camless_get | apply camless_log
    | apply camless_bind | apply camless_try_except
    | py_split ].

Ltac raises_tac :=
  repeat first
    [ progress intros
    | solve [eauto with py]
    | apply raises_ret | apply raises_get | apply raises_log | apply raises_modify
    | apply raises_bind
    | py_split ].

Section Effects.

Variable env : Env.

Lemma camless_time_sleep d : camless (time_sleep d).
Proof. apply camless_log. Qed.

Lemma camless_time_time : camless (time_time env).
Proof. intros w. by repeat split. Qed.

Lemma camless_cap_read h : camless (cap_read env h).
Proof.
  intros w. unfold cap_read.
  destruct (is_opened w h); [destruct (read_script env (n_read w)) as [r [f|]]|];
    cbn [snd]; repeat split; by apply prefix_app_r.
Qed.

Lemma camless_py_div a b : camless (py_div a b).
Proof. unfold py_div. camless_tac. Qed.

Lemma camless_modify_fps f : camless (modify (set_fps f)).
Proof. intros w. by repeat split. Qed.

Lemma camless_modify_prev f : camless (modify (set_prev_frame_time f)).
Proof. intros w. by repeat split. Qed.

Hint Resolve camless_time_sleep camless_time_time camless_cap_read camless_py_div
  camless_modify_fps camless_modify_prev : py.

Lemma camless_calculate_fps : camless (calculate_fps env).
Proof. unfold calculate_fps. camless_tac. Qed.

Lemma camless_cvtColor_BGR2RGB r : camless (cvtColor_BGR2RGB r).
Proof. intros w. unfold cvtColor_BGR2RGB. by destruct (fsize _ =? 0); repeat split. Qed.

Lemma camless_cvtColor_BGR2GRAY r : camless (cvtColor_BGR2GRAY r).
Proof. intros w. unfold cvtColor_BGR2GRAY. by destruct (fsize _ =? 0); repeat split. Qed.

Lemma camless_detectMultiScale c g sf mn ms : camless (detectMultiScale c g sf mn ms).
Proof.
  intros w. unfold detectMultiScale.
  destruct (cc_detect _ _ _ _ _); apply cam_eq_emit.
Qed.

Lemma camless_cv2_rectangle r p1 p2 c t : camless (cv2_rectangle env r p1 p2 c t).
Proof. intros w. unfold cv2_rectangle. by destruct (rectangle_raises _ _ _ _); repeat split. Qed.

Lemma camless_cv2_putText r s o sc c t : camless (cv2_putText env r s o sc c t).
Proof. intros w. unfold cv2_putText. by destruct (putText_raises _ _ _ _); repeat split. Qed.

Hint Resolve camless_calculate_fps camless_cvtColor_BGR2RGB camless_cvtColor_BGR2GRAY
  camless_detectMultiScale camless_cv2_rectangle camless_cv2_putText : py.

Lemma camless_draw_faces r faces c : camless (draw_faces env r faces c).
Proof.
  induction faces as [|[[[x y] w] h] rest IH]; simpl; camless_tac.
Qed.

Hint Resolve camless_draw_faces : py.

Lemma camless_detect_faces_try fr fc sf mn c :
  camless (detect_faces_try env fr fc sf mn c).
Proof. unfold detect_faces_try. camless_tac. Qed.

Hint Resolve camless_detect_faces_try : py.

Lemma camless_detect_faces_frame fr fc sf mn c :
  camless (detect_faces_frame env fr fc sf mn c).
Proof. unfold detect_faces_frame, st_error. camless_tac. Qed.


Lemma raises_calculate_fps E : raises E (calculate_fps env).
Proof.
  intros w. unfold calculate_fps, time_time, bind, try_except, py_div, get, modify.
  simpl. by destruct (Qeq_bool _ 0).
Qed.

Lemma raises_cvtColor_BGR2GRAY r : raises is_cv (cvtColor_BGR2GRAY r).
Proof.
  intros w. unfold cvtColor_BGR2GRAY. destruct (fsize _ =? 0); simpl; [by eexists|done].
Qed.

Lemma raises_detectMultiScale c g sf mn ms : raises is_cv (detectMultiScale c g sf mn ms).
Proof.
  intros w. unfold detectMultiScale. destruct (cc_detect _ _ _ _ _); simpl; [by eexists|done].
Qed.

Lemma raises_cv2_rectangle r p1 p2 c t : raises is_cv (cv2_rectangle env r p1 p2 c t).
Proof.
  intros w. unfold cv2_rectangle. destruct (rectangle_raises _ _ _ _); simpl; [by eexists|done].
Qed.

Lemma raises_cv2_putText r s o sc c t : raises is_cv (cv2_putText env r s o sc c t).
Proof.
  intros w. unfold cv2_putText. destruct (putText_raises _ _ _ _); simpl; [by eexists|done].
Qed.

Hint Resolve raises_calculate_fps raises_cvtColor_BGR2GRAY raises_detectMultiScale
  raises_cv2_rectangle raises_cv2_putText : py.

Lemma raises_draw_faces r faces c : raises is_cv (draw_faces env r faces c).
Proof.
  induction faces as [|[[[x y] w] h] rest IH]; simpl; raises_tac.
Qed.

Hint Resolve raises_draw_faces : py.

Lemma detect_faces_try_invalid fr fc sf mn c w :
  frame_size w fr = 0 ->
  detect_faces_try env fr fc sf mn c w = (Raise (ValueError "Frame invalide"), w).
Proof.
  intros H. unfold detect_faces_try, bind, get. simpl.
  destruct fr as [r|]; [|done]. by rewrite H.
Qed.

Lemma detect_faces_try_valid r fc sf mn c w :
  frame_size w (Some r) <> 0 ->
  detect_faces_try env (Some r) fc sf mn c w = detect_and_draw env r fc sf mn c w.
Proof.
  intros H. unfold detect_faces_try, bind at 1, get. simpl.
  apply Nat.eqb_neq in H. simpl in H. by rewrite H.
Qed.

Lemma raises_detect_and_draw r fc sf mn c : raises is_cv (detect_and_draw env r fc sf mn c).
Proof. unfold detect_and_draw. raises_tac. Qed.

Lemma returns_detect_and_draw r fc sf mn c :
  returns_only (fun a => a.1 = Some r) (detect_and_draw env r fc sf mn c).
Proof.
  unfold detect_and_draw.
  repeat (apply returns_only_bind; intros). by apply returns_only_ret.
Qed.

Lemma is_cv_ordinary e : is_cv e -> ordinary e.
Proof. by intros [m ->]. Qed.

Lemma detect_faces_frame_run fr fc sf mn c w :
  detect_faces_frame env fr fc sf mn c w =
  match detect_faces_try env fr fc sf mn c w with
  | (Raise e, w') =>
      (Ret (fr, 0), emit (EvError ("Erreur lors de la détection: " +:+ exn_str e)) w')
  | r => r
  end
  /\ exists n, (detect_faces_frame env fr fc sf mn c w).1 = Ret (fr, n).
Proof.
  unfold detect_faces_frame, try_except.
  destruct (decide (frame_size w fr = 0)) as [Hz|Hz].
  - rewrite detect_faces_try_invalid by done. simpl. split; [done|by eexists].
  - destruct fr as [r|]; [|done].
    rewrite detect_faces_try_valid by done.
    pose proof (raises_detect_and_draw r fc sf mn c w) as Hr.
    pose proof (returns_detect_and_draw r fc sf mn c w) as Hv.
    destruct (detect_and_draw env r fc sf mn c w) as [[[f n]|e|] w1]; simpl in *.
    + specialize (Hv _ eq_refl). simpl in Hv. subst f. split; [done|by eexists].
    + apply is_cv_ordinary in Hr. unfold ordinary in Hr. rewrite Hr. simpl.
      split; [done|by eexists].
    + done.
Qed.

(** ** Capture objects *)

Lemma cam_eq_is_opened w w' h : cam_eq w w' -> is_opened w' h = is_opened w h.
Proof. intros (Hc&_). unfold is_opened. by rewrite Hc. Qed.

Lemma cam_eq_closed_from b w w' : cam_eq w w' -> closed_from b w -> closed_from b w'.
Proof. intros He H h Hh. rewrite (cam_eq_is_opened _ _ _ He). auto. Qed.

Lemma cam_eq_only_open b c w w' : cam_eq w w' -> only_open b c w -> only_open b c w'.
Proof. intros He H h Hh. rewrite (cam_eq_is_opened _ _ _ He). auto. Qed.

Lemma cam_eq_held b w w' : cam_eq w w' -> held b w -> held b w'.
Proof.
  intros He H h Hh. rewrite (cam_eq_is_opened _ _ _ He).
  destruct He as (_&_&->&_). auto.
Qed.

Lemma count_open_app (l : list bool) (b : bool) : count_open (l ++ [b]) = count_open l + (if b then 1 else 0).
Proof.
  unfold count_open. rewrite filter_app, length_app. f_equal. by destruct b.
Qed.

Lemma count_open_zero (l : list bool) : (forall h, default false (l !! h) = false) -> count_open l = 0.
Proof.
  induction l as [|b l IH]; intros H; [done|].
  pose proof (H 0) as H0. simpl in H0. subst b.
  unfold count_open in *. rewrite filter_cons_False by done.
  apply IH. intros h. apply (H (S h)).
Qed.

Lemma closed_count_open w : closed_from 0 w -> count_open (caps w) = 0.
Proof. intros H. apply count_open_zero. intros h. apply H. lia. Qed.

(** *** VideoCapture *)

Lemma VideoCapture_run idx w :
  exists w', VideoCapture env idx w = (Ret (length (caps w)), w')
    /\ caps w' = caps w ++ [open_script env (length (caps w)) idx]
    /\ main_cap w' = main_cap w
    /\ peak_open w' = Nat.max (peak_open w) (count_open (caps w'))
    /\ exists ok, trace w' = trace w ++ [EvOpen (length (caps w)) idx ok].
Proof. eexists. repeat split. by eexists. Qed.

Lemma is_opened_app_old w w' b h :
  caps w' = caps w ++ [b] -> h < length (caps w) -> is_opened w' h = is_opened w h.
Proof. intros Hc Hh. unfold is_opened. by rewrite Hc, lookup_app_l. Qed.

Lemma is_opened_app_new w w' b :
  caps w' = caps w ++ [b] -> is_opened w' (length (caps w)) = b.
Proof.
  intros Hc. unfold is_opened. rewrite Hc, lookup_app_r by lia.
  by rewrite Nat.sub_diag.
Qed.

Lemma is_opened_out_of_range w h : length (caps w) <= h -> is_opened w h = false.
Proof. intros Hh. unfold is_opened. by rewrite lookup_ge_None_2. Qed.

Lemma new_capture_only_open b w w' ok :
  caps w' = caps w ++ [ok] -> closed_from b w -> only_open b (length (caps w)) w'.
Proof.
  intros Hc Hcl h Hh Ho.
  destruct (decide (h < length (caps w))) as [Hlt|Hge].
  - rewrite (is_opened_app_old _ _ _ _ Hc Hlt), Hcl in Ho; done.
  - destruct (decide (h = length (caps w))) as [->|Hne]; [done|].
    rewrite is_opened_out_of_range in Ho; [done|].
    rewrite Hc, length_app. simpl. lia.
Qed.

(** *** safe_camera_release *)

Lemma safe_camera_release_closed h w :
  is_opened w h = false -> safe_camera_release (Some h) w = (Ret tt, w).
Proof. intros H. unfold safe_camera_release, bind, cap_isOpened, get. simpl. by rewrite H. Qed.

Lemma safe_camera_release_open h w :
  is_opened w h = true ->
  safe_camera_release (Some h) w =
  (Ret tt, emit (EvSleep (1 # 10))
             (emit (EvRelease h) (set_caps (<[h := false]> (caps w)) w))).
Proof. intros H. unfold safe_camera_release, bind, cap_isOpened, get. simpl. by rewrite H. Qed.

Lemma is_opened_insert (l : list bool) (h h' : nat) :
  default false (<[h := false]> l !! h') =
  if decide (h' = h) then false else default false (l !! h').
Proof.
  destruct (decide (h' = h)) as [->|Hne].
  - destruct (decide (h < length l)).
    + by rewrite list_lookup_insert_eq.
    + rewrite list_insert_ge by lia. by rewrite lookup_ge_None_2 by lia.
  - by rewrite list_lookup_insert_ne.
Qed.

Lemma safe_camera_release_run c w :
  exists w', safe_camera_release c w = (Ret tt, w')
    /\ main_cap w' = main_cap w
    /\ peak_open w' = peak_open w
    /\ length (caps w') = length (caps w)
    /\ forall h, is_opened w' h =
                 if decide (c = Some h) then false else is_opened w h.
Proof.
  destruct c as [h|].
  - destruct (is_opened w h) eqn:Ho.
    + rewrite safe_camera_release_open by done. eexists. split; [done|].
      simpl. repeat split; [by rewrite length_insert|].
      intros h'. unfold is_opened. simpl. rewrite is_opened_insert.
      repeat case_decide; naive_solver.
    + rewrite safe_camera_release_closed by done. eexists. repeat split.
      intros h'. case_decide; naive_solver.
  - eexists. repeat split.
Qed.

Lemma release_only_open b c w :
  only_open b c w -> closed_from b (safe_camera_release (Some c) w).2.
Proof.
  intros Ho.
  destruct (safe_camera_release_run (Some c) w) as (w'&->&_&_&_&Hop). simpl.
  intros h Hh. rewrite Hop. case_decide; [done|].
  destruct (is_opened w h) eqn:E; [|done].
  apply Ho in E; [|done]. congruence.
Qed.

(** *** initialize_camera *)

Lemma bind_run {A B} (m : M A) (k : A -> M B) w a w1 :
  m w = (Ret a, w1) -> bind m k w = k a w1.
Proof. intros H. unfold bind. by rewrite H. Qed.

Lemma bind_raise {A B} (m : M A) (k : A -> M B) w e w1 :
  m w = (Raise e, w1) -> bind m k w = (Raise e, w1).
Proof. intros H. unfold bind. by rewrite H. Qed.

Lemma read_attempts_app t1 t2 :
  read_attempts (t1 ++ t2) = read_attempts t1 + read_attempts t2.
Proof.
  induction t1 as [|e t1 IH]; [done|]. destruct e; simpl; rewrite ?IH; done.
Qed.

Lemma release_stale_cons i rest w :
  release_stale env (i :: rest) w = release_stale env rest (stale_step env i w).
Proof.
  change (release_stale env (i :: rest))
    with (c <- VideoCapture env i ;; safe_camera_release (Some c) ;; release_stale env rest).
  destruct (VideoCapture_run i w) as (w1&E1&_).
  erewrite bind_run by exact E1.
  destruct (safe_camera_release_run (Some (length (caps w))) w1) as (w2&E2&_).
  erewrite bind_run by exact E2.
  unfold stale_step. rewrite E1. cbn [snd]. by rewrite E2.
Qed.

Lemma stale_step_spec b i w :
  closed_from b w ->
  closed_from b (stale_step env i w)
  /\ length (caps (stale_step env i w)) = S (length (caps w))
  /\ main_cap (stale_step env i w) = main_cap w
  /\ n_read (stale_step env i w) = n_read w
  /\ read_attempts (trace (stale_step env i w)) = read_attempts (trace w)
  /\ (b = 0 -> peak_open w <= 1 -> peak_open (stale_step env i w) <= 1).
Proof.
  intros Hcl. unfold stale_step.
  destruct (VideoCapture_run i w) as (w1&E1&Hc1&Hm1&Hp1&ok&Ht1). rewrite E1. cbn [snd].
  assert (Hn1 : n_read w1 = n_read w) by by inversion E1.
  assert (Ho : only_open b (length (caps w)) w1) by by eapply new_capture_only_open.
  assert (Hpk : b = 0 -> peak_open w <= 1 -> peak_open w1 <= 1).
  { intros -> Hp. rewrite Hp1, Hc1, count_open_app, closed_count_open by done.
    destruct (open_script _ _ _); lia. }
  split; [by apply release_only_open|].
  destruct (is_opened w1 (length (caps w))) eqn:Hop.
  - rewrite safe_camera_release_open by done. cbn [snd]. simpl.
    rewrite length_insert, Hc1, length_app, !read_attempts_app, Ht1, read_attempts_app.
    simpl. repeat split; [lia|done|done|lia|done].
  - rewrite safe_camera_release_closed by done. cbn [snd].
    rewrite Hc1, length_app, Ht1, read_attempts_app.
    simpl. repeat split; [lia|done|done|lia|done].
Qed.

Lemma release_stale_spec b idxs w :
  closed_from b w ->
  exists w', release_stale env idxs w = (Ret tt, w')
    /\ closed_from b w'
    /\ length (caps w') = length (caps w) + length idxs
    /\ main_cap w' = main_cap w
    /\ n_read w' = n_read w
    /\ read_attempts (trace w') = read_attempts (trace w)
    /\ (b = 0 -> peak_open w <= 1 -> peak_open w' <= 1).
Proof.
  revert w. induction idxs as [|i rest IH]; intros w Hcl.
  - exists w. simpl. repeat split; auto.
  - rewrite release_stale_cons.
    destruct (stale_step_spec b i w Hcl) as (H1&H2&H3&H4&H5&H6).
    destruct (IH _ H1) as (w'&E&K1&K2&K3&K4&K5&K6).
    exists w'. split; [done|]. simpl.
    repeat split; [done|lia|congruence|congruence|congruence|auto].
Qed.

Lemma camless_validate n cap : camless (validate env n cap).
Proof. induction n; simpl; unfold st_success; camless_tac. Qed.

Lemma raises_validate n cap : raises ordinary (validate env n cap).
Proof.
  induction n as [|n IH]; simpl; [by apply raises_raise|].
  apply raises_bind; [|intros r].
  - intros w. unfold cap_read.
    by destruct (is_opened w cap); [destruct (read_script _ _) as [? [?|]]|].
  - unfold st_success, time_sleep. raises_tac.
Qed.

Lemma returns_validate n cap : returns_only (eq cap) (validate env n cap).
Proof.
  induction n as [|n IH]; simpl; [apply returns_only_raise|].
  repeat (apply returns_only_bind; intros).
  destruct (_ && _); repeat (apply returns_only_bind; intros);
    [by apply returns_only_ret|done].
Qed.

Lemma open_and_validate_spec cap w :
  exists r w', open_and_validate env cap w = (r, w')
    /\ cam_eq w w'
    /\ match r with
       | Ret c => c = cap /\ is_opened w cap = true
       | Raise e => ordinary e
       | OutOfFuel => False
       end.
Proof.
  unfold open_and_validate.
  erewrite bind_run by (unfold cap_isOpened, get; reflexivity).
  destruct (is_opened w cap) eqn:Ho; cbn [negb].
  - pose (m := (cap_set cap "CAP_PROP_FRAME_WIDTH" 640 ;;
                cap_set cap "CAP_PROP_FRAME_HEIGHT" 480 ;; validate env 3 cap)).
    assert (Hc : camless m).
    { unfold m, cap_set. pose proof (camless_validate 3 cap). camless_tac. }
    assert (Hr : raises ordinary m).
    { unfold m, cap_set. pose proof (raises_validate 3 cap). raises_tac. }
    assert (Hv : returns_only (eq cap) m).
    { unfold m. do 2 (apply returns_only_bind; intros). apply returns_validate. }
    specialize (Hc w). specialize (Hr w). specialize (Hv w).
    change (exists r w', m w = (r, w') /\ cam_eq w w' /\
              match r with
              | Ret c => c = cap /\ true = true
              | Raise e => ordinary e
              | OutOfFuel => False
              end).
    destruct (m w) as [[c|e|] w']; cbn [fst snd] in *; eexists _, _;
      (split; [reflexivity|]); (split; [exact Hc|]); auto.
    split; [symmetry; by apply Hv|done].
  - eexists _, _. split; [reflexivity|]. split; [apply cam_eq_refl|done].
Qed.

Lemma initialize_camera_unfold w :
  initialize_camera env w =
  let w3 := pre_open env w in
  let cap := length (caps w3) in
  try_except is_Exception (open_and_validate env cap)
    (fun e =>
       safe_camera_release (Some cap) ;;
       st_error ("Erreur d'initialisation de la caméra: " +:+ exn_str e) ;;
       st_stop)
    (VideoCapture env 0 w3).2.
Proof.
  unfold initialize_camera, pre_open.
  erewrite bind_run by (unfold st_info, log, modify; reflexivity).
  set (w1 := emit _ w).
  destruct (release_stale_spec (length (caps w1)) (seq 0 5) w1) as (w2&E2&_).
  { intros h Hh. by apply is_opened_out_of_range. }
  erewrite bind_run by exact E2. rewrite E2. cbn [snd].
  erewrite bind_run by (unfold time_sleep, log, modify; reflexivity).
  destruct (VideoCapture_run 0 (emit (EvSleep (1 # 2)) w2)) as (w4&E4&_).
  erewrite bind_run by exact E4. by rewrite E4.
Qed.

Lemma pre_open_spec b w :
  closed_from b w ->
  closed_from b (pre_open env w)
  /\ length (caps (pre_open env w)) = length (caps w) + 5
  /\ main_cap (pre_open env w) = main_cap w
  /\ n_read (pre_open env w) = n_read w
  /\ read_attempts (trace (pre_open env w)) = read_attempts (trace w)
  /\ (b = 0 -> peak_open w <= 1 -> peak_open (pre_open env w) <= 1).
Proof.
  intros Hcl. unfold pre_open.
  set (w1 := emit _ w).
  destruct (release_stale_spec b (seq 0 5) w1 Hcl) as (w2&E&H1&H2&H3&H4&H5&H6).
  rewrite E. cbn [snd]. simpl in *.
  rewrite read_attempts_app, H5, read_attempts_app. simpl.
  repeat split; [done|lia|done|done|lia|done].
Qed.

(** What a call of [initialize_camera] does to the capture objects: it
    returns the one handle it leaves open, or stops the script with every
    handle it built closed. *)
Lemma initialize_camera_spec b w :
  closed_from b w ->
  exists r w', initialize_camera env w = (r, w')
    /\ main_cap w' = main_cap w
    /\ length (caps w') = length (caps w) + 6
    /\ (b = 0 -> peak_open w <= 1 -> peak_open w' <= 1)
    /\ match r with
       | Ret c => c = length (caps w) + 5 /\ only_open b c w' /\ is_opened w' c = true
       | Raise e => e = StopException /\ closed_from b w'
       | OutOfFuel => False
       end.
Proof.
  intros Hcl. rewrite initialize_camera_unfold. cbv zeta.
  destruct (pre_open_spec b w Hcl) as (H1&H2&H3&_&_&H6).
  remember (pre_open env w) as w3 eqn:Ew3. clear Ew3.
  destruct (VideoCapture_run 0 w3) as (w4&E4&Hc4&Hm4&Hp4&_).
  rewrite E4. cbn [snd].
  assert (Ho4 : only_open b (length (caps w3)) w4) by by eapply new_capture_only_open.
  assert (Hl4 : length (caps w4) = length (caps w) + 6).
  { rewrite Hc4, length_app. simpl. lia. }
  assert (Hpk : b = 0 -> peak_open w <= 1 -> peak_open w4 <= 1).
  { intros -> Hp. specialize (H6 eq_refl Hp).
    rewrite Hp4, Hc4, count_open_app, closed_count_open by done.
    destruct (open_script _ _ _); lia. }
  unfold try_except.
  destruct (open_and_validate_spec (length (caps w3)) w4) as (r&w5&E5&Hce&Hr).
  rewrite E5. pose proof Hce as (Hc5&Hp5&Hm5&_).
  destruct r as [c|e|]; [| |done].
  - destruct Hr as [-> Hop]. eexists _, _. split; [done|].
    repeat split; [congruence|congruence| |lia| |].
    + intros. rewrite Hp5. auto.
    + by eapply cam_eq_only_open.
    + by rewrite (cam_eq_is_opened _ _ _ Hce).
  - unfold ordinary in Hr. rewrite Hr.
    assert (Ho5 : only_open b (length (caps w3)) w5) by by eapply cam_eq_only_open.
    pose proof (release_only_open _ _ _ Ho5) as Hcl6.
    destruct (safe_camera_release_run (Some (length (caps w3))) w5)
      as (w6&E6&Hm6&Hp6&Hl6&_).
    rewrite E6 in Hcl6. cbn [snd] in Hcl6.
    erewrite bind_run by exact E6.
    eexists _, _. split; [reflexivity|]. simpl.
    repeat split; [congruence|congruence| |done].
    intros. rewrite Hp6, Hp5. auto.
Qed.

(** ** The capture loop *)

Lemma cap_read_run h w : cap_read env h w = (Ret (read_result env h w), after_read env h w).
Proof.
  unfold read_result, after_read, cap_read.
  by destruct (is_opened w h); [destruct (read_script env (n_read w)) as [r [f|]]|].
Qed.

Lemma reopen_run h w : reopen env h w = initialize_camera env (closing h w).
Proof.
  unfold reopen, closing.
  erewrite bind_run by (unfold st_warning, log, modify; reflexivity).
  destruct (safe_camera_release_run (Some h)
              (emit (EvWarning "Erreur de lecture de la caméra. Tentative de réinitialisation...") w))
    as (w2&E2&_).
  erewrite bind_run by exact E2. rewrite E2. cbn [snd].
  by erewrite bind_run by (unfold time_sleep, log, modify; reflexivity).
Qed.

Lemma loop_body_unbound ui fc w :
  main_cap w = None ->
  loop_body env ui fc w =
  (Raise (OtherError "local variable 'cap' referenced before assignment"), w).
Proof.
  intros H. unfold loop_body.
  erewrite bind_run by (unfold get; reflexivity). by rewrite H.
Qed.

Lemma loop_body_bad ui fc w h :
  main_cap w = Some h -> read_bad env h w = true ->
  loop_body env ui fc w = recover env h (after_read env h w).
Proof.
  intros H Hb. unfold loop_body.
  erewrite bind_run by (unfold get; reflexivity). rewrite H.
  erewrite bind_run by apply cap_read_run.
  erewrite bind_run by (unfold get; reflexivity).
  unfold read_bad in Hb. cbv zeta in Hb.
  destruct (read_result env h w) as [r [fr|]]; cbn [fst snd] in *; [|done].
  rewrite orb_false_r in Hb. by rewrite Hb.
Qed.

Lemma loop_body_good ui fc w h :
  main_cap w = Some h -> read_bad env h w = false ->
  exists fr, (read_result env h w).2 = Some fr
    /\ frame_size (after_read env h w) (Some fr) <> 0
    /\ loop_body env ui fc w = process_and_publish env ui fc fr (after_read env h w).
Proof.
  intros H Hb. unfold loop_body.
  erewrite bind_run by (unfold get; reflexivity). rewrite H.
  erewrite bind_run by apply cap_read_run.
  erewrite bind_run by (unfold get; reflexivity).
  unfold read_bad in Hb. cbv zeta in Hb.
  destruct (read_result env h w) as [r [fr|]]; cbn [fst snd] in *.
  - rewrite orb_false_r in Hb. rewrite Hb. exists fr. split; [done|]. split; [|done].
    apply orb_false_iff in Hb as [_ Hb]. by apply Nat.eqb_neq in Hb.
  - by rewrite orb_true_r in Hb.
Qed.

Lemma camless_process_and_publish ui fc fr : camless (process_and_publish env ui fc fr).
Proof.
  unfold process_and_publish. pose proof camless_detect_faces_frame. camless_tac.
Qed.

Lemma held_only_open b h w : held b w -> main_cap w = Some h -> only_open b h w.
Proof. intros Hh Hm h' Hb Ho. specialize (Hh h' Hb Ho). congruence. Qed.

Lemma closed_held b w : closed_from b w -> held b w.
Proof. intros H h Hb Ho. rewrite H in Ho; done. Qed.

Lemma closing_spec b h w :
  only_open b h w ->
  closed_from b (closing h w)
  /\ main_cap (closing h w) = main_cap w
  /\ peak_open (closing h w) = peak_open w.
Proof.
  intros Ho. unfold closing.
  set (w1 := emit _ w).
  pose proof (release_only_open b h w1 Ho) as Hcl.
  destruct (safe_camera_release_run (Some h) w1) as (w2&E2&Hm&Hp&_).
  rewrite E2 in *. cbn [snd] in *. done.
Qed.

(** An iteration keeps every open handle bound to [cap], however it ends. *)
Lemma held_loop_body b ui fc w :
  held b w -> held b (loop_body env ui fc w).2.
Proof.
  intros Hh. destruct (main_cap w) as [h|] eqn:Hm.
  - assert (Hce : cam_eq w (after_read env h w)).
    { pose proof (camless_cap_read h w) as Hc. by rewrite cap_read_run in Hc. }
    destruct (read_bad env h w) eqn:Hb.
    + rewrite (loop_body_bad _ _ _ _ Hm Hb). unfold recover.
      assert (Ho : only_open b h (after_read env h w)).
      { eapply cam_eq_only_open; [done|]. by apply held_only_open. }
      destruct (closing_spec _ _ _ Ho) as (Hcl&Hmc&_).
      destruct (initialize_camera_spec b _ Hcl) as (r&w'&E&Hm'&_&_&Hr).
      unfold bind. rewrite reopen_run, E.
      destruct r as [c|e|]; [|apply closed_held; apply Hr|done].
      destruct Hr as (_&Ho'&_). simpl.
      intros h' Hb' Hop. cbn [main_cap set_main_cap]. f_equal. symmetry. by apply Ho'.
    + destruct (loop_body_good ui fc _ _ Hm Hb) as (fr&_&_&->).
      eapply cam_eq_held; [|done].
      eapply cam_eq_trans; [done|]. apply camless_process_and_publish.
  - by rewrite loop_body_unbound.
Qed.

Lemma capture_loop_S k ui fc w :
  capture_loop env (S k) ui fc w =
  match loop_body env ui fc w with
  | (Ret _, w1) => capture_loop env k ui fc w1
  | (Raise e, w1) =>
      if is_Exception e then
        capture_loop env k ui fc
          (emit (EvSleep (1 # 10))
             (emit (EvError ("Erreur dans la boucle principale: " +:+ exn_str e)) w1))
      else (Raise e, w1)
  | (OutOfFuel, w1) => (OutOfFuel, w1)
  end.
Proof.
  cbn [capture_loop]. unfold bind at 1, try_except.
  destruct (loop_body env ui fc w) as [[[]|e|] w1]; try done.
  by destruct (is_Exception e).
Qed.

Lemma held_capture_loop b fuel ui fc w :
  held b w -> held b (capture_loop env fuel ui fc w).2.
Proof.
  revert w. induction fuel as [|k IH]; intros w Hh; [done|].
  rewrite capture_loop_S.
  pose proof (held_loop_body b ui fc w Hh) as H1.
  destruct (loop_body env ui fc w) as [[[]|e|] w1]; cbn [snd] in *; auto.
  destruct (is_Exception e); auto.
Qed.

(** ** main *)

Lemma camless_urlretrieve : camless (urlretrieve env).
Proof.
  intros w. unfold urlretrieve.
  destruct (fetch_script env (n_fetch w)); repeat split; by apply prefix_app_r.
Qed.

Lemma camless_CascadeClassifier : camless CascadeClassifier.
Proof.
  intros w. unfold CascadeClassifier.
  by destruct (cascade_file w) as [[?|?]|]; repeat split.
Qed.

Lemma camless_set_cache c : camless (modify (set_cache c)).
Proof. intros w. by repeat split. Qed.

Hint Resolve camless_urlretrieve camless_CascadeClassifier camless_set_cache : py.

Lemma camless_load_cascade_classifier_body : camless (load_cascade_classifier_body env).
Proof.
  unfold load_cascade_classifier_body, st_info, st_success, st_error, st_stop.
  camless_tac.
Qed.

Lemma camless_load_cascade_classifier : camless (load_cascade_classifier env).
Proof.
  unfold load_cascade_classifier, cache_resource.
  pose proof camless_load_cascade_classifier_body. camless_tac.
Qed.

Lemma main_finally_run b w :
  held b w -> exists w', main_finally w = (Ret tt, w') /\ closed_from b w'.
Proof.
  intros Hh. unfold main_finally.
  erewrite bind_run by (unfold get; reflexivity).
  destruct (main_cap w) as [h|] eqn:Hm.
  - pose proof (release_only_open b h w (held_only_open _ _ _ Hh Hm)) as Hcl.
    destruct (safe_camera_release_run (Some h) w) as (w1&E1&_).
    rewrite E1 in Hcl. erewrite bind_run by exact E1.
    eexists. split; [reflexivity|]. done.
  - eexists. split; [reflexivity|].
    intros h Hb. destruct (is_opened (emit _ w) h) eqn:Ho; [|done].
    specialize (Hh h Hb Ho). congruence.
Qed.

Lemma main_guard_spec b body w :
  held b (body w).2 ->
  match (body w).1 with
  | OutOfFuel => (main_guard body w).1 = OutOfFuel
  | Raise e =>
      (main_guard body w).1 = (if is_Exception e then Ret tt else Raise e)
      /\ closed_from b (main_guard body w).2
  | Ret _ => (main_guard body w).1 = Ret tt /\ closed_from b (main_guard body w).2
  end.
Proof.
  intros Hh. unfold main_guard, try_finally, try_except.
  destruct (body w) as [[[]|e|] w1]; cbn [fst snd] in *.
  - destruct (main_finally_run b w1 Hh) as (w2&->&Hcl). done.
  - destruct (is_Exception e).
    + assert (Hh' : held b (emit (EvError ("Erreur générale: " +:+ exn_str e)) w1)) by done.
      unfold st_error, log, modify.
      destruct (main_finally_run b _ Hh') as (w2&->&Hcl). done.
    + destruct (main_finally_run b w1 Hh) as (w2&->&Hcl). done.
  - done.
Qed.

Lemma held_out_of_range w : held (length (caps w)) w.
Proof. intros h Hb Ho. by rewrite is_opened_out_of_range in Ho. Qed.

Lemma closed_out_of_range w : closed_from (length (caps w)) w.
Proof. intros h Hb. by apply is_opened_out_of_range. Qed.

(** C1: when a read of the capture loop fails and the reopen that follows
    (initialize_camera, called after the old handle is released) fails as
    well, the loop ends in that very iteration with the script-stop exception,
    whatever fuel is left, in the state the failed reopen produced; and the
    exception passes both [except Exception] handlers of main, so the whole
    pipeline stops after the [finally] block. *)
Theorem reopen_failure_is_fatal ui fc fuel w h :
  main_cap w = Some h ->
  read_bad env h w = true ->
  (forall c, (initialize_camera env (closing h (after_read env h w))).1 <> Ret c) ->
  capture_loop env (S fuel) ui fc w =
    (Raise StopException, (initialize_camera env (closing h (after_read env h w))).2)
  /\ forall (pre : M unit) w0,
       pre w0 = (Ret tt, w) ->
       (main_guard (pre ;; capture_loop env (S fuel) ui fc) w0).1 = Raise StopException.
Proof.
  intros Hm Hb Hfail.
  assert (E : capture_loop env (S fuel) ui fc w =
              (Raise StopException,
               (initialize_camera env (closing h (after_read env h w))).2)).
  { rewrite capture_loop_S, (loop_body_bad _ _ _ _ Hm Hb).
    unfold recover, bind. rewrite reopen_run.
    destruct (initialize_camera_spec _ _ (closed_out_of_range (closing h (after_read env h w))))
      as (r&w'&E&_&_&_&Hr).
    rewrite E in *. cbn [fst snd] in *.
    destruct r as [c|e|]; [by destruct (Hfail c)| |done].
    by destruct Hr as [-> _]. }
  split; [exact E|].
  intros pre w0 Hpre.
  pose proof (main_guard_spec _ (pre ;; capture_loop env (S fuel) ui fc) w0
                (held_out_of_range _)) as H.
  erewrite bind_run in H by exact Hpre. rewrite E in H. cbn [fst] in H.
  apply H.
Qed.

(** ** Validation reads *)

Lemma frame_of_alloc w f : frame_of (set_heap (heap w ++ [f]) w) (length (heap w)) = f.
Proof.
  unfold frame_of. cbn [heap set_heap].
  by rewrite lookup_app_r, Nat.sub_diag by lia.
Qed.

Lemma cap_read_invalid h w :
  is_opened w h = true ->
  frame_ok (read_script env (n_read w)) = false ->
  exists r w1, cap_read env h w = (Ret r, w1)
    /\ r.1 && bool_decide (is_Some r.2) && bool_decide (0 < frame_size w1 r.2) = false
    /\ trace w1 = trace w ++ [EvRead h]
    /\ n_read w1 = S (n_read w)
    /\ cam_eq w w1.
Proof.
  intros Ho Hk. unfold cap_read. rewrite Ho. unfold frame_ok in Hk.
  destruct (read_script env (n_read w)) as [r [f|]]; cbn [fst snd] in *.
  - eexists _, _. split; [reflexivity|]. cbn [fst snd].
    split; [|repeat split; by apply prefix_app_r].
    unfold frame_size.
    change (frame_of _ (length (heap w))) with
      (frame_of (set_heap (heap w ++ [f]) w) (length (heap w))).
    rewrite frame_of_alloc.
    destruct r; [|done]. rewrite andb_true_l in Hk. apply Nat.ltb_ge in Hk.
    apply andb_false_iff. right. apply bool_decide_eq_false. lia.
  - eexists _, _. split; [reflexivity|]. cbn [fst snd].
    split; [by rewrite andb_false_r|repeat split; by apply prefix_app_r].
Qed.

Lemma validate_all_invalid n h w :
  is_opened w h = true ->
  (forall k, frame_ok (read_script env k) = false) ->
  exists w', validate env n h w =
               (Raise (RuntimeError "La caméra ne produit pas d'images valides"), w')
    /\ trace w' = trace w ++ failed_attempts n h
    /\ cam_eq w w'.
Proof.
  intros Ho Hk. revert w Ho. induction n as [|n IH]; intros w Ho.
  - exists w. cbn. rewrite app_nil_r. split; [done|]. split; [done|apply cam_eq_refl].
  - destruct (cap_read_invalid h w Ho (Hk _)) as (r&w1&E1&Hbad&Ht1&_&Hce1).
    cbn [validate]. erewrite bind_run by exact E1.
    erewrite bind_run by (unfold get; reflexivity). rewrite Hbad.
    erewrite bind_run by (unfold time_sleep, log, modify; reflexivity).
    destruct (IH (emit (EvSleep (1 # 2)) w1)) as (w'&E&Ht&Hce).
    { change (is_opened w1 h = true). by rewrite (cam_eq_is_opened _ _ _ Hce1). }
    exists w'. split; [exact E|]. split.
    + rewrite Ht. cbn [trace emit failed_attempts]. rewrite Ht1, <- !app_assoc. done.
    + eapply cam_eq_trans; [exact Hce1|].
      eapply cam_eq_trans; [apply cam_eq_emit|exact Hce].
Qed.

(** C2 (amended): when no read ever yields a valid frame, initialize_camera
    stops the script; no capture object it built is left open; if device 0
    opened, the trace ends with exactly three read attempts, each followed by
    a pause of half a second, then the release of the handle and the error
    message, so three reads were added; if device 0 did not open, no read was
    attempted at all. *)
Theorem initialize_camera_no_valid_frame w :
  (forall k, frame_ok (read_script env k) = false) ->
  let h := length (caps w) + 5 in
  let w' := (initialize_camera env w).2 in
  (initialize_camera env w).1 = Raise StopException
  /\ closed_from (length (caps w)) w'
  /\ (open_script env h 0 = true ->
      read_attempts (trace w') = read_attempts (trace w) + 3
      /\ exists t, trace w' =
           t ++ failed_attempts 3 h ++
           [EvRelease h; EvSleep (1 # 10);
            EvError ("Erreur d'initialisation de la caméra: "
                     +:+ "La caméra ne produit pas d'images valides")])
  /\ (open_script env h 0 = false ->
      read_attempts (trace w') = read_attempts (trace w)).
Proof.
  intros Hk h w'.
  pose (msg := EvError ("Erreur d'initialisation de la caméra: "
                        +:+ "La caméra ne produit pas d'images valides")).
  assert (Hrun : exists wf, initialize_camera env w = (Raise StopException, wf)
            /\ (open_script env h 0 = true ->
                read_attempts (trace wf) = read_attempts (trace w) + 3
                /\ exists t, trace wf =
                     t ++ failed_attempts 3 h ++ [EvRelease h; EvSleep (1 # 10); msg])
            /\ (open_script env h 0 = false ->
                read_attempts (trace wf) = read_attempts (trace w))).
  { subst h. rewrite initialize_camera_unfold. cbv zeta.
    destruct (pre_open_spec _ w (closed_out_of_range w)) as (_&Hl3&_&_&Hra3&_).
    remember (pre_open env w) as w3 eqn:Ew3. clear Ew3.
    destruct (VideoCapture_run 0 w3) as (w4&E4&Hc4&_&_&ok&Ht4).
    rewrite E4. cbn [snd].
    pose proof (is_opened_app_new _ _ _ Hc4) as Ho4.
    rewrite Hl3 in Ho4, Ht4 |- *. clear Hc4 Hl3 E4.
    remember (length (caps w) + 5) as h eqn:Eh. clear Eh.
    unfold try_except, open_and_validate.
    erewrite bind_run by (unfold cap_isOpened, get; reflexivity).
    rewrite Ho4. destruct (open_script env h 0) eqn:Hopen; cbn [negb].
    - erewrite bind_run by (unfold cap_set, log, modify; reflexivity).
      erewrite bind_run by (unfold cap_set, log, modify; reflexivity).
      set (w5 := emit (EvSet h "CAP_PROP_FRAME_HEIGHT" 480)
                   (emit (EvSet h "CAP_PROP_FRAME_WIDTH" 640) w4)).
      destruct (validate_all_invalid 3 h w5 Ho4 Hk) as (w6&E6&Ht6&Hce6).
      rewrite E6. cbn [is_Exception].
      assert (Ho6 : is_opened w6 h = true) by by rewrite (cam_eq_is_opened _ _ _ Hce6).
      erewrite bind_run by (by apply safe_camera_release_open).
      erewrite bind_run by (unfold st_error, log, modify; reflexivity).
      eexists. split; [reflexivity|]. split; [intros _|done].
      cbn [trace emit set_caps]. rewrite Ht6. cbn [trace emit w5]. rewrite Ht4. split.
      + rewrite !read_attempts_app, Hra3. cbn. lia.
      + exists (trace w3 ++ [EvOpen h 0 ok; EvSet h "CAP_PROP_FRAME_WIDTH" 640;
                              EvSet h "CAP_PROP_FRAME_HEIGHT" 480]).
        rewrite <- !app_assoc. reflexivity.
    - unfold raise at 1. cbn [is_Exception].
      erewrite bind_run by (by apply safe_camera_release_closed).
      erewrite bind_run by (unfold st_error, log, modify; reflexivity).
      eexists. split; [reflexivity|]. split; [done|intros _].
      cbn [trace emit]. rewrite Ht4, !read_attempts_app, Hra3. cbn. lia. }
  destruct Hrun as (wf&E&H1&H2).
  destruct (initialize_camera_spec _ w (closed_out_of_range w)) as (r&w2&E'&_&_&_&Hr).
  rewrite E in E'. injection E' as <- <-.
  subst w'. rewrite E. cbn [fst snd].
  split; [done|]. split; [apply Hr|]. split; [exact H1|exact H2].
Qed.

(** ** Frame processing *)

Lemma invalid_frame_size w fr : invalid_frame w fr <-> frame_size w fr = 0.
Proof.
  unfold invalid_frame, frame_size. destruct fr as [r|]; [|naive_solver].
  split; [intros [?|(r'&[= <-]&H)]; done|intros H; right; eauto].
Qed.

Lemma cvtColor_BGR2RGB_run r w :
  fsize (frame_of w r) <> 0 ->
  cvtColor_BGR2RGB r w =
  (Ret (length (heap w)), set_heap (heap w ++ [COLOR_BGR2RGB (frame_of w r)]) w).
Proof. intros H. unfold cvtColor_BGR2RGB. apply Nat.eqb_neq in H. by rewrite H. Qed.

Lemma process_and_publish_returns ui fc fr w :
  fsize (frame_of w fr) <> 0 -> (process_and_publish env ui fc fr w).1 = Ret tt.
Proof.
  intros H. unfold process_and_publish.
  erewrite bind_run by by apply cvtColor_BGR2RGB_run.
  set (w1 := set_heap _ w).
  destruct (detect_faces_frame_run (Some (length (heap w))) fc (scaleFactor ui)
              (minNeighbors ui) (color_rgb ui) w1) as [_ [n Hn]].
  destruct (detect_faces_frame env (Some (length (heap w))) fc (scaleFactor ui)
              (minNeighbors ui) (color_rgb ui) w1) as [r w2] eqn:Ed.
  cbn [fst] in Hn. subst r. by erewrite bind_run by exact Ed.
Qed.

(** C3: detect_faces_frame returns for every frame, so never raises; its
    [try] raises the invalid-frame error exactly when the frame is None or
    has size zero, and then the function reports it and returns the frame with
    count 0; in the capture loop an iteration whose read delivered a frame
    always completes, so the loop goes on to the next iteration. *)
Theorem process_raises_only_invalid_frame fr fc sf mn c w :
  (exists n, (detect_faces_frame env fr fc sf mn c w).1 = Ret (fr, n))
  /\ ((detect_faces_try env fr fc sf mn c w).1 = Raise (ValueError "Frame invalide")
      <-> invalid_frame w fr)
  /\ (invalid_frame w fr ->
      detect_faces_frame env fr fc sf mn c w =
      (Ret (fr, 0),
       emit (EvError ("Erreur lors de la détection: " +:+ "Frame invalide")) w))
  /\ (forall ui h k,
        main_cap w = Some h -> read_bad env h w = false ->
        (loop_body env ui fc w).1 = Ret tt
        /\ capture_loop env (S k) ui fc w =
           capture_loop env k ui fc (loop_body env ui fc w).2).
Proof.
  split; [apply detect_faces_frame_run|].
  split; [|split].
  - rewrite invalid_frame_size. split.
    + intros H. destruct (decide (frame_size w fr = 0)) as [|Hz]; [done|].
      destruct fr as [r|]; [|done].
      rewrite detect_faces_try_valid in H by done.
      pose proof (raises_detect_and_draw r fc sf mn c w) as Hr.
      rewrite H in Hr. by destruct Hr.
    + intros H. by rewrite detect_faces_try_invalid.
  - rewrite invalid_frame_size. intros H.
    destruct (detect_faces_frame_run fr fc sf mn c w) as [-> _].
    by rewrite detect_faces_try_invalid.
  - intros ui h k Hm Hb.
    destruct (loop_body_good ui fc w h Hm Hb) as (r&_&Hsz&E).
    assert (Hret : (loop_body env ui fc w).1 = Ret tt).
    { rewrite E. by apply process_and_publish_returns. }
    split; [done|]. rewrite capture_loop_S.
    by destruct (loop_body env ui fc w) as [[[]|e|] w1].
Qed.

(** C10: detect_faces_frame never lets an exception out: it always returns
    the frame object it was given; whenever its [try] raised (an invalid
    frame, a detection or drawing error) the count it returns is 0, which is
    also what it returns when detection found no face. *)
Theorem detect_faces_frame_swallows_errors fr fc sf mn c w :
  (exists n, (detect_faces_frame env fr fc sf mn c w).1 = Ret (fr, n))
  /\ (forall e, (detect_faces_try env fr fc sf mn c w).1 = Raise e ->
        (detect_faces_frame env fr fc sf mn c w).1 = Ret (fr, 0))
  /\ (invalid_frame w fr -> (detect_faces_frame env fr fc sf mn c w).1 = Ret (fr, 0))
  /\ (forall f, (detect_faces_try env fr fc sf mn c w).1 = Ret (f, 0) ->
        (detect_faces_frame env fr fc sf mn c w).1 = Ret (fr, 0)).
Proof.
  destruct (detect_faces_frame_run fr fc sf mn c w) as [E [n Hn]].
  split; [by exists n|]. split; [|split].
  - intros e He. rewrite E.
    by destruct (detect_faces_try env fr fc sf mn c w) as [[?|?|] ?]; simplify_eq/=.
  - rewrite invalid_frame_size. intros H. rewrite E.
    by rewrite detect_faces_try_invalid.
  - intros f Hf. rewrite E in Hn. rewrite E.
    destruct (detect_faces_try env fr fc sf mn c w) as [[[f' n']|?|] ?]; simplify_eq/=.
    done.
Qed.

(** ** calculate_fps *)

Lemma py_int_inv_small q : (1 < q)%Q -> py_int (1 / q) = 0%Z.
Proof.
  destruct q as [a b]. unfold Qlt. cbn. intros H.
  destruct a as [|p|p]; try lia.
  unfold py_int, Qdiv, Qmult, Qinv. cbn. apply Z.quot_small. lia.
Qed.

Lemma calculate_fps_run w :
  let now := clock env (n_clock w) in
  let prev := prev_frame_time w in
  let f := if Qeq_bool (now - prev) 0 then 0%Q else (1 / (now - prev))%Q in
  calculate_fps env w =
  (Ret (py_int f), set_prev_frame_time now (set_fps f (set_n_clock (S (n_clock w)) w))).
Proof.
  cbv zeta. unfold calculate_fps, time_time, bind, try_except, py_div, get, modify.
  cbn [prev_frame_time set_n_clock]. by destruct (Qeq_bool _ 0).
Qed.

(** C4: calculate_fps never raises and stores the current reading of the
    clock as the last tick on every call; when the elapsed time is zero it
    records and returns 0, otherwise it records 1 / (now - last) and returns
    its integer part; a first call (last tick 0) on a clock that reads more
    than one second returns 0; and of two calls that read the same time the
    second returns 0. *)
Theorem calculate_fps_zero_elapsed w :
  let now := clock env (n_clock w) in
  let prev := prev_frame_time w in
  let w' := (calculate_fps env w).2 in
  exists v, (calculate_fps env w).1 = Ret v
    /\ prev_frame_time w' = now
    /\ ((now == prev)%Q -> v = 0%Z /\ fps w' = 0%Q)
    /\ (~ (now == prev)%Q ->
        fps w' = (1 / (now - prev))%Q /\ v = py_int (1 / (now - prev)))
    /\ (prev = 0%Q -> (1 < now)%Q -> v = 0%Z)
    /\ ((clock env (S (n_clock w)) == now)%Q -> (calculate_fps env w').1 = Ret 0%Z).
Proof.
  intros now prev w'. subst w'. rewrite calculate_fps_run. cbv zeta.
  fold now prev. eexists. split; [reflexivity|]. cbn [fst snd].
  split; [done|].
  assert (Hz : forall a b : Q, Qeq_bool (a - b) 0 = true <-> (a == b)%Q).
  { intros a b. rewrite Qeq_bool_iff. split; intros H; lra. }
  split; [|split; [|split]].
  - intros H. apply Hz in H. by rewrite H.
  - intros H. destruct (Qeq_bool (now - prev) 0) eqn:E; [by apply Hz in E|done].
  - intros H0 H1. destruct (Qeq_bool (now - prev) 0) eqn:E; [done|].
    apply py_int_inv_small. rewrite H0. lra.
  - intros H. rewrite calculate_fps_run. cbv zeta. cbn [fst].
    cbn [n_clock prev_frame_time set_prev_frame_time set_fps set_n_clock].
    fold now. apply Hz in H. by rewrite H.
Qed.

(** ** The image handed to the detector *)

Lemma fsize_BGR2RGB f : fsize (COLOR_BGR2RGB f) = fsize f.
Proof.
  unfold fsize, COLOR_BGR2RGB. f_equal.
  induction f as [|row f IH]; [done|].
  cbn [map concat]. by rewrite !length_app, length_map, IH.
Qed.

Lemma gray_of_swapped f : COLOR_BGR2GRAY (COLOR_BGR2RGB f) = COLOR_RGB2GRAY f.
Proof.
  unfold COLOR_BGR2GRAY, COLOR_BGR2RGB, COLOR_RGB2GRAY.
  rewrite map_map. apply map_ext. intros row.
  rewrite map_map. apply map_ext. by intros [[c0 c1] c2].
Qed.

Lemma detect_faces_frame_trace r fc sf mn c w :
  frame_size w (Some r) <> 0 ->
  trace w ++ [EvDetect (COLOR_BGR2GRAY (frame_of w r))]
    `prefix_of` trace (detect_faces_frame env (Some r) fc sf mn c w).2.
Proof.
  intros Hsz. destruct (detect_faces_frame_run (Some r) fc sf mn c w) as [-> _].
  rewrite detect_faces_try_valid by done. unfold detect_and_draw.
  erewrite bind_run; cycle 1.
  { unfold cvtColor_BGR2GRAY. unfold frame_size in Hsz.
    apply Nat.eqb_neq in Hsz. by rewrite Hsz. }
  unfold bind at 1, detectMultiScale.
  destruct (cc_detect _ _ _ _ _) as [m|faces]; [by apply prefix_app_r|].
  match goal with
  | |- context [?k (emit ?e w)] =>
      assert (Hc : cam_eq (emit e w) (k (emit e w)).2);
      [|destruct (k (emit e w)) as [[a|e'|] w2]; cbn [snd] in *]
  end.
  - pattern (emit (EvDetect (COLOR_BGR2GRAY (frame_of w r))) w).
    match goal with |- (fun w0 => cam_eq w0 (?k w0).2) _ => cut (camless k) end;
      [intros Hk; apply Hk|].
    camless_tac.
  - apply Hc.
  - destruct Hc as (_&_&_&Hp). etrans; [exact Hp|]. by apply prefix_app_r.
  - apply Hc.
Qed.

(** In an iteration whose read delivers the frame [f], the detector is handed
    the grey image of [f] computed with the weights of red and blue
    exchanged. *)
Lemma loop_detector_input ui fc w h f :
  main_cap w = Some h ->
  is_opened w h = true ->
  read_script env (n_read w) = (true, Some f) ->
  fsize f <> 0 ->
  trace w ++ [EvRead h; EvDetect (COLOR_RGB2GRAY f)]
    `prefix_of` trace (loop_body env ui fc w).2.
Proof.
  intros Hm Ho Hr Hsz.
  assert (Hres : read_result env h w = (true, Some (length (heap w)))).
  { unfold read_result, cap_read. by rewrite Ho, Hr. }
  assert (Haft : after_read env h w =
                 set_heap (heap w ++ [f]) (emit (EvRead h) (set_n_read (S (n_read w)) w))).
  { unfold after_read, cap_read. by rewrite Ho, Hr. }
  assert (Hfr : frame_of (after_read env h w) (length (heap w)) = f).
  { rewrite Haft. apply (frame_of_alloc (emit (EvRead h) (set_n_read (S (n_read w)) w))). }
  assert (Hb : read_bad env h w = false).
  { unfold read_bad. rewrite Hres. cbn [fst snd negb orb frame_size]. rewrite Hfr.
    rewrite bool_decide_eq_false_2 by done. by apply Nat.eqb_neq. }
  destruct (loop_body_good ui fc w h Hm Hb) as (fr&Efr&_&->).
  rewrite Hres in Efr. injection Efr as <-.
  unfold process_and_publish.
  erewrite bind_run by (apply cvtColor_BGR2RGB_run; by rewrite Hfr).
  rewrite Hfr. set (w1 := set_heap _ (after_read env h w)).
  assert (Hf1 : frame_of w1 (length (heap (after_read env h w))) = COLOR_BGR2RGB f).
  { apply frame_of_alloc. }
  pose proof (detect_faces_frame_trace (length (heap (after_read env h w))) fc
                (scaleFactor ui) (minNeighbors ui) (color_rgb ui) w1) as Ht.
  rewrite Hf1, gray_of_swapped in Ht.
  assert (Ht1 : trace w1 = trace w ++ [EvRead h]) by (unfold w1; by rewrite Haft).
  rewrite Ht1, <- app_assoc in Ht. cbn [app] in Ht.
  unfold bind at 1.
  destruct (detect_faces_frame env _ fc _ _ _ w1) as [[res|e|] w2]; cbn [snd] in Ht;
    try (apply Ht; cbn [frame_size]; by rewrite Hf1, fsize_BGR2RGB).
  etrans; [apply Ht; cbn [frame_size]; by rewrite Hf1, fsize_BGR2RGB|].
  cbn. rewrite <- !app_assoc. by apply prefix_app_r.
Qed.

(** ** Annotation in place *)

Lemma same_outside_refl S r w : same_outside S r w w.
Proof. by repeat split. Qed.

Lemma same_outside_trans S r w1 w2 w3 :
  same_outside S r w1 w2 -> same_outside S r w2 w3 -> same_outside S r w1 w3.
Proof.
  intros (H1&H2&H3) (K1&K2&K3). repeat split; [congruence| |].
  - intros r' Hr. by rewrite K2, H2.
  - intros x y Hxy. by rewrite K3, H3.
Qed.

Lemma same_outside_heap S r w w' : heap w' = heap w -> same_outside S r w w'.
Proof. intros H. unfold same_outside, frame_of. rewrite H. by repeat split. Qed.

Lemma paints_within_ret S r {A} (a : A) : paints_within S r (ret a).
Proof. intros w. apply same_outside_refl. Qed.

Lemma paints_within_bind S r {A B} (m : M A) (k : A -> M B) :
  paints_within S r m -> (forall a, paints_within S r (k a)) ->
  paints_within S r (bind m k).
Proof.
  intros Hm Hk w. unfold bind. specialize (Hm w).
  destruct (m w) as [[a|e|] w1]; cbn [snd] in *; auto.
  eapply same_outside_trans; [exact Hm|apply Hk].
Qed.

Lemma paints_within_calculate_fps S r : paints_within S r (calculate_fps env).
Proof. intros w. rewrite calculate_fps_run. by apply same_outside_heap. Qed.

Lemma pixel_at_paint mask color f x y :
  mask (Z.of_nat x) (Z.of_nat y) = false ->
  pixel_at (paint mask color f) x y = pixel_at f x y.
Proof.
  intros Hm. unfold pixel_at, paint. rewrite list_lookup_imap.
  destruct (f !! y) as [row|]; [|done]. cbn.
  rewrite list_lookup_imap. destruct (row !! x) as [p|]; [|done]. cbn.
  by rewrite Hm.
Qed.

Lemma same_outside_paint_at (S : nat -> nat -> Prop) r mask color w :
  (forall x y, mask (Z.of_nat x) (Z.of_nat y) = true -> S x y) ->
  same_outside S r w (paint_at r mask color w).
Proof.
  intros Hsub. unfold paint_at, same_outside. cbn [heap set_heap].
  split; [by rewrite length_insert|]. split.
  - intros r' Hr. by rewrite list_lookup_insert_ne.
  - intros x y Hxy. unfold frame_of at 1. cbn [heap set_heap].
    destruct (decide (r < length (heap w))) as [Hlt|Hge].
    + rewrite list_lookup_insert_eq by done. cbn. apply pixel_at_paint.
      destruct (mask _ _) eqn:E; [|done]. destruct Hxy. by apply Hsub.
    + rewrite list_insert_ge by lia. done.
Qed.

Lemma paints_within_rectangle (S : nat -> nat -> Prop) r p1 p2 color t :
  (forall x y, rect_mask env p1 p2 t (Z.of_nat x) (Z.of_nat y) = true -> S x y) ->
  paints_within S r (cv2_rectangle env r p1 p2 color t).
Proof.
  intros Hsub w. unfold cv2_rectangle.
  destruct (rectangle_raises _ _ _ _); [apply same_outside_refl|].
  by apply same_outside_paint_at.
Qed.

Lemma paints_within_putText (S : nat -> nat -> Prop) r s org sc color t :
  (forall x y, text_mask env s org sc t (Z.of_nat x) (Z.of_nat y) = true -> S x y) ->
  paints_within S r (cv2_putText env r s org sc color t).
Proof.
  intros Hsub w. unfold cv2_putText.
  destruct (putText_raises _ _ _ _); [apply same_outside_refl|].
  by apply same_outside_paint_at.
Qed.

Lemma paints_within_draw_faces (S : nat -> nat -> Prop) r faces color :
  (forall fb x y, fb ∈ faces -> face_region env fb (Z.of_nat x) (Z.of_nat y) = true -> S x y) ->
  paints_within S r (draw_faces env r faces color).
Proof.
  induction faces as [|[[[fx fy] fw] fh] rest IH]; intros Hsub.
  - apply paints_within_ret.
  - cbn [draw_faces]. apply paints_within_bind; [|intros _; apply paints_within_bind].
    + apply paints_within_rectangle. intros x y Hm.
      apply (Hsub (fx, fy, fw, fh)); [by left|]. cbn. by rewrite Hm.
    + apply paints_within_putText. intros x y Hm.
      apply (Hsub (fx, fy, fw, fh)); [by left|]. cbn. rewrite Hm. by rewrite orb_true_r.
    + intros _. apply IH. intros fb x y Hin. apply Hsub. by right.
Qed.

(** C8: detect_faces_frame returns the array it was given, allocates no
    array and leaves every other array as it was; in the array itself every
    pixel outside the rectangle and label of each detected box, the face-count
    text at (10, 30) and the FPS text at (10, 70) keeps its value. *)
Theorem annotation_paints_only_regions r fc sf mn c w :
  let w' := (detect_faces_frame env (Some r) fc sf mn c w).2 in
  (exists n, (detect_faces_frame env (Some r) fc sf mn c w).1 = Ret (Some r, n))
  /\ length (heap w') = length (heap w)
  /\ (forall r', r' <> r -> heap w' !! r' = heap w !! r')
  /\ (forall x y,
        ~ annotated env (detected_faces fc sf mn w r) x y ->
        pixel_at (frame_of w' r) x y = pixel_at (frame_of w r) x y).
Proof.
  intros w'. split; [apply detect_faces_frame_run|].
  change (same_outside (annotated env (detected_faces fc sf mn w r)) r w w').
  subst w'. destruct (detect_faces_frame_run (Some r) fc sf mn c w) as [-> _].
  destruct (decide (frame_size w (Some r) = 0)) as [Hz|Hz].
  { rewrite detect_faces_try_invalid by done. by apply same_outside_heap. }
  rewrite detect_faces_try_valid by done. unfold detect_and_draw.
  erewrite bind_run; cycle 1.
  { unfold cvtColor_BGR2GRAY. unfold frame_size in Hz.
    apply Nat.eqb_neq in Hz. by rewrite Hz. }
  unfold bind at 1, detectMultiScale, detected_faces.
  destruct (cc_detect _ _ _ _ _) as [m|faces]; [by apply same_outside_heap|].
  set (S := annotated env faces).
  match goal with
  | |- context [?k (emit ?e w)] =>
      assert (Hk : paints_within S r k);
      [|specialize (Hk (emit e w));
        destruct (k (emit e w)) as [[a|e'|] w2]; cbn [snd] in *]
  end.
  - apply paints_within_bind; [|intros _; apply paints_within_bind;
      [|intros _; apply paints_within_bind;
        [|intros k; apply paints_within_bind; [|intros _; apply paints_within_ret]]]].
    + apply paints_within_draw_faces. intros fb x y Hin Hr. left. eauto.
    + apply paints_within_putText. intros x y Hm. right. by left.
    + apply paints_within_calculate_fps.
    + apply paints_within_putText. intros x y Hm. right. right. eauto.
  - eapply same_outside_trans; [by apply same_outside_heap|exact Hk].
  - eapply same_outside_trans; [|by apply same_outside_heap].
    eapply same_outside_trans; [by apply same_outside_heap|exact Hk].
  - eapply same_outside_trans; [by apply same_outside_heap|exact Hk].
Qed.

(** ** The detector resource *)

Lemma loads_app t1 t2 : loads (t1 ++ t2) = loads t1 + loads t2.
Proof.
  induction t1 as [|e t1 IH]; [done|]. destruct e; simpl; rewrite ?IH; done.
Qed.

Ltac load_crush :=
  unfold load_cascade_classifier_body, urlretrieve, CascadeClassifier, st_info,
    st_success, st_error, st_stop, bind, try_except, get, log, modify, raise, ret;
  cbn;
  repeat (case_match; simplify_eq/=; try done).

Lemma load_body_spec w :
  let r := (load_cascade_classifier_body env w).1 in
  let w' := (load_cascade_classifier_body env w).2 in
  cache w' = cache w
  /\ loads (trace w') = S (loads (trace w))
  /\ match r with
     | Ret c => cc_empty c = false
     | Raise e => e = StopException
     | OutOfFuel => False
     end.
Proof.
  cbv zeta. load_crush; rewrite ?loads_app; cbn; repeat split; try lia; try done.
Qed.

Lemma load_body_fails w :
  fetch_fails env w \/ model_invalid env w ->
  (load_cascade_classifier_body env w).1 = Raise StopException.
Proof.
  pose proof (load_body_spec w) as (_&_&Hr). cbv zeta in Hr.
  intros [(Hf&m&[Hm|Hm])|(file&[Hf|[Hf Hm]]&Hbad)];
    destruct (load_cascade_classifier_body env w) as [[c|e|] w'] eqn:E;
    cbn [fst] in *; try done; try (by subst e); exfalso; revert E;
    unfold load_cascade_classifier_body, urlretrieve, CascadeClassifier, st_info,
      st_success, st_error, st_stop, bind, try_except, get, log, modify, raise, ret;
    cbn; rewrite Hf; cbn; rewrite ?Hm; cbn;
    repeat (case_match; simplify_eq/=; try done); congruence.
Qed.

Lemma load_cached c w : cache w = Some c -> load_cascade_classifier env w = (Ret c, w).
Proof.
  intros H. unfold load_cascade_classifier, cache_resource.
  erewrite bind_run by (unfold get; reflexivity). by rewrite H.
Qed.

Lemma load_uncached w :
  cache w = None ->
  load_cascade_classifier env w =
  match load_cascade_classifier_body env w with
  | (Ret c, w') => (Ret c, set_cache (Some c) w')
  | r => r
  end.
Proof.
  intros H. unfold load_cascade_classifier, cache_resource.
  erewrite bind_run by (unfold get; reflexivity). rewrite H.
  unfold bind at 1. by destruct (load_cascade_classifier_body env w) as [[c|e|] w'].
Qed.

Lemma main_load_failure fuel ui w :
  (load_cascade_classifier env (set_main_cap None w)).1 = Raise StopException ->
  (main env fuel ui w).1 = Raise StopException
  /\ caps (main env fuel ui w).2 = caps w.
Proof.
  intros Hl. unfold main. erewrite bind_run by (unfold modify; reflexivity).
  pose proof (camless_load_cascade_classifier (set_main_cap None w)) as (Hc&_&Hm&_).
  destruct (load_cascade_classifier env (set_main_cap None w)) as [r w2] eqn:E.
  cbn [fst snd] in *. subst r.
  assert (Ht : main_try env fuel ui (set_main_cap None w) = (Raise StopException, w2)).
  { unfold main_try. by erewrite bind_raise by exact E. }
  unfold main_guard, try_finally, try_except. rewrite Ht. cbn [is_Exception].
  unfold main_finally. erewrite bind_run by (unfold get; reflexivity).
  rewrite Hm. cbn [main_cap set_main_cap].
  erewrite bind_run by reflexivity. cbn. by rewrite Hc.
Qed.

(** C7 (amended): a call of load_cascade_classifier executes the loader body
    at most once and, when the cache is filled, not at all: it returns the
    cached detector and changes nothing, so after a successful call every
    later call does; what it returns is never an empty detector; it stops the
    script when the download fails or the model is empty or invalid, and that
    stop ends main at once, before any camera is touched; a failed call
    leaves the cache as it was, so the next run of the script loads again. *)
Theorem load_cascade_classifier_cached w :
  let r := (load_cascade_classifier env w).1 in
  let w' := (load_cascade_classifier env w).2 in
  loads (trace w') <= S (loads (trace w))
  /\ (forall c, cache w = Some c -> load_cascade_classifier env w = (Ret c, w))
  /\ (forall c, r = Ret c -> load_cascade_classifier env w' = (Ret c, w'))
  /\ (cache_ok w ->
      match r with
      | Ret c => cc_empty c = false /\ cache_ok w'
      | Raise e => e = StopException /\ cache w' = cache w
      | OutOfFuel => False
      end)
  /\ (cache w = None -> fetch_fails env w \/ model_invalid env w ->
      r = Raise StopException)
  /\ (forall fuel ui,
        (load_cascade_classifier env (set_main_cap None w)).1 = Raise StopException ->
        (main env fuel ui w).1 = Raise StopException
        /\ caps (main env fuel ui w).2 = caps w).
Proof.
  cbv zeta. split; [|split; [|split; [|split; [|split]]]].
  6: { intros fuel ui. apply main_load_failure. }
  all: destruct (cache w) as [c0|] eqn:Hc.
  all: try (rewrite (load_cached c0 w Hc); cbn [fst snd]).
  all: try (rewrite (load_uncached w Hc);
            pose proof (load_body_spec w) as (Hk&Hl&Hr);
            pose proof (load_body_fails w) as Hf; cbv zeta in *;
            destruct (load_cascade_classifier_body env w) as [[c|e|] w1] eqn:E;
            cbn [fst snd] in *; try done).
  - lia.
  - cbn. lia.
  - lia.
  - by intros c [= <-].
  - intros c [= <-]. by apply load_cached.
  - intros c' [= <-]. by apply load_cached.
  - intros Hok. split; [by apply Hok|done].
  - intros _. split; [done|]. by intros c' [= <-].
  - intros _. split; [done|congruence].
  - done.
Qed.

(** ** Sequences of open and close *)

Lemma count_open_le_1 (l : list bool) :
  (forall i j, l !! i = Some true -> l !! j = Some true -> i = j) ->
  count_open l <= 1.
Proof.
  induction l as [|b l IH]; intros H; [cbn; lia|].
  unfold count_open in *. destruct b.
  - rewrite filter_cons_True by done. cbn.
    assert (Hz : count_open l = 0).
    { apply count_open_zero. intros h. destruct (l !! h) as [[]|] eqn:E; [|done|done].
      by specialize (H 0 (S h) eq_refl E). }
    unfold count_open in Hz. lia.
  - rewrite filter_cons_False by done. apply IH.
    intros i j Hi Hj. specialize (H (S i) (S j) Hi Hj). lia.
Qed.

Lemma held_count_open w : held 0 w -> count_open (caps w) <= 1.
Proof.
  intros Hh. apply count_open_le_1. intros i j Hi Hj.
  assert (Hi' : is_opened w i = true) by (unfold is_opened; by rewrite Hi).
  assert (Hj' : is_opened w j = true) by (unfold is_opened; by rewrite Hj).
  pose proof (Hh i (Nat.le_0_l _) Hi'). pose proof (Hh j (Nat.le_0_l _) Hj').
  congruence.
Qed.

Lemma dev_close_spec w :
  held 0 w ->
  exists w', dev_step env DevClose w = (Ret tt, w')
    /\ closed_from 0 w' /\ peak_open w' = peak_open w.
Proof.
  intros Hh. unfold dev_step.
  erewrite bind_run by (unfold get; reflexivity).
  destruct (safe_camera_release_run (main_cap w) w) as (w'&E&_&Hp&_&Hop).
  exists w'. split; [done|]. split; [|done].
  intros h _. rewrite Hop. case_decide; [done|].
  destruct (is_opened w h) eqn:Ho; [|done].
  by specialize (Hh h (Nat.le_0_l _) Ho).
Qed.

Lemma dev_open_spec w :
  closed_from 0 w -> peak_open w <= 1 ->
  exists w', dev_step env DevOpen w = (Ret tt, w')
    /\ held 0 w' /\ peak_open w' <= 1.
Proof.
  intros Hcl Hp. unfold dev_step.
  destruct (initialize_camera_spec 0 w Hcl) as (r&w1&E&Hm&_&Hpk&Hr).
  rewrite E. specialize (Hpk eq_refl Hp).
  destruct r as [c|e|]; [| |done].
  - eexists. split; [reflexivity|]. split; [|done].
    destruct Hr as (_&Ho&_). intros h Hb Hop.
    cbn [main_cap set_main_cap]. f_equal. symmetry. by apply Ho.
  - eexists. split; [reflexivity|]. split; [|done]. apply closed_held, Hr.
Qed.

Lemma dev_run_spec ops : forall after_open w,
  disciplined after_open ops = true ->
  held 0 w -> peak_open w <= 1 -> (after_open = false -> closed_from 0 w) ->
  exists w', dev_run env ops w = (Ret tt, w') /\ held 0 w' /\ peak_open w' <= 1.
Proof.
  induction ops as [|op rest IH]; intros ao w Hd Hh Hp Hcl.
  - exists w. done.
  - cbn [dev_run]. destruct op; cbn [disciplined] in Hd.
    + apply andb_true_iff in Hd as [Hao Hd]. apply negb_true_iff in Hao.
      destruct (dev_open_spec w (Hcl Hao) Hp) as (w1&E1&Hh1&Hp1).
      erewrite bind_run by exact E1. by apply (IH true).
    + destruct (dev_close_spec w Hh) as (w1&E1&Hc1&Hp1).
      erewrite bind_run by exact E1.
      apply (IH false); [done|by apply closed_held|lia|done].
Qed.

(** C6 (amended): safe_camera_release never raises; on None and on a handle
    that is not open it does nothing at all; on an open handle it closes that
    handle and no other; done twice it does what it does once.  Along any
    sequence of open() and close() in which no open() directly follows an
    open(), started with every handle closed, never more than one handle is
    open at a time, and a final close() leaves none open. *)
Theorem safe_camera_release_idempotent :
  (forall w, safe_camera_release None w = (Ret tt, w))
  /\ (forall h w, is_opened w h = false -> safe_camera_release (Some h) w = (Ret tt, w))
  /\ (forall c w,
        (safe_camera_release c w).1 = Ret tt
        /\ forall h, is_opened (safe_camera_release c w).2 h =
                     if decide (c = Some h) then false else is_opened w h)
  /\ (forall c w,
        safe_camera_release c (safe_camera_release c w).2 =
        (Ret tt, (safe_camera_release c w).2))
  /\ (forall ops w,
        disciplined false ops = true ->
        closed_from 0 w -> peak_open w <= 1 ->
        let w' := (dev_run env ops w).2 in
        peak_open w' <= 1
        /\ count_open (caps w') <= 1
        /\ count_open (caps (dev_step env DevClose w').2) = 0
        /\ peak_open (dev_step env DevClose w').2 <= 1).
Proof.
  split; [done|]. split; [apply safe_camera_release_closed|]. split; [|split].
  - intros c w. destruct (safe_camera_release_run c w) as (w'&->&_&_&_&H). done.
  - intros c w. destruct c as [h|]; [|done].
    destruct (safe_camera_release_run (Some h) w) as (w'&E&_&_&_&H).
    rewrite E. cbn [snd]. apply safe_camera_release_closed.
    rewrite H. by case_decide.
  - intros ops w Hd Hcl Hp w'.
    destruct (dev_run_spec ops false w Hd (closed_held _ _ Hcl) Hp (fun _ => Hcl))
      as (w1&E&Hh&Hp1).
    subst w'. rewrite E. cbn [snd].
    destruct (dev_close_spec w1 Hh) as (w2&E2&Hc2&Hp2). rewrite E2. cbn [snd].
    split; [done|]. split; [by apply held_count_open|].
    split; [by apply closed_count_open|lia].
Qed.

(** * Further properties *)

(** ** Opening the camera *)

Lemma cap_read_check h w :
  is_opened w h = true ->
  exists r w1, cap_read env h w = (Ret r, w1)
    /\ r.1 && bool_decide (is_Some r.2) && bool_decide (0 < frame_size w1 r.2)
       = frame_ok (read_script env (n_read w))
    /\ trace w1 = trace w ++ [EvRead h]
    /\ n_read w1 = S (n_read w)
    /\ cam_eq w w1.
Proof.
  intros Ho. unfold cap_read. rewrite Ho. unfold frame_ok.
  destruct (read_script env (n_read w)) as [r [f|]]; cbn [fst snd].
  - eexists _, _. split; [reflexivity|]. cbn [fst snd].
    split; [|repeat split; by apply prefix_app_r].
    unfold frame_size.
    change (frame_of _ (length (heap w))) with
      (frame_of (set_heap (heap w ++ [f]) w) (length (heap w))).
    rewrite frame_of_alloc. destruct r; [|done]. rewrite !andb_true_l.
    destruct (0 <? fsize f) eqn:E.
    + apply Nat.ltb_lt in E. by apply bool_decide_eq_true.
    + apply Nat.ltb_ge in E. apply bool_decide_eq_false. lia.
  - eexists _, _. split; [reflexivity|]. cbn [fst snd].
    split; [by destruct r|repeat split; by apply prefix_app_r].
Qed.

Lemma validate_first n h w :
  is_opened w h = true ->
  exists w', cam_eq w w'
    /\ match first_valid env n (n_read w) with
       | Some k =>
           validate env n h w = (Ret h, w')
           /\ n_read w' = n_read w + S k
           /\ read_attempts (trace w') = read_attempts (trace w) + S k
       | None =>
           validate env n h w =
             (Raise (RuntimeError "La caméra ne produit pas d'images valides"), w')
           /\ n_read w' = n_read w + n
           /\ read_attempts (trace w') = read_attempts (trace w) + n
       end.
Proof.
  revert w. induction n as [|n IH]; intros w Ho.
  - exists w. split; [apply cam_eq_refl|]. cbn. repeat split; lia.
  - destruct (cap_read_check h w Ho) as (r&w1&E1&Hchk&Ht1&Hn1&Hce1).
    cbn [validate first_valid]. erewrite bind_run by exact E1.
    erewrite bind_run by (unfold get; reflexivity). rewrite Hchk.
    destruct (frame_ok (read_script env (n_read w))).
    + erewrite bind_run by (unfold st_success, log, modify; reflexivity).
      eexists. split; [|split; [reflexivity|]].
      * by apply cam_eq_trans with w1; [|apply cam_eq_emit].
      * cbn [n_read trace emit]. rewrite Hn1, Ht1, !read_attempts_app. cbn. lia.
    + erewrite bind_run by (unfold time_sleep, log, modify; reflexivity).
      destruct (IH (emit (EvSleep (1 # 2)) w1)) as (w'&Hce&H).
      { change (is_opened w1 h = true). by rewrite (cam_eq_is_opened _ _ _ Hce1). }
      exists w'. split.
      { eapply cam_eq_trans; [exact Hce1|].
        eapply cam_eq_trans; [apply cam_eq_emit|exact Hce]. }
      cbn [n_read trace emit] in H. rewrite Hn1, Ht1, !read_attempts_app in H.
      cbn in H. destruct (first_valid env n (S (n_read w))) as [k|]; cbn [fmap option_fmap option_map];
        destruct H as (->&H2&H3); repeat split; lia.
Qed.

Lemma stale_step_old n i w :
  n <= length (caps w) ->
  forall h, h < n -> is_opened (stale_step env i w) h = is_opened w h.
Proof.
  intros Hn h Hh. unfold stale_step.
  destruct (VideoCapture_run i w) as (w1&E1&Hc1&_). rewrite E1. cbn [snd].
  destruct (safe_camera_release_run (Some (length (caps w))) w1) as (w2&E2&_&_&_&Hop).
  rewrite E2. cbn [snd]. rewrite Hop.
  case_decide as Hd; [injection Hd as Hd; lia|].
  apply (is_opened_app_old _ _ _ _ Hc1). lia.
Qed.

Lemma release_stale_old n idxs : forall w,
  n <= length (caps w) ->
  forall h, h < n -> is_opened (release_stale env idxs w).2 h = is_opened w h.
Proof.
  induction idxs as [|i rest IH]; intros w Hn h Hh; [done|].
  rewrite release_stale_cons.
  destruct (stale_step_spec (length (caps w)) i w (closed_out_of_range w)) as (_&Hl&_).
  rewrite IH; [by apply (stale_step_old n)|rewrite Hl; lia|done].
Qed.

Lemma pre_open_old n w :
  n <= length (caps w) ->
  forall h, h < n -> is_opened (pre_open env w) h = is_opened w h.
Proof.
  intros Hn h Hh. unfold pre_open.
  change (is_opened (emit ?e ?w0) h) with (is_opened w0 h).
  by rewrite (release_stale_old n).
Qed.

(** The outcome of a call of [initialize_camera], read off the driver. *)
Lemma initialize_camera_cases w :
  let h := length (caps w) + 5 in
  exists w', initialize_camera env w =
               (match open_script env h 0, first_valid env 3 (n_read w) with
                | true, Some _ => Ret h
                | _, _ => Raise StopException
                end, w')
    /\ (forall x, x < length (caps w) -> is_opened w' x = is_opened w x)
    /\ (open_script env h 0 = true ->
        read_attempts (trace w') = read_attempts (trace w) +
          match first_valid env 3 (n_read w) with Some k => S k | None => 3 end
        /\ n_read w' = n_read w +
          match first_valid env 3 (n_read w) with Some k => S k | None => 3 end)
    /\ (open_script env h 0 = false ->
        read_attempts (trace w') = read_attempts (trace w) /\ n_read w' = n_read w).
Proof.
  intros h. subst h. rewrite initialize_camera_unfold. cbv zeta.
  destruct (pre_open_spec _ w (closed_out_of_range w)) as (_&Hl3&_&Hn3&Hra3&_).
  pose proof (pre_open_old (length (caps w)) w (Nat.le_refl _)) as Hold3.
  remember (pre_open env w) as w3 eqn:Ew3. clear Ew3.
  destruct (VideoCapture_run 0 w3) as (w4&E4&Hc4&_&_&ok&Ht4).
  rewrite E4. cbn [snd].
  pose proof (is_opened_app_new _ _ _ Hc4) as Ho4.
  assert (Hold4 : forall x, x < length (caps w) -> is_opened w4 x = is_opened w x).
  { intros x Hx. rewrite (is_opened_app_old _ _ _ _ Hc4) by lia. by apply Hold3. }
  assert (Hn4 : n_read w4 = n_read w) by (by inversion E4).
  rewrite Hl3 in Ho4, Ht4 |- *. clear Hc4 E4.
  remember (length (caps w) + 5) as h eqn:Eh.
  unfold try_except, open_and_validate.
  erewrite bind_run by (unfold cap_isOpened, get; reflexivity).
  rewrite Ho4. destruct (open_script env h 0) eqn:Hopen; cbn [negb].
  - erewrite bind_run by (unfold cap_set, log, modify; reflexivity).
    erewrite bind_run by (unfold cap_set, log, modify; reflexivity).
    set (w5 := emit (EvSet h "CAP_PROP_FRAME_HEIGHT" 480)
                 (emit (EvSet h "CAP_PROP_FRAME_WIDTH" 640) w4)).
    destruct (validate_first 3 h w5 Ho4) as (w6&Hce6&H6).
    change (n_read w5) with (n_read w4) in H6. rewrite Hn4 in H6.
    assert (Ht5 : read_attempts (trace w5) = read_attempts (trace w)).
    { cbn [trace emit w5]. rewrite Ht4, !read_attempts_app, Hra3. cbn. lia. }
    rewrite Ht5 in H6.
    assert (Hold6 : forall x, x < length (caps w) -> is_opened w6 x = is_opened w x).
    { intros x Hx. rewrite (cam_eq_is_opened _ _ _ Hce6). by apply Hold4. }
    destruct (first_valid env 3 (n_read w)) as [k|]; destruct H6 as (->&H2&H3).
    + exists w6. split; [done|]. split; [done|]. split; [done|done].
    + cbn [is_Exception].
      assert (Ho6 : is_opened w6 h = true) by by rewrite (cam_eq_is_opened _ _ _ Hce6).
      erewrite bind_run by (by apply safe_camera_release_open).
      erewrite bind_run by (unfold st_error, log, modify; reflexivity).
      eexists. split; [reflexivity|]. split; [|split; [intros _|done]].
      * intros x Hx. unfold is_opened. cbn [caps emit set_caps].
        rewrite is_opened_insert. case_decide; [lia|]. by apply Hold6.
      * cbn [trace emit set_caps n_read]. rewrite !read_attempts_app. cbn. lia.
  - unfold raise at 1. cbn [is_Exception].
    erewrite bind_run by (by apply safe_camera_release_closed).
    erewrite bind_run by (unfold st_error, log, modify; reflexivity).
    eexists. split; [reflexivity|]. split; [done|]. split; [done|intros _].
    cbn [trace emit n_read]. rewrite Ht4, !read_attempts_app, Hra3. cbn. lia.
Qed.

(** X1: initialize_camera returns a handle exactly when device 0 opens and
    one of the first three reads delivers a non-empty frame; the handle is
    then the sixth capture object the call built, it is open, and the call
    read just up to the first usable frame. *)
Theorem initialize_camera_succeeds_iff w :
  let h := length (caps w) + 5 in
  let w' := (initialize_camera env w).2 in
  ((exists c, (initialize_camera env w).1 = Ret c)
   <-> open_script env h 0 = true /\ is_Some (first_valid env 3 (n_read w)))
  /\ (forall c, (initialize_camera env w).1 = Ret c ->
        c = h /\ is_opened w' h = true
        /\ exists k, first_valid env 3 (n_read w) = Some k /\ k < 3
             /\ frame_ok (read_script env (n_read w + k)) = true
             /\ read_attempts (trace w') = read_attempts (trace w) + S k
             /\ n_read w' = n_read w + S k).
Proof.
  intros h w'. destruct (initialize_camera_cases w) as (wf&E&_&Hr&_). fold h in E, Hr.
  destruct (initialize_camera_spec _ w (closed_out_of_range w)) as (r&w2&E'&_&_&_&Hs).
  assert (Hfv : forall n s k, first_valid env n s = Some k ->
            k < n /\ frame_ok (read_script env (s + k)) = true).
  { induction n as [|n IH]; intros s k; [done|]. cbn [first_valid].
    destruct (frame_ok (read_script env s)) eqn:Ek.
    - intros [= <-]. rewrite Nat.add_0_r. split; [lia|done].
    - destruct (first_valid env n (S s)) as [k'|] eqn:E1; [|done].
      intros [= <-]. destruct (IH _ _ E1) as [H1 H2].
      split; [lia|]. by replace (s + S k') with (S s + k') by lia. }
  subst w'.
  destruct (open_script env h 0) eqn:Ho;
    destruct (first_valid env 3 (n_read w)) as [k|] eqn:Ef;
    rewrite E in E' |- *; cbn [fst snd]; injection E' as <- <-.
  - split; [split; [eauto|intros _; by exists h]|].
    intros c [= <-]. destruct Hs as (_&_&Hop). split; [done|]. split; [done|].
    exists k. destruct (Hfv _ _ _ Ef) as [H1 H2]. destruct (Hr eq_refl) as [H3 H4].
    done.
  - split; [split; [by intros [c [=]]|intros [_ [x [=]]]]|by intros c [=]].
  - split; [split; [by intros [c [=]]|by intros [[=] _]]|by intros c [=]].
  - split; [split; [by intros [c [=]]|by intros [[=] _]]|by intros c [=]].
Qed.

(** X2: every call of initialize_camera builds exactly six capture objects
    (five probes and the one for device 0); it leaves the five probes closed,
    does not touch any capture object that existed before the call, open or
    not, and does not touch the caller's variable. *)
Theorem initialize_camera_builds_six w :
  let w' := (initialize_camera env w).2 in
  length (caps w') = length (caps w) + 6
  /\ (forall i, i < 5 -> is_opened w' (length (caps w) + i) = false)
  /\ (forall x, x < length (caps w) -> is_opened w' x = is_opened w x)
  /\ main_cap w' = main_cap w.
Proof.
  intros w'. destruct (initialize_camera_cases w) as (wf&E&Hold&_).
  destruct (initialize_camera_spec _ w (closed_out_of_range w)) as (r&w2&E'&Hm&Hl&_&Hs).
  subst w'. rewrite E in E' |- *. cbn [snd].
  destruct (open_script env (length (caps w) + 5) 0);
    destruct (first_valid env 3 (n_read w)); injection E' as <- <-;
    (split; [done|]); (split; [|done]); intros i Hi; try (apply Hs; lia).
  destruct Hs as (_&Ho&_).
  destruct (is_opened wf (length (caps w) + i)) eqn:Hop; [|done].
  apply Ho in Hop; lia.
Qed.

(** ** The loop and main *)

Lemma closing_run h w :
  main_cap (closing h w) = main_cap w
  /\ length (caps (closing h w)) = length (caps w)
  /\ forall x, is_opened (closing h w) x = if decide (x = h) then false else is_opened w x.
Proof.
  unfold closing. set (w1 := emit _ w).
  destruct (safe_camera_release_run (Some h) w1) as (w2&E2&Hm&_&Hl&Hop).
  rewrite E2. cbn [snd]. split; [done|]. split; [done|].
  intros x. change (is_opened w2 x = if decide (x = h) then false else is_opened w1 x).
  rewrite Hop. repeat case_decide; naive_solver.
Qed.

Lemma after_read_cam h w : cam_eq w (after_read env h w).
Proof. pose proof (camless_cap_read h w) as Hc. by rewrite cap_read_run in Hc. Qed.

(** X3: when a read fails and the reopen succeeds, the iteration ends
    normally with the new handle bound to cap and open, the old handle
    closed, and the loop goes on from there (Recovering to Running). *)
Theorem recovery_resumes ui fc w h c w1 :
  main_cap w = Some h ->
  h < length (caps w) ->
  read_bad env h w = true ->
  initialize_camera env (closing h (after_read env h w)) = (Ret c, w1) ->
  loop_body env ui fc w = (Ret tt, set_main_cap (Some c) w1)
  /\ (forall k, capture_loop env (S k) ui fc w =
                capture_loop env k ui fc (set_main_cap (Some c) w1))
  /\ c = length (caps w) + 5
  /\ is_opened (set_main_cap (Some c) w1) c = true
  /\ is_opened (set_main_cap (Some c) w1) h = false.
Proof.
  intros Hm Hh Hb E.
  assert (Hl : loop_body env ui fc w = (Ret tt, set_main_cap (Some c) w1)).
  { rewrite (loop_body_bad _ _ _ _ Hm Hb). unfold recover.
    erewrite bind_run by (rewrite reopen_run; exact E). done. }
  split; [done|]. split; [intros k; by rewrite capture_loop_S, Hl|].
  destruct (closing_run h (after_read env h w)) as (_&Hlen&Hop).
  destruct (after_read_cam h w) as (Hc&_).
  destruct (initialize_camera_spec _ _ (closed_out_of_range (closing h (after_read env h w))))
    as (r&w'&E'&_&_&_&Hr).
  destruct (initialize_camera_cases (closing h (after_read env h w))) as (wf&Ec&H3&_).
  rewrite E in E', Ec. injection E' as <- <-. injection Ec as _ <-.
  destruct Hr as (->&_&Ho). rewrite Hlen, Hc in *.
  split; [done|]. split; [exact Ho|].
  change (is_opened w1 h = false). rewrite H3 by done. rewrite Hop. by case_decide.
Qed.

(** X6: with the button not pressed main still acquires the camera: it
    loads the detector, opens and validates the camera, reads no further
    frame, releases the handle in the [finally] block and returns. *)
Theorem idle_run_opens_and_releases fuel ui w fc w1 c w2 :
  load_cascade_classifier env (set_main_cap None w) = (Ret fc, w1) ->
  initialize_camera env w1 = (Ret c, w2) ->
  run ui = false ->
  (main env fuel ui w).1 = Ret tt
  /\ trace (main env fuel ui w).2 =
     trace w2 ++ [EvRelease c; EvSleep (1 # 10); EvInfo "Ressources libérées"]
  /\ is_opened w2 c = true
  /\ is_opened (main env fuel ui w).2 c = false.
Proof.
  intros El Ei Hrun. unfold main.
  erewrite bind_run by (unfold modify; reflexivity).
  destruct (initialize_camera_spec _ w1 (closed_out_of_range w1)) as (r&w'&E'&_&_&_&Hr).
  rewrite Ei in E'. injection E' as <- <-. destruct Hr as (_&_&Ho).
  assert (Ht : main_try env fuel ui (set_main_cap None w) =
               (Ret tt, set_main_cap (Some c) w2)).
  { unfold main_try. erewrite bind_run by exact El. erewrite bind_run by exact Ei.
    erewrite bind_run by (unfold modify; reflexivity). by rewrite Hrun. }
  unfold main_guard, try_finally, try_except. rewrite Ht.
  unfold main_finally. erewrite bind_run by (unfold get; reflexivity).
  cbn [main_cap set_main_cap].
  erewrite bind_run by (by apply safe_camera_release_open).
  cbn [st_info log modify fst snd trace emit set_caps set_main_cap].
  split; [done|]. split; [by rewrite <- !app_assoc|]. split; [done|].
  unfold is_opened. cbn [caps emit set_caps set_main_cap]. rewrite is_opened_insert.
  by case_decide.
Qed.

(** ** The frame rate *)

Lemma py_int_inv_small_neg q : (q < -1)%Q -> py_int (1 / q) = 0%Z.
Proof.
  destruct q as [a b]. unfold Qlt. cbn. intros H.
  destruct a as [|p|p]; try lia.
  unfold py_int, Qdiv, Qmult, Qinv. cbn [Qnum Qden Z.mul Pos.mul].
  pose proof (Z.quot_opp_l (Z.pos b) (Z.pos p) ltac:(lia)) as Hq.
  rewrite (Z.quot_small (Z.pos b) (Z.pos p)) in Hq by lia.
  rewrite Z.mul_1_l, Pos.mul_1_l. exact Hq.
Qed.

(** X8: frames that are two seconds or more apart show a rate of 0.  If
    two seconds or more have passed since the last frame, calculate_fps
    records a rate between 0 and 1/2 and returns 0; if the clock has stepped
    back by two seconds or more, nothing guards the division: it records a
    rate between -1/2 and 0 and returns 0 as well, since [int] truncates
    toward zero. *)
Theorem calculate_fps_two_seconds_apart w :
  let dt := (clock env (n_clock w) - prev_frame_time w)%Q in
  let w' := (calculate_fps env w).2 in
  ((2 <= dt)%Q ->
   (calculate_fps env w).1 = Ret 0%Z /\ (0 <= fps w')%Q /\ (fps w' <= 1 # 2)%Q)
  /\ ((dt <= -2)%Q ->
      (calculate_fps env w).1 = Ret 0%Z /\ (- (1 # 2) <= fps w')%Q /\ (fps w' <= 0)%Q).
Proof.
  intros dt. rewrite calculate_fps_run. cbv zeta. fold dt.
  cbn [fst snd fps set_prev_frame_time set_fps].
  assert (Hnz : ~ (dt == 0)%Q -> Qeq_bool dt 0 = false).
  { intros H. destruct (Qeq_bool dt 0) eqn:E; [|done]. by apply Qeq_bool_iff in E. }
  split; intros H; rewrite Hnz by lra.
  - split; [rewrite py_int_inv_small; [done|lra]|].
    destruct dt as [a b]. unfold Qlt, Qle, Qdiv, Qmult, Qinv in *. cbn in *.
    destruct a as [|p|p]; cbn; lia.
  - split; [rewrite py_int_inv_small_neg; [done|lra]|].
    destruct dt as [a b]. unfold Qlt, Qle, Qdiv, Qmult, Qinv, Qopp in *. cbn in *.
    destruct a as [|p|p]; cbn; lia.
Qed.

(** ** Counting faces *)

Lemma paint_at_clock r mask c w :
  n_clock (paint_at r mask c w) = n_clock w
  /\ prev_frame_time (paint_at r mask c w) = prev_frame_time w
  /\ fps (paint_at r mask c w) = fps w
  /\ trace (paint_at r mask c w) = trace w.
Proof. done. Qed.

Lemma draw_faces_ok r faces c :
  (forall f p1 p2, rectangle_raises env f p1 p2 = false) ->
  (forall f s o, putText_raises env f s o = false) ->
  forall w, exists w1, draw_faces env r faces c w = (Ret tt, w1)
    /\ n_clock w1 = n_clock w /\ prev_frame_time w1 = prev_frame_time w
    /\ trace w1 = trace w.
Proof.
  intros Hr Ht. induction faces as [|[[[fx fy] fw] fh] rest IH]; intros w.
  - by exists w.
  - cbn [draw_faces].
    erewrite bind_run by (unfold cv2_rectangle; by rewrite Hr).
    erewrite bind_run by (unfold cv2_putText; by rewrite Ht).
    destruct (IH (paint_at r (text_mask env "Visage" (fx, (fy - 10)%Z) (1 # 2) 2) c
                    (paint_at r (rect_mask env (fx, fy) ((fx + fw)%Z, (fy + fh)%Z) 2) c w)))
      as (w1&E&H1&H2&H3).
    exists w1. done.
Qed.

Lemma cvtColor_BGR2GRAY_run r w :
  frame_size w (Some r) <> 0 ->
  cvtColor_BGR2GRAY r w = (Ret (COLOR_BGR2GRAY (frame_of w r)), w).
Proof.
  intros Hsz. unfold cvtColor_BGR2GRAY. unfold frame_size in Hsz.
  apply Nat.eqb_neq in Hsz. by rewrite Hsz.
Qed.

(** X9: on a valid frame, when detection succeeds and no drawing call is
    refused, detect_faces_frame returns the number of boxes the detector
    found and reads the clock exactly once; when detection fails it returns
    0, reports the error, and neither the frame, nor the clock, nor the FPS
    globals are touched. *)
Theorem detect_faces_frame_count r fc sf mn c w :
  let w' := (detect_faces_frame env (Some r) fc sf mn c w).2 in
  frame_size w (Some r) <> 0 ->
  (forall faces,
     cc_detect fc (COLOR_BGR2GRAY (frame_of w r)) sf mn (30, 30)%Z = Detected faces ->
     (forall f p1 p2, rectangle_raises env f p1 p2 = false) ->
     (forall f s o, putText_raises env f s o = false) ->
     (detect_faces_frame env (Some r) fc sf mn c w).1 = Ret (Some r, length faces)
     /\ n_clock w' = S (n_clock w)
     /\ prev_frame_time w' = clock env (n_clock w)
     /\ trace w' = trace w ++ [EvDetect (COLOR_BGR2GRAY (frame_of w r))])
  /\ (forall m,
        cc_detect fc (COLOR_BGR2GRAY (frame_of w r)) sf mn (30, 30)%Z = DetectError m ->
        (detect_faces_frame env (Some r) fc sf mn c w).1 = Ret (Some r, 0)
        /\ heap w' = heap w /\ n_clock w' = n_clock w
        /\ prev_frame_time w' = prev_frame_time w /\ fps w' = fps w
        /\ trace w' = trace w ++ [EvDetect (COLOR_BGR2GRAY (frame_of w r));
                                  EvError ("Erreur lors de la détection: " +:+ m)]).
Proof.
  intros w' Hsz. subst w'.
  destruct (detect_faces_frame_run (Some r) fc sf mn c w) as [-> _].
  rewrite detect_faces_try_valid by done. split.
  - intros faces Hd Hr Ht.
    set (w1 := emit (EvDetect (COLOR_BGR2GRAY (frame_of w r))) w).
    destruct (draw_faces_ok r faces c Hr Ht w1) as (w2&E2&Hn2&Hp2&Ht2).
    assert (E : exists w3, detect_and_draw env r fc sf mn c w =
                  (Ret (Some r, length faces), w3)
              /\ n_clock w3 = S (n_clock w2)
              /\ prev_frame_time w3 = clock env (n_clock w2)
              /\ trace w3 = trace w2).
    { unfold detect_and_draw.
      erewrite bind_run by by apply cvtColor_BGR2GRAY_run.
      erewrite bind_run by (unfold detectMultiScale; rewrite Hd; reflexivity).
      erewrite bind_run by exact E2.
      erewrite bind_run by (unfold cv2_putText; by rewrite Ht).
      erewrite bind_run by (apply calculate_fps_run).
      erewrite bind_run by (unfold cv2_putText; by rewrite Ht).
      eexists. split; [reflexivity|]. done. }
    destruct E as (w3&->&H1&H2&H3). cbn [fst snd].
    rewrite H1, H2, H3, Hn2, Ht2. done.
  - intros m Hd.
    assert (E : detect_and_draw env r fc sf mn c w =
                (Raise (CvError m), emit (EvDetect (COLOR_BGR2GRAY (frame_of w r))) w)).
    { unfold detect_and_draw.
      erewrite bind_run by by apply cvtColor_BGR2GRAY_run.
      erewrite bind_raise by (unfold detectMultiScale; rewrite Hd; reflexivity). done. }
    rewrite E. cbn [fst snd]. repeat split. cbn [trace emit exn_str].
    by rewrite <- app_assoc.
Qed.

(** ** The camera's array *)

Lemma paints_within_try_body r fc sf mn c :
  paints_within (fun _ _ => True) r (detect_faces_try env (Some r) fc sf mn c).
Proof.
  intros w. destruct (decide (frame_size w (Some r) = 0)) as [Hz|Hz].
  { rewrite detect_faces_try_invalid by done. apply same_outside_refl. }
  rewrite detect_faces_try_valid by done. unfold detect_and_draw.
  erewrite bind_run by by apply cvtColor_BGR2GRAY_run.
  unfold bind at 1, detectMultiScale.
  destruct (cc_detect _ _ _ _ _) as [m|faces]; [by apply same_outside_heap|].
  match goal with
  | |- context [?k (emit ?e w)] =>
      assert (Hk : paints_within (fun _ _ => True) r k);
      [|specialize (Hk (emit e w));
        eapply same_outside_trans; [|exact Hk]; by apply same_outside_heap]
  end.
  apply paints_within_bind; [|intros _; apply paints_within_bind;
    [|intros _; apply paints_within_bind;
      [|intros k; apply paints_within_bind; [|intros _; apply paints_within_ret]]]].
  - by apply paints_within_draw_faces.
  - by apply paints_within_putText.
  - apply paints_within_calculate_fps.
  - by apply paints_within_putText.
Qed.

Lemma detect_faces_frame_others r fc sf mn c w :
  same_outside (fun _ _ => True) r w (detect_faces_frame env (Some r) fc sf mn c w).2.
Proof.
  destruct (detect_faces_frame_run (Some r) fc sf mn c w) as [-> _].
  pose proof (paints_within_try_body r fc sf mn c w) as H.
  destruct (detect_faces_try env (Some r) fc sf mn c w) as [[a|e|] w1]; cbn [snd] in *;
    [done| |done].
  eapply same_outside_trans; [exact H|]. by apply same_outside_heap.
Qed.

(** X10: an iteration whose read delivers the frame [f] allocates two
    arrays, the camera's and its RGB copy; the annotation and the display
    use the copy: the camera's array still holds [f] at the end of the
    iteration, and every older array is as it was. *)
Theorem camera_frame_untouched ui fc w h f :
  main_cap w = Some h ->
  is_opened w h = true ->
  read_script env (n_read w) = (true, Some f) ->
  fsize f <> 0 ->
  let w' := (loop_body env ui fc w).2 in
  length (heap w') = length (heap w) + 2
  /\ heap w' !! length (heap w) = Some f
  /\ (forall r, r < length (heap w) -> heap w' !! r = heap w !! r)
  /\ exists q n,
       [EvImage (Some (S (length (heap w)))); EvStats q n; EvSleep (1 # 100)]
         `suffix_of` trace w'.
Proof.
  intros Hm Ho Hr Hsz w'. subst w'.
  assert (Hres : read_result env h w = (true, Some (length (heap w)))).
  { unfold read_result, cap_read. by rewrite Ho, Hr. }
  assert (Haft : after_read env h w =
                 set_heap (heap w ++ [f]) (emit (EvRead h) (set_n_read (S (n_read w)) w))).
  { unfold after_read, cap_read. by rewrite Ho, Hr. }
  assert (Hfr : frame_of (after_read env h w) (length (heap w)) = f).
  { rewrite Haft. apply (frame_of_alloc (emit (EvRead h) (set_n_read (S (n_read w)) w))). }
  assert (Hb : read_bad env h w = false).
  { unfold read_bad. rewrite Hres. cbn [fst snd negb orb frame_size]. rewrite Hfr.
    rewrite bool_decide_eq_false_2 by done. by apply Nat.eqb_neq. }
  destruct (loop_body_good ui fc w h Hm Hb) as (fr&Efr&_&->).
  rewrite Hres in Efr. injection Efr as <-.
  unfold process_and_publish.
  erewrite bind_run by (apply cvtColor_BGR2RGB_run; by rewrite Hfr).
  rewrite Hfr. set (w1 := set_heap _ (after_read env h w)).
  assert (Hh1 : heap w1 = heap w ++ [f; COLOR_BGR2RGB f]).
  { unfold w1. cbn [heap set_heap]. rewrite Haft. cbn [heap set_heap emit set_n_read].
    by rewrite <- app_assoc. }
  assert (Hl1 : length (heap (after_read env h w)) = S (length (heap w))).
  { rewrite Haft. cbn [heap set_heap]. rewrite length_app. cbn. lia. }
  rewrite Hl1 in *.
  destruct (detect_faces_frame_run (Some (S (length (heap w)))) fc (scaleFactor ui)
              (minNeighbors ui) (color_rgb ui) w1) as [_ [n Hn]].
  pose proof (detect_faces_frame_others (S (length (heap w))) fc (scaleFactor ui)
                (minNeighbors ui) (color_rgb ui) w1) as (Hlen&Hoth&_).
  destruct (detect_faces_frame env (Some (S (length (heap w)))) fc (scaleFactor ui)
              (minNeighbors ui) (color_rgb ui) w1) as [res w2] eqn:Ed.
  cbn [fst snd] in *. subst res. erewrite bind_run by exact Ed.
  cbn [bind log modify get time_sleep fst snd heap emit].
  rewrite Hh1, length_app in Hlen. cbn in Hlen.
  split; [lia|]. split; [|split].
  - rewrite Hoth by lia. rewrite Hh1, lookup_app_r by lia. by rewrite Nat.sub_diag.
  - intros x Hx. rewrite Hoth by lia. rewrite Hh1. by rewrite lookup_app_l by lia.
  - exists (fps w2), n. cbn [trace emit].
    rewrite <- !app_assoc. by apply suffix_app_r.
Qed.

(** ** Fetching and loading the model *)

Ltac load_unfold :=
  unfold load_cascade_classifier, cache_resource, load_cascade_classifier_body,
    urlretrieve, CascadeClassifier, st_info, st_success, st_error, st_stop, bind,
    try_except, get, log, modify, raise, ret.

(** X11: the model is downloaded only when it is needed and missing: a
    call served by the cache, or made with the file present, makes no
    download and leaves the file alone; a call with an empty cache and no
    file makes exactly one download attempt, without retry, and a download
    that succeeds leaves the file it delivered. *)
Theorem fetch_only_if_absent w :
  let w' := (load_cascade_classifier env w).2 in
  (is_Some (cache w) \/ is_Some (cascade_file w) ->
   n_fetch w' = n_fetch w /\ cascade_file w' = cascade_file w)
  /\ (cache w = None -> cascade_file w = None ->
      n_fetch w' = S (n_fetch w)
      /\ forall file, fetch_script env (n_fetch w) = FetchOk file ->
           cascade_file w' = Some file).
Proof.
  cbv zeta. split.
  - intros [[c Hc]|[f Hf]].
    + load_unfold. cbn. by rewrite Hc.
    + destruct (cache w) eqn:Hc; load_unfold; cbn; rewrite Hc; cbn; [done|].
      rewrite Hf. cbn. repeat (case_match; simplify_eq/=; try done).
  - intros Hc Hf. load_unfold. cbn. rewrite Hc, Hf. cbn.
    repeat (case_match; simplify_eq/=; try done); split; try done;
      intros file [=]; by subst.
Qed.

(** X12: with an empty cache, load_cascade_classifier returns a detector
    exactly when the model file at hand (the local one, else the one
    downloaded) builds a classifier that is not empty; it returns that
    classifier and stores it in the cache. *)
Theorem load_succeeds_iff w c :
  cache w = None ->
  ((load_cascade_classifier env w).1 = Ret c
   <-> exists c0, model_file env w = Some (CtorOk c0) /\ cc_empty c0 = false /\ c = c0)
  /\ (forall c0, model_file env w = Some (CtorOk c0) -> cc_empty c0 = false ->
        load_cascade_classifier env w =
          (Ret c0, (load_cascade_classifier env w).2)
        /\ cache (load_cascade_classifier env w).2 = Some c0).
Proof.
  intros Hc. unfold model_file. split; [split|].
  - load_unfold. cbn. rewrite Hc. cbn.
    repeat (case_match; simplify_eq/=; try done); intros [= <-]; eauto.
  - intros (c0&Hm&He&->). revert Hm. load_unfold. cbn. rewrite Hc. cbn.
    repeat (case_match; simplify_eq/=; try done); intros [=]; simplify_eq;
      congruence.
  - intros c0 Hm He. revert Hm. load_unfold. cbn. rewrite Hc. cbn.
    repeat (case_match; simplify_eq/=; try done); intros [=]; simplify_eq;
      try congruence; done.
Qed.

(** X13: a download that delivers a file from which no usable classifier
    can be built stops the script, but the file stays: the next call finds it,
    makes no new download and fails in the same way. *)
Theorem bad_download_is_kept w file :
  cache w = None -> cascade_file w = None ->
  fetch_script env (n_fetch w) = FetchOk file ->
  match file with CtorRaise _ => True | CtorOk c => cc_empty c = true end ->
  let w' := (load_cascade_classifier env w).2 in
  (load_cascade_classifier env w).1 = Raise StopException
  /\ cascade_file w' = Some file /\ cache w' = None
  /\ (load_cascade_classifier env w').1 = Raise StopException
  /\ n_fetch (load_cascade_classifier env w').2 = n_fetch w'.
Proof.
  intros Hc Hf Hd Hbad. cbv zeta.
  assert (E : exists w1, load_cascade_classifier env w = (Raise StopException, w1)
            /\ cascade_file w1 = Some file /\ cache w1 = None).
  { load_unfold. cbn. rewrite Hc, Hf. cbn. rewrite Hd. cbn.
    destruct file as [m|c0]; cbn; [|cbn in Hbad; rewrite Hbad; cbn];
      eexists; (split; [reflexivity|]); done. }
  destruct E as (w1&->&Hf1&Hc1). cbn [fst snd].
  split; [done|]. split; [done|]. split; [done|].
  load_unfold. cbn. rewrite Hc1, Hf1. cbn. rewrite Hf1.
  destruct file as [m|c0]; cbn; [done|]. cbn in Hbad. rewrite Hbad. done.
Qed.

(** ** A healthy camera *)

Lemma quiet_ret {A} (a : A) : quiet (ret a).
Proof. by intros w. Qed.

Lemma quiet_bind {A B} (m : M A) (k : A -> M B) :
  quiet m -> (forall a, quiet (k a)) -> quiet (bind m k).
Proof.
  intros Hm Hk w. unfold bind. specialize (Hm w).
  destruct (m w) as [[a|e|] w1]; cbn [snd] in *; auto. by rewrite Hk.
Qed.

Lemma quiet_cv2_rectangle r p1 p2 c t : quiet (cv2_rectangle env r p1 p2 c t).
Proof. intros w. unfold cv2_rectangle. by destruct (rectangle_raises _ _ _ _). Qed.

Lemma quiet_cv2_putText r s o sc c t : quiet (cv2_putText env r s o sc c t).
Proof. intros w. unfold cv2_putText. by destruct (putText_raises _ _ _ _). Qed.

Lemma quiet_calculate_fps : quiet (calculate_fps env).
Proof. intros w. by rewrite calculate_fps_run. Qed.

Lemma quiet_draw_faces r faces c : quiet (draw_faces env r faces c).
Proof.
  induction faces as [|[[[fx fy] fw] fh] rest IH]; [apply quiet_ret|].
  cbn [draw_faces]. apply quiet_bind; [apply quiet_cv2_rectangle|intros _].
  apply quiet_bind; [apply quiet_cv2_putText|by intros _].
Qed.

Lemma detector_inputs_app t1 t2 :
  detector_inputs (t1 ++ t2) = detector_inputs t1 ++ detector_inputs t2.
Proof.
  induction t1 as [|e t1 IH]; [done|]. destruct e; simpl; rewrite ?IH; done.
Qed.

Lemma frames_shown_app t1 t2 : frames_shown (t1 ++ t2) = frames_shown t1 + frames_shown t2.
Proof.
  induction t1 as [|e t1 IH]; [done|]. destruct e; simpl; rewrite ?IH; done.
Qed.

(** On a valid frame the function adds to the trace the detection and, if
    its [try] raised, one error message. *)
Lemma detect_faces_frame_trace_exact r fc sf mn c w :
  frame_size w (Some r) <> 0 ->
  exists t, trace (detect_faces_frame env (Some r) fc sf mn c w).2 =
              trace w ++ EvDetect (COLOR_BGR2GRAY (frame_of w r)) :: t
    /\ (t = [] \/ exists m, t = [EvError m]).
Proof.
  intros Hsz. destruct (detect_faces_frame_run (Some r) fc sf mn c w) as [-> _].
  rewrite detect_faces_try_valid by done. unfold detect_and_draw.
  erewrite bind_run by by apply cvtColor_BGR2GRAY_run.
  unfold bind at 1, detectMultiScale.
  destruct (cc_detect _ _ _ _ _) as [m|faces].
  { eexists. cbn [snd trace emit]. rewrite <- app_assoc. split; [reflexivity|eauto]. }
  match goal with
  | |- context [?k (emit ?e w)] =>
      assert (Hk : quiet k);
      [|specialize (Hk (emit e w));
        destruct (k (emit e w)) as [[a|e'|] w2]; cbn [snd trace emit] in *]
  end.
  - apply quiet_bind; [apply quiet_draw_faces|intros _].
    apply quiet_bind; [apply quiet_cv2_putText|intros _].
    apply quiet_bind; [apply quiet_calculate_fps|intros k].
    apply quiet_bind; [apply quiet_cv2_putText|intros _; apply quiet_ret].
  - exists []. rewrite Hk. split; [done|by left].
  - eexists. rewrite Hk, <- app_assoc. split; [reflexivity|eauto].
  - exists []. rewrite Hk. split; [done|by left].
Qed.

Lemma healthy_iteration ui fc w h :
  main_cap w = Some h -> is_opened w h = true ->
  frame_ok (read_script env (n_read w)) = true ->
  exists w1, loop_body env ui fc w = (Ret tt, w1)
    /\ cam_eq w w1
    /\ read_attempts (trace w1) = S (read_attempts (trace w))
    /\ length (detector_inputs (trace w1)) = S (length (detector_inputs (trace w)))
    /\ frames_shown (trace w1) = S (frames_shown (trace w)).
Proof.
  intros Hm Ho Hok.
  assert (Hf : exists f, read_script env (n_read w) = (true, Some f) /\ fsize f <> 0).
  { unfold frame_ok in Hok. destruct (read_script env (n_read w)) as [[] [f|]]; try done.
    exists f. split; [done|]. cbn [fst snd andb] in Hok. apply Nat.ltb_lt in Hok. lia. }
  destruct Hf as (f&Hr&Hsz).
  assert (Hres : read_result env h w = (true, Some (length (heap w)))).
  { unfold read_result, cap_read. by rewrite Ho, Hr. }
  assert (Haft : after_read env h w =
                 set_heap (heap w ++ [f]) (emit (EvRead h) (set_n_read (S (n_read w)) w))).
  { unfold after_read, cap_read. by rewrite Ho, Hr. }
  assert (Hfr : frame_of (after_read env h w) (length (heap w)) = f).
  { rewrite Haft. apply (frame_of_alloc (emit (EvRead h) (set_n_read (S (n_read w)) w))). }
  assert (Hb : read_bad env h w = false).
  { unfold read_bad. rewrite Hres. cbn [fst snd negb orb frame_size]. rewrite Hfr.
    rewrite bool_decide_eq_false_2 by done. by apply Nat.eqb_neq. }
  destruct (loop_body_good ui fc w h Hm Hb) as (fr&Efr&_&E).
  rewrite Hres in Efr. injection Efr as <-.
  pose proof (camless_process_and_publish ui fc (length (heap w)) (after_read env h w)) as Hc.
  rewrite E. unfold process_and_publish in *.
  erewrite bind_run in * by (apply cvtColor_BGR2RGB_run; by rewrite Hfr).
  rewrite Hfr in *. set (w1 := set_heap _ (after_read env h w)) in *.
  assert (Hf1 : frame_of w1 (length (heap (after_read env h w))) = COLOR_BGR2RGB f).
  { apply frame_of_alloc. }
  destruct (detect_faces_frame_trace_exact (length (heap (after_read env h w))) fc
              (scaleFactor ui) (minNeighbors ui) (color_rgb ui) w1) as (t&Ht&Hshape).
  { cbn [frame_size]. by rewrite Hf1, fsize_BGR2RGB. }
  destruct (detect_faces_frame_run (Some (length (heap (after_read env h w)))) fc
              (scaleFactor ui) (minNeighbors ui) (color_rgb ui) w1) as [_ [n Hn]].
  destruct (detect_faces_frame env (Some (length (heap (after_read env h w)))) fc
              (scaleFactor ui) (minNeighbors ui) (color_rgb ui) w1) as [res w2] eqn:Ed.
  cbn [fst snd] in *. subst res. erewrite bind_run in * by exact Ed.
  cbn [bind log modify get time_sleep fst snd] in *.
  eexists. split; [reflexivity|]. split.
  { eapply cam_eq_trans; [apply after_read_cam|exact Hc]. }
  assert (Ht1 : trace w1 = trace w ++ [EvRead h]) by (unfold w1; by rewrite Haft).
  cbn [trace emit]. rewrite Ht, Ht1.
  rewrite !read_attempts_app, !detector_inputs_app, !frames_shown_app, !length_app.
  destruct Hshape as [->|[m ->]]; cbn; lia.
Qed.

(** X14: with cap bound to an open handle and a camera whose every read
    delivers a non-empty frame, the loop never leaves and never reopens the
    camera: after any number of iterations it is still running, the capture
    objects are as they were, and each iteration has made exactly one read,
    one detection and one display, whatever the detector and the drawing calls
    did. *)
Theorem healthy_loop_processes_every_frame fuel ui fc w h :
  main_cap w = Some h -> is_opened w h = true ->
  (forall k, frame_ok (read_script env k) = true) ->
  let w' := (capture_loop env fuel ui fc w).2 in
  (capture_loop env fuel ui fc w).1 = OutOfFuel
  /\ caps w' = caps w /\ main_cap w' = Some h
  /\ read_attempts (trace w') = read_attempts (trace w) + fuel
  /\ length (detector_inputs (trace w')) = length (detector_inputs (trace w)) + fuel
  /\ frames_shown (trace w') = frames_shown (trace w) + fuel.
Proof.
  intros Hm Ho Hok. cbv zeta. revert w Hm Ho.
  induction fuel as [|k IH]; intros w Hm Ho.
  - cbn. rewrite !Nat.add_0_r. by repeat split.
  - rewrite capture_loop_S.
    destruct (healthy_iteration ui fc w h Hm Ho (Hok _)) as (w1&->&Hce&H1&H2&H3).
    pose proof Hce as (Hc&_&Hmc&_).
    destruct (IH w1) as (K0&K1&K2&K3&K4&K5).
    { by rewrite Hmc. }
    { by rewrite (cam_eq_is_opened _ _ _ Hce). }
    rewrite K0, K1, K2, K3, K4, K5, H1, H2, H3, Hc. repeat split; lia.
Qed.

End Effects.

(** * The script under execution control *)

Lemma live_bind_run {A B} (m : Live.L A) (k : A -> Live.L B) s a s1 :
  m s = (Ret a, s1) -> Live.bind m k s = k a s1.
Proof. intros H. unfold Live.bind. by rewrite H. Qed.

Lemma live_bind_raise {A B} (m : Live.L A) (k : A -> Live.L B) s e s1 :
  m s = (Raise e, s1) -> Live.bind m k s = (Raise e, s1).
Proof. intros H. unfold Live.bind. by rewrite H. Qed.

Lemma lift_run {A} (m : M A) s r w' :
  m (Live.world s) = (r, w') -> Live.lift m s = (r, Live.set_world w' s).
Proof. intros H. unfold Live.lift. by rewrite H. Qed.

Lemma keeps_refl s : Live.keeps s s.
Proof. split; [apply cam_eq_refl|done]. Qed.

Lemma keeps_same s s' :
  Live.world s' = Live.world s -> Live.cut s' = Live.cut s -> Live.keeps s s'.
Proof. intros Hw Hc. split; [rewrite Hw; apply cam_eq_refl|by rewrite Hc]. Qed.

Lemma keeps_trans s1 s2 s3 : Live.keeps s1 s2 -> Live.keeps s2 s3 -> Live.keeps s1 s3.
Proof. intros [? ?] [? ?]. split; [by eapply cam_eq_trans|by etrans]. Qed.

Lemma live_camless_ret {A} (a : A) : Live.camless (Live.ret a).
Proof. intros s. apply keeps_refl. Qed.

Lemma live_camless_raise {A} e : Live.camless (@Live.raise A e).
Proof. intros s. apply keeps_refl. Qed.

Lemma live_camless_get_run {A} (f : Live.Run -> A) : Live.camless (Live.get_run f).
Proof. intros s. apply keeps_refl. Qed.

Lemma live_camless_set_replay v : Live.camless (Live.modify_run (Live.set_replay v)).
Proof. intros s. by apply keeps_same. Qed.

Lemma live_camless_bind {A B} (m : Live.L A) (k : A -> Live.L B) :
  Live.camless m -> (forall a, Live.camless (k a)) -> Live.camless (Live.bind m k).
Proof.
  intros Hm Hk s. unfold Live.bind. specialize (Hm s).
  destruct (m s) as [[a|e|] s1]; cbn [snd] in *; auto.
  eapply keeps_trans; [exact Hm|apply Hk].
Qed.

Lemma live_camless_try_except {A} c (m : Live.L A) h :
  Live.camless m -> (forall e, Live.camless (h e)) -> Live.camless (Live.try_except c m h).
Proof.
  intros Hm Hh s. unfold Live.try_except. specialize (Hm s).
  destruct (m s) as [[a|e|] s1]; cbn [snd] in *; auto.
  destruct (c e); cbn [snd]; auto.
  eapply keeps_trans; [exact Hm|apply Hh].
Qed.

Lemma live_camless_lift {A} (m : M A) : camless m -> Live.camless (Live.lift m).
Proof. intros Hm s. split; [apply Hm|done]. Qed.

Section LiveEffects.

Variable env : Env.
Variable req : nat -> bool.

Lemma live_camless_st_call ev : Live.camless (Live.st_call req ev).
Proof.
  intros s. unfold Live.st_call. destruct (Live.pending req s); cbn [snd].
  - split; [apply cam_eq_refl|by apply prefix_app_r].
  - split; [apply cam_eq_emit|done].
Qed.

Lemma live_camless_st_widget : Live.camless (Live.st_widget req).
Proof.
  intros s. unfold Live.st_widget. destruct (Live.pending req s); by apply keeps_same.
Qed.

Lemma live_camless_st_stop {A} : Live.camless (@Live.st_stop A).
Proof. intros s. by apply keeps_same. Qed.

Ltac live_camless_tac :=
  repeat first
    [ progress intros
    | solve [eauto]
    | apply live_camless_ret | apply live_camless_raise | apply live_camless_get_run
    | apply live_camless_set_replay
    | apply live_camless_st_call | apply live_camless_st_widget | apply live_camless_st_stop
    | apply live_camless_bind | apply live_camless_try_except
    | apply live_camless_lift
    | apply camless_log | apply camless_time_sleep
    | py_split ].

Lemma live_camless_show_all evs : Live.camless (Live.show_all req evs).
Proof.
  induction evs as [|e rest IH]; cbn [Live.show_all]; live_camless_tac.
Qed.

Lemma live_camless_detect_faces_frame fr fc sf mn c :
  Live.camless (Live.detect_faces_frame env req fr fc sf mn c).
Proof.
  unfold Live.detect_faces_frame, Live.st_error.
  pose proof (camless_detect_faces_try env fr fc sf mn c). live_camless_tac.
Qed.

Lemma live_camless_process_and_publish ui fc fr :
  Live.camless (Live.process_and_publish env req ui fc fr).
Proof.
  unfold Live.process_and_publish.
  pose proof (camless_cvtColor_BGR2RGB fr).
  pose proof live_camless_detect_faces_frame. live_camless_tac.
Qed.

Lemma live_camless_load_cascade_classifier :
  Live.camless (Live.load_cascade_classifier env req).
Proof.
  unfold Live.load_cascade_classifier, Live.cache_resource,
    Live.load_cascade_classifier_body, Live.st_info, Live.st_success, Live.st_error.
  pose proof (camless_urlretrieve env). pose proof camless_CascadeClassifier.
  pose proof camless_set_cache. pose proof camless_log. pose proof live_camless_show_all.
  live_camless_tac.
Qed.

Lemma live_camless_sidebar : Live.camless (Live.sidebar req).
Proof. unfold Live.sidebar. live_camless_tac. Qed.

Lemma live_camless_layout : Live.camless (Live.layout req).
Proof. unfold Live.layout. live_camless_tac. Qed.

(** ** What was cut stays cut *)

Lemma grows_camless {A} (m : Live.L A) : Live.camless m -> Live.grows m.
Proof. intros H s. apply H. Qed.

Lemma grows_lift {A} (m : M A) : Live.grows (Live.lift m).
Proof. by intros s. Qed.

Lemma grows_bind {A B} (m : Live.L A) (k : A -> Live.L B) :
  Live.grows m -> (forall a, Live.grows (k a)) -> Live.grows (Live.bind m k).
Proof.
  intros Hm Hk s. unfold Live.bind. specialize (Hm s).
  destruct (m s) as [[a|e|] s1]; cbn [snd] in *; auto.
  etrans; [exact Hm|apply Hk].
Qed.

Lemma grows_try_except {A} c (m : Live.L A) h :
  Live.grows m -> (forall e, Live.grows (h e)) -> Live.grows (Live.try_except c m h).
Proof.
  intros Hm Hh s. unfold Live.try_except. specialize (Hm s).
  destruct (m s) as [[a|e|] s1]; cbn [snd] in *; auto.
  destruct (c e); cbn [snd]; auto.
  etrans; [exact Hm|apply Hh].
Qed.

Lemma grows_try_finally {A} (m : Live.L A) fin :
  Live.grows m -> Live.grows fin -> Live.grows (Live.try_finally m fin).
Proof.
  intros Hm Hf s. unfold Live.try_finally. specialize (Hm s).
  destruct (m s) as [[a|e|] s1]; cbn [snd] in *; auto;
    specialize (Hf s1); destruct (fin s1) as [[[]|e'|] s2]; cbn [snd] in *; by etrans.
Qed.

Ltac grows_tac :=
  repeat first
    [ progress intros
    | solve [eauto]
    | apply grows_lift
    | solve [apply grows_camless; live_camless_tac]
    | apply grows_bind | apply grows_try_except | apply grows_try_finally
    | py_split ].

Lemma grows_validate n cap : Live.grows (Live.validate env req n cap).
Proof.
  induction n as [|k IH]; cbn [Live.validate]; unfold Live.st_success; grows_tac.
Qed.

Lemma grows_initialize_camera : Live.grows (Live.initialize_camera env req).
Proof.
  unfold Live.initialize_camera, Live.open_and_validate, Live.st_info, Live.st_error.
  pose proof grows_validate. grows_tac.
Qed.

Lemma grows_loop_body ui fc : Live.grows (Live.loop_body env req ui fc).
Proof.
  unfold Live.loop_body, Live.recover, Live.reopen, Live.st_warning.
  pose proof grows_initialize_camera.
  pose proof (fun fr => grows_camless _ (live_camless_process_and_publish ui fc fr)).
  grows_tac.
Qed.

Lemma grows_capture_loop fuel ui fc : Live.grows (Live.capture_loop env req fuel ui fc).
Proof.
  induction fuel as [|k IH]; cbn [Live.capture_loop]; [by intros s|].
  unfold Live.st_error. pose proof grows_loop_body. grows_tac.
Qed.

Lemma grows_main_try fuel ui : Live.grows (Live.main_try env req fuel ui).
Proof.
  unfold Live.main_try.
  pose proof (grows_camless _ live_camless_load_cascade_classifier).
  pose proof (grows_camless _ live_camless_sidebar).
  pose proof (grows_camless _ live_camless_layout).
  pose proof grows_initialize_camera. pose proof grows_capture_loop.
  grows_tac.
Qed.

Lemma grows_main_finally : Live.grows (Live.main_finally req).
Proof. unfold Live.main_finally, Live.st_info. grows_tac. Qed.

Lemma grows_main_guard body : Live.grows body -> Live.grows (Live.main_guard req body).
Proof.
  intros Hb. unfold Live.main_guard, Live.st_error.
  pose proof grows_main_finally. grows_tac.
Qed.

(** ** The camera invariant *)

Lemma cut_stays s s' ev :
  Live.cut s `prefix_of` Live.cut s' -> ev ∈ Live.cut s -> ev ∈ Live.cut s'.
Proof. intros [k ->] H. apply elem_of_app. by left. Qed.

Lemma guarded_keeps b s s' : Live.keeps s s' -> Live.guarded b s -> Live.guarded b s'.
Proof.
  intros [Hc Hp] [H|H]; [left; by eapply cut_stays|right; by eapply cam_eq_held].
Qed.

Lemma released_keeps b s s' : Live.keeps s s' -> Live.released b s -> Live.released b s'.
Proof.
  intros [Hc Hp] [H|H]; [left; by eapply cut_stays|right; by eapply cam_eq_closed_from].
Qed.

Lemma released_guarded b s : Live.released b s -> Live.guarded b s.
Proof. intros [H|H]; [by left|right; by apply closed_held]. Qed.

(** The validation returns the handle, raises an [Exception], or is cut at
    its success message. *)
Lemma live_validate_spec n cap s :
  exists r s', Live.validate env req n cap s = (r, s')
    /\ Live.keeps s s'
    /\ match r with
       | Ret c => c = cap
       | Raise e =>
           is_Exception e = true \/ (e = StopException /\ Live.camera_ready ∈ Live.cut s')
       | OutOfFuel => False
       end.
Proof.
  revert s. induction n as [|k IH]; intros s; cbn [Live.validate].
  { eexists _, _. split; [reflexivity|]. split; [apply keeps_refl|by left]. }
  unfold Live.bind at 1.
  rewrite (lift_run _ s _ _ (cap_read_run env cap (Live.world s))).
  assert (K1 : Live.keeps s (Live.set_world (after_read env cap (Live.world s)) s)).
  { split; [|done]. pose proof (camless_cap_read env cap (Live.world s)) as Hc.
    by rewrite cap_read_run in Hc. }
  remember (Live.set_world (after_read env cap (Live.world s)) s) as s1 eqn:E1. clear E1.
  unfold Live.bind at 1, Live.get_run.
  match goal with |- context [if ?b then _ else _] => destruct b end.
  - unfold Live.bind, Live.st_success, Live.st_call.
    destruct (Live.pending req s1); eexists _, _; (split; [reflexivity|]).
    + split.
      * eapply keeps_trans; [exact K1|]. split; [apply cam_eq_refl|by apply prefix_app_r].
      * right. split; [done|]. cbn [Live.cut Live.set_cut]. apply elem_of_app. right.
        by apply list_elem_of_singleton.
    + split; [|done]. eapply keeps_trans; [exact K1|]. split; [apply cam_eq_emit|done].
  - unfold Live.bind at 1. unfold Live.lift at 1. cbn [fst snd time_sleep log modify].
    destruct (IH (Live.set_world (emit (EvSleep (1 # 2)) (Live.world s1)) s1))
      as (r&s2&E&K2&R).
    exists r, s2. split; [exact E|]. split; [|exact R].
    eapply keeps_trans; [exact K1|]. eapply keeps_trans; [|exact K2].
    split; [apply cam_eq_emit|done].
Qed.

Lemma live_open_and_validate_spec cap s :
  exists r s', Live.open_and_validate env req cap s = (r, s')
    /\ Live.keeps s s'
    /\ match r with
       | Ret c => c = cap
       | Raise e =>
           is_Exception e = true \/ (e = StopException /\ Live.camera_ready ∈ Live.cut s')
       | OutOfFuel => False
       end.
Proof.
  unfold Live.open_and_validate, Live.bind at 1, Live.get_run.
  destruct (negb (is_opened (Live.world s) cap)).
  { eexists _, _. split; [reflexivity|]. split; [apply keeps_refl|by left]. }
  unfold Live.bind, Live.lift. cbn [fst snd cap_set log modify].
  match goal with |- context [Live.validate env req 3 cap ?s1] =>
    destruct (live_validate_spec 3 cap s1) as (r&s2&E&K&R) end.
  exists r, s2. split; [exact E|]. split; [|exact R].
  eapply keeps_trans; [|exact K].
  split; [|done]. cbn [Live.world Live.set_world].
  eapply cam_eq_trans; apply cam_eq_emit.
Qed.

(** What a call of [initialize_camera] does to the capture objects: it
    returns the one handle it leaves open, or ends with a control exception
    and every handle it built closed, unless it was cut at its success
    message. *)
Lemma live_initialize_camera_spec b s :
  closed_from b (Live.world s) ->
  exists r s', Live.initialize_camera env req s = (r, s')
    /\ main_cap (Live.world s') = main_cap (Live.world s)
    /\ match r with
       | Ret c => only_open b c (Live.world s')
       | Raise e => e = StopException /\ Live.released b s'
       | OutOfFuel => False
       end.
Proof.
  intros Hcl. unfold Live.initialize_camera, Live.st_info.
  unfold Live.bind at 1, Live.st_call.
  destruct (Live.pending req s).
  { eexists _, _. split; [reflexivity|]. split; [done|]. split; [done|]. by right. }
  cbv beta iota.
  match goal with |- context [Live.bind _ _ ?s0] => remember s0 as s1 eqn:E1 end.
  assert (Hcl1 : closed_from b (Live.world s1)) by (by subst s1).
  assert (Hm1 : main_cap (Live.world s1) = main_cap (Live.world s)) by (by subst s1).
  clear E1.
  destruct (release_stale_spec env b (seq 0 5) (Live.world s1) Hcl1)
    as (w2&E2&Hcl2&_&Hm2&_).
  erewrite live_bind_run by (apply lift_run; exact E2).
  erewrite live_bind_run by (apply lift_run; unfold time_sleep, log, modify; reflexivity).
  destruct (VideoCapture_run env 0 (emit (EvSleep (1 # 2)) w2)) as (w4&E4&Hc4&Hm4&_).
  erewrite live_bind_run by (apply lift_run; exact E4).
  assert (Ho4 : only_open b (length (caps w2)) w4).
  { eapply (new_capture_only_open b (emit (EvSleep (1 # 2)) w2)); [exact Hc4|exact Hcl2]. }
  cbn [caps main_cap emit] in *.
  unfold Live.try_except.
  match goal with |- context [Live.open_and_validate env req _ ?s0] =>
    remember s0 as s4 eqn:E4' end.
  assert (Hw4 : Live.world s4 = w4) by (by subst s4). clear E4'.
  destruct (live_open_and_validate_spec (length (caps w2)) s4) as (r&s5&E5&[Hce Hcut]&Hr).
  rewrite E5. rewrite Hw4 in Hce. pose proof Hce as (_&_&Hm5&_).
  assert (Ho5 : only_open b (length (caps w2)) (Live.world s5)) by by eapply cam_eq_only_open.
  assert (Hm : main_cap (Live.world s5) = main_cap (Live.world s)) by congruence.
  destruct r as [c|e|]; [| |done].
  - subst c. eexists _, _. split; [reflexivity|]. done.
  - destruct Hr as [He|[-> Hin]].
    + rewrite He.
      pose proof (release_only_open _ _ _ Ho5) as Hcl6.
      destruct (safe_camera_release_run (Some (length (caps w2))) (Live.world s5))
        as (w6&E6&Hm6&_).
      rewrite E6 in Hcl6. cbn [snd] in Hcl6.
      erewrite live_bind_run by (apply lift_run; exact E6).
      unfold Live.bind, Live.st_error, Live.st_call, Live.st_stop.
      destruct (Live.pending req _); eexists _, _; (split; [reflexivity|]);
        cbn [Live.world Live.set_world Live.set_cut Live.set_n_st Live.set_stop_requested
               main_cap emit];
        (split; [congruence|]); (split; [done|]); right; exact Hcl6.
    + eexists _, _. split; [reflexivity|]. split; [done|]. split; [done|]. by left.
Qed.

Lemma live_reopen_spec b h s :
  held b (Live.world s) -> main_cap (Live.world s) = Some h ->
  exists r s', Live.reopen env req h s = (r, s')
    /\ match r with
       | Ret c => only_open b c (Live.world s')
       | Raise _ => Live.guarded b s'
       | OutOfFuel => False
       end.
Proof.
  intros Hh Hm. unfold Live.reopen, Live.bind at 1, Live.st_warning, Live.st_call.
  destruct (Live.pending req s).
  { eexists _, _. split; [reflexivity|]. by right. }
  cbv beta iota.
  match goal with |- context [Live.bind _ _ ?s0] => remember s0 as s1 eqn:E1 end.
  assert (Ho : only_open b h (Live.world s1)).
  { subst s1. eapply held_only_open; [exact Hh|exact Hm]. }
  clear E1.
  pose proof (release_only_open _ _ _ Ho) as Hcl.
  destruct (safe_camera_release_run (Some h) (Live.world s1)) as (w2&E2&_).
  rewrite E2 in Hcl. cbn [snd] in Hcl.
  erewrite live_bind_run by (apply lift_run; exact E2).
  erewrite live_bind_run by (apply lift_run; unfold time_sleep, log, modify; reflexivity).
  match goal with |- context [Live.initialize_camera env req ?s0] =>
    destruct (live_initialize_camera_spec b s0) as (r&s3&E3&_&Hr) end.
  { exact Hcl. }
  exists r, s3. split; [exact E3|].
  destruct r as [c|e|]; [done| |done]. apply released_guarded, Hr.
Qed.

(** An iteration keeps the invariant, however it ends. *)
Lemma guarded_loop_body b ui fc s :
  Live.guarded b s -> Live.guarded b (Live.loop_body env req ui fc s).2.
Proof.
  intros [Hin|Hh].
  { left. eapply cut_stays; [apply grows_loop_body|done]. }
  unfold Live.loop_body, Live.bind at 1, Live.get_run.
  destruct (main_cap (Live.world s)) as [h|] eqn:Hm; [|by right].
  unfold Live.bind at 1.
  rewrite (lift_run _ s _ _ (cap_read_run env h (Live.world s))).
  assert (Hce : cam_eq (Live.world s) (after_read env h (Live.world s))).
  { pose proof (camless_cap_read env h (Live.world s)) as Hc.
    by rewrite cap_read_run in Hc. }
  remember (Live.set_world (after_read env h (Live.world s)) s) as s1 eqn:E1.
  assert (Hw1 : cam_eq (Live.world s) (Live.world s1)) by (by subst s1).
  clear E1 Hce. pose proof Hw1 as (_&_&Hm1&_).
  assert (Hh1 : held b (Live.world s1)) by by eapply cam_eq_held.
  assert (Hrec : Live.guarded b (Live.recover env req h s1).2).
  { destruct (live_reopen_spec b h s1 Hh1) as (r&s3&E3&Hr); [congruence|].
    unfold Live.recover, Live.bind. rewrite E3.
    destruct r as [c|e|]; [|exact Hr|done].
    right. unfold Live.lift. cbn [snd Live.world Live.set_world modify].
    intros h' Hb Hop. cbn [main_cap set_main_cap]. f_equal. symmetry.
    by apply Hr. }
  unfold Live.bind at 1, Live.get_run.
  destruct (read_result env h (Live.world s)).2 as [fr|]; [|exact Hrec].
  match goal with |- context [if ?c then _ else _] => destruct c end; [exact Hrec|].
  eapply guarded_keeps; [apply live_camless_process_and_publish|by right].
Qed.

Lemma live_capture_loop_S k ui fc s :
  Live.capture_loop env req (S k) ui fc s =
  match Live.loop_body env req ui fc s with
  | (Raise e, s1) =>
      if is_Exception e then
        match Live.st_error req ("Erreur dans la boucle principale: " +:+ exn_str e) s1 with
        | (Ret _, s2) =>
            Live.capture_loop env req k ui fc
              (Live.set_world (emit (EvSleep (1 # 10)) (Live.world s2)) s2)
        | (Raise e', s2) => (Raise e', s2)
        | (OutOfFuel, s2) => (OutOfFuel, s2)
        end
      else (Raise e, s1)
  | (Ret _, s1) => Live.capture_loop env req k ui fc s1
  | (OutOfFuel, s1) => (OutOfFuel, s1)
  end.
Proof.
  cbn [Live.capture_loop]. unfold Live.bind at 1, Live.try_except.
  destruct (Live.loop_body env req ui fc s) as [[[]|e|] s1]; [done| |done].
  destruct (is_Exception e); [|done].
  unfold Live.bind. destruct (Live.st_error req _ s1) as [[[]|e'|] s2]; done.
Qed.

Lemma guarded_capture_loop b fuel ui fc s :
  Live.guarded b s -> Live.guarded b (Live.capture_loop env req fuel ui fc s).2.
Proof.
  revert s. induction fuel as [|k IH]; intros s Hg; [done|].
  rewrite live_capture_loop_S.
  pose proof (guarded_loop_body b ui fc s Hg) as H1.
  destruct (Live.loop_body env req ui fc s) as [[[]|e|] s1]; cbn [snd] in *; auto.
  destruct (is_Exception e); [|done].
  pose proof (live_camless_st_call (EvError ("Erreur dans la boucle principale: "
                +:+ exn_str e)) s1) as K.
  unfold Live.st_error.
  destruct (Live.st_call req _ s1) as [[[]|e'|] s2]; cbn [snd] in *;
    [|by eapply guarded_keeps|by eapply guarded_keeps].
  apply IH. eapply guarded_keeps; [|eapply guarded_keeps; [exact K|exact H1]].
  split; [apply cam_eq_emit|done].
Qed.

Lemma guarded_main_try b fuel ui s :
  closed_from b (Live.world s) -> main_cap (Live.world s) = None ->
  Live.guarded b (Live.main_try env req fuel ui s).2.
Proof.
  intros Hcl Hm. unfold Live.main_try, Live.bind at 1.
  pose proof (live_camless_load_cascade_classifier s) as K1.
  destruct (Live.load_cascade_classifier env req s) as [[fc|e|] s1]; cbn [snd] in *;
    try (eapply guarded_keeps; [exact K1|right; by apply closed_held]).
  unfold Live.bind at 1.
  pose proof (live_camless_sidebar s1) as K2.
  destruct (Live.sidebar req s1) as [[[]|e|] s2]; cbn [snd] in *;
    try (eapply guarded_keeps; [eapply keeps_trans; [exact K1|exact K2]|
                               right; by apply closed_held]).
  assert (K : Live.keeps s s2) by by eapply keeps_trans.
  assert (Hcl2 : closed_from b (Live.world s2)) by (eapply cam_eq_closed_from; [apply K|done]).
  destruct (live_initialize_camera_spec b s2 Hcl2) as (r&s3&E&Hm3&Hr).
  unfold Live.bind at 1. rewrite E.
  destruct r as [c|e|]; [|apply released_guarded; apply Hr|done].
  unfold Live.bind at 1, Live.lift at 1. cbn [fst snd modify].
  match goal with |- context [Live.bind _ _ ?s0] => remember s0 as s4 eqn:E4 end.
  assert (Hh : Live.guarded b s4).
  { right. subst s4. intros h Hb Hop. cbn [Live.world Live.set_world main_cap set_main_cap].
    f_equal. symmetry. by apply Hr. }
  clear E4. unfold Live.bind at 1.
  pose proof (live_camless_layout s4) as K4.
  destruct (Live.layout req s4) as [[[]|e|] s5]; cbn [snd] in *;
    try (by eapply guarded_keeps).
  destruct (run ui); [|by eapply guarded_keeps].
  apply guarded_capture_loop. by eapply guarded_keeps.
Qed.

(** The [finally] block releases what [cap] holds. *)
Lemma live_main_finally_spec b s :
  Live.guarded b s ->
  (Live.main_finally req s).1 <> OutOfFuel
  /\ Live.released b (Live.main_finally req s).2.
Proof.
  intros Hg. unfold Live.main_finally, Live.bind at 1, Live.get_run.
  assert (Hrel : exists s1,
            (match main_cap (Live.world s) with
             | Some h => Live.lift (safe_camera_release (Some h))
             | None => Live.ret tt
             end) s = (Ret tt, s1) /\ Live.released b s1).
  { destruct Hg as [Hin|Hh].
    - destruct (main_cap (Live.world s)) as [h|]; [|exists s; split; [done|by left]].
      destruct (safe_camera_release_run (Some h) (Live.world s)) as (w1&E1&_).
      eexists. split; [apply lift_run; exact E1|]. by left.
    - destruct (main_cap (Live.world s)) as [h|] eqn:Hm.
      + pose proof (release_only_open b h _ (held_only_open _ _ _ Hh Hm)) as Hcl.
        destruct (safe_camera_release_run (Some h) (Live.world s)) as (w1&E1&_).
        rewrite E1 in Hcl. eexists. split; [apply lift_run; exact E1|]. by right.
      + exists s. split; [done|]. right. intros h Hb.
        destruct (is_opened (Live.world s) h) eqn:Ho; [|done].
        specialize (Hh h Hb Ho). congruence. }
  destruct Hrel as (s1&E1&Hr). unfold Live.bind. rewrite E1.
  pose proof (live_camless_st_call (EvInfo "Ressources libérées") s1) as K.
  unfold Live.st_info.
  destruct (Live.st_call req _ s1) as [[[]|e|] s2] eqn:E2; cbn [fst snd] in *.
  - split; [done|]. by eapply released_keeps.
  - split; [done|]. by eapply released_keeps.
  - unfold Live.st_call in E2. by destruct (Live.pending req s1).
Qed.

Lemma live_main_finally_returns s :
  (Live.main_finally req s).1 = Ret tt \/ (Live.main_finally req s).1 = Raise StopException.
Proof.
  unfold Live.main_finally, Live.bind at 1, Live.get_run.
  assert (Hrel : exists s1,
            (match main_cap (Live.world s) with
             | Some h => Live.lift (safe_camera_release (Some h))
             | None => Live.ret tt
             end) s = (Ret tt, s1)).
  { destruct (main_cap (Live.world s)) as [h|]; [|by exists s].
    destruct (safe_camera_release_run (Some h) (Live.world s)) as (w1&E1&_).
    eexists. apply lift_run. exact E1. }
  destruct Hrel as (s1&E1). unfold Live.bind. rewrite E1.
  unfold Live.st_info, Live.st_call. destruct (Live.pending req s1); [by right|by left].
Qed.

Lemma live_main_guard_spec b body s :
  Live.guarded b (body s).2 ->
  (Live.main_guard req body s).1 <> OutOfFuel ->
  Live.released b (Live.main_guard req body s).2
  /\ ((Live.main_guard req body s).1 = Ret tt
      \/ exists e, (Live.main_guard req body s).1 = Raise e /\ is_Exception e = false).
Proof.
  intros Hg. destruct (Live.main_guard req body s) as [g sg] eqn:E. cbn [fst snd].
  unfold Live.main_guard, Live.try_finally, Live.try_except in E.
  destruct (body s) as [[[]|e|] s1]; cbn [fst snd] in *.
  - destruct (live_main_finally_spec b s1 Hg) as [H1 H2].
    destruct (live_main_finally_returns s1) as [H3|H3].
    + destruct (Live.main_finally req s1) as [[[]|e'|] s2]; try done.
      injection E as <- <-. intros _. split; [done|by left].
    + destruct (Live.main_finally req s1) as [[[]|e'|] s2]; try done.
      cbn [fst] in H3. injection H3 as ->. injection E as <- <-. intros _.
      split; [done|right; by eexists].
  - assert (Hh : exists r s2,
              (if is_Exception e then
                 Live.st_error req ("Erreur générale: " +:+ exn_str e) s1
               else (Raise e, s1)) = (r, s2)
              /\ (r = Ret tt \/ exists e', r = Raise e' /\ is_Exception e' = false)
              /\ Live.guarded b s2).
    { destruct (is_Exception e) eqn:He; [|eexists _, _; split; [done|]; split; [|done];
                                           right; by eexists].
      pose proof (live_camless_st_call (EvError ("Erreur générale: " +:+ exn_str e)) s1) as K.
      unfold Live.st_error, Live.st_call in *.
      destruct (Live.pending req s1); eexists _, _; (split; [reflexivity|]);
        (split; [|by eapply guarded_keeps]); [right; by eexists|by left]. }
    destruct Hh as (r&s2&Er&Hr&Hg2). rewrite Er in E.
    destruct (live_main_finally_spec b s2 Hg2) as [H1 H2].
    destruct (live_main_finally_returns s2) as [H3|H3];
      destruct (Live.main_finally req s2) as [[[]|e''|] s3]; try done;
      cbn [fst] in H3; try injection H3 as ->.
    + destruct Hr as [->|(e'&->&He')]; injection E as <- <-; intros _;
        (split; [done|]); [by left|right; by eexists].
    + destruct Hr as [->|(e'&->&He')]; injection E as <- <-; intros _;
        (split; [done|]); right; by eexists.
  - injection E as <- <-. done.
Qed.

Lemma live_main_released b fuel ui s :
  closed_from b (Live.world s) ->
  (Live.main env req fuel ui s).1 <> OutOfFuel ->
  Live.released b (Live.main env req fuel ui s).2
  /\ ((Live.main env req fuel ui s).1 = Ret tt
      \/ exists e, (Live.main env req fuel ui s).1 = Raise e /\ is_Exception e = false).
Proof.
  intros Hcl. destruct (Live.main env req fuel ui s) as [g sg] eqn:E. cbn [fst snd].
  unfold Live.main, Live.bind at 1, Live.lift at 1 in E. cbn [fst snd modify] in E.
  match type of E with context [Live.bind _ _ ?s0] => remember s0 as s1 eqn:E1 end.
  assert (Hcl1 : closed_from b (Live.world s1)) by (by subst s1).
  assert (Hm1 : main_cap (Live.world s1) = None) by (by subst s1).
  clear E1.
  assert (Hw : forall s0 : Live.Run, closed_from b (Live.world s0) ->
            main_cap (Live.world s0) = None ->
            match Live.st_widget req s0 with
            | (Ret _, s') => closed_from b (Live.world s') /\ main_cap (Live.world s') = None
            | (Raise e, s') => e = StopException /\ closed_from b (Live.world s')
            | (OutOfFuel, _) => False
            end).
  { intros s0 H1 H2. unfold Live.st_widget. by destruct (Live.pending req s0). }
  unfold Live.bind at 1 in E. pose proof (Hw s1 Hcl1 Hm1) as H1.
  destruct (Live.st_widget req s1) as [[[]|e|] s2]; [| |done].
  2:{ destruct H1 as [-> H1]. injection E as <- <-. intros _.
      split; [by right|right; by exists StopException]. }
  destruct H1 as [Hcl2 Hm2].
  unfold Live.bind at 1 in E. pose proof (Hw s2 Hcl2 Hm2) as H2.
  destruct (Live.st_widget req s2) as [[[]|e|] s3]; [| |done].
  2:{ destruct H2 as [-> H2]. injection E as <- <-. intros _.
      split; [by right|right; by exists StopException]. }
  destruct H2 as [Hcl3 Hm3]. intros Hne.
  pose proof (live_main_guard_spec b (Live.main_try env req fuel ui) s3
                (guarded_main_try b fuel ui s3 Hcl3 Hm3)) as H.
  rewrite E in H. by apply H.
Qed.

(** X15: with every Streamlit call a possible stop or rerun point, however
    main is left (return, script stop, rerun, any exception that leaves the
    loop), no capture object built during the call is open afterwards, with
    one exception: a control exception raised by the success message of
    initialize_camera.  Started without an open handle, main then leaves
    none.  Main ends by returning or by an exception that is not an
    [Exception]. *)
Theorem main_releases_unless_cut fuel ui s :
  (Live.main env req fuel ui s).1 <> OutOfFuel ->
  Live.camera_ready ∉ Live.cut (Live.main env req fuel ui s).2 ->
  closed_from (length (caps (Live.world s))) (Live.world (Live.main env req fuel ui s).2)
  /\ (closed_from 0 (Live.world s) ->
      count_open (caps (Live.world (Live.main env req fuel ui s).2)) = 0)
  /\ ((Live.main env req fuel ui s).1 = Ret tt
      \/ exists e, (Live.main env req fuel ui s).1 = Raise e /\ is_Exception e = false).
Proof.
  intros Hne Hcut. split; [|split].
  - destruct (live_main_released _ fuel ui s (closed_out_of_range _) Hne) as [[H|H] _]; done.
  - intros Hcl. apply closed_count_open.
    destruct (live_main_released _ fuel ui s Hcl Hne) as [[H|H] _]; done.
  - apply (live_main_released _ fuel ui s (closed_out_of_range _) Hne).
Qed.

(** ** The report of the [finally] block *)

Lemma set_world_same s : Live.set_world (Live.world s) s = s.
Proof. by destruct s. Qed.

Lemma live_main_finally_run s :
  Live.main_finally req s =
  Live.st_info req "Ressources libérées"
    (Live.set_world (Live.let_go (Live.world s)) s).
Proof.
  unfold Live.main_finally, Live.bind at 1, Live.get_run, Live.let_go.
  destruct (main_cap (Live.world s)) as [h|].
  - destruct (safe_camera_release_run (Some h) (Live.world s)) as (w1&E1&_).
    erewrite live_bind_run by (apply lift_run; exact E1). by rewrite E1.
  - unfold Live.bind, Live.ret. cbn [safe_camera_release ret snd].
    by rewrite set_world_same.
Qed.

(** X7: what the [finally] block of main shows.  Once a stop is
    requested (the script has called [st.stop()]) nothing is displayed any
    more: the guard ends with the control exception, "Ressources libérées" is
    cut, and the world is the one the guarded part left, with [cap] released.
    When the guarded part returns and no request is pending, the report is
    displayed and main's guard returns.  When it raises an [Exception] and no
    request is pending at the two calls that follow, the exception is reported
    as "Erreur générale: ...", then the report is displayed and the guard
    returns normally. *)
Theorem finally_report_shown (body : Live.L unit) s :
  let r := body s in
  let g := Live.main_guard req body s in
  (r.1 <> OutOfFuel -> Live.stop_requested r.2 = true ->
   g.1 = Raise StopException
   /\ Live.world g.2 = Live.let_go (Live.world r.2)
   /\ last (Live.cut g.2) = Some (EvInfo "Ressources libérées"))
  /\ (r.1 = Ret tt -> Live.pending req r.2 = false ->
      g.1 = Ret tt
      /\ Live.world g.2 =
         emit (EvInfo "Ressources libérées") (Live.let_go (Live.world r.2)))
  /\ (forall e, r.1 = Raise e -> is_Exception e = true ->
      Live.pending req r.2 = false -> req (S (Live.n_st r.2)) = false ->
      g.1 = Ret tt
      /\ Live.world g.2 =
         emit (EvInfo "Ressources libérées")
           (Live.let_go (emit (EvError ("Erreur générale: " +:+ exn_str e))
                           (Live.world r.2)))).
Proof.
  cbv zeta. destruct (Live.main_guard req body s) as [g sg] eqn:E.
  unfold Live.main_guard, Live.try_finally, Live.try_except in E.
  destruct (body s) as [r s1]. cbn [fst snd].
  split; [|split].
  - intros Hne Hstop.
    assert (Hfin : forall s2, Live.stop_requested s2 = true ->
              Live.main_finally req s2 =
              (Raise StopException,
               Live.set_cut (Live.cut s2 ++ [EvInfo "Ressources libérées"])
                 (Live.set_n_st (S (Live.n_st s2))
                    (Live.set_world (Live.let_go (Live.world s2)) s2)))).
    { intros s2 H2. rewrite live_main_finally_run.
      unfold Live.st_info, Live.st_call, Live.pending.
      cbn [Live.stop_requested Live.set_world]. by rewrite H2. }
    destruct r as [[]|e|]; [| |done].
    + rewrite (Hfin s1 Hstop) in E. injection E as <- <-.
      cbn [Live.world Live.cut Live.set_cut Live.set_n_st Live.set_world].
      by rewrite last_snoc.
    + destruct (is_Exception e).
      * unfold Live.st_error, Live.st_call, Live.pending in E. rewrite Hstop in E.
        cbn [orb] in E. rewrite Hfin in E by done. injection E as <- <-.
        cbn [Live.world Live.cut Live.set_cut Live.set_n_st Live.set_world].
        by rewrite last_snoc.
      * rewrite (Hfin s1 Hstop) in E. injection E as <- <-.
        cbn [Live.world Live.cut Live.set_cut Live.set_n_st Live.set_world].
        by rewrite last_snoc.
  - intros -> Hp. rewrite live_main_finally_run in E.
    unfold Live.st_info, Live.st_call in E.
    change (Live.pending req (Live.set_world (Live.let_go (Live.world s1)) s1))
      with (Live.pending req s1) in E.
    rewrite Hp in E. by injection E as <- <-.
  - intros e -> He Hp Hp'. rewrite He in E.
    unfold Live.st_error, Live.st_call in E. rewrite Hp in E.
    rewrite live_main_finally_run in E.
    unfold Live.st_info, Live.st_call, Live.pending in E.
    cbn [Live.stop_requested Live.n_st Live.set_world Live.set_n_st] in E.
    unfold Live.pending in Hp. apply orb_false_iff in Hp as [Hs _].
    rewrite Hs, Hp' in E. cbn [orb] in E. by injection E as <- <-.
Qed.

(** X5: when the camera cannot be obtained at the start and
    initialize_camera stops the script, main ends with the control exception
    right there: the loop is not entered, [cap] is never bound, nothing is
    released, and the report of the [finally] block is cut: the run leaves
    the state initialize_camera left, and displays nothing after the error
    message of initialize_camera. *)
Theorem startup_failure_stops_silently fuel ui s fc s1 s2 s3 :
  Live.pending req s = false -> req (S (Live.n_st s)) = false ->
  Live.load_cascade_classifier env req (Live.entered s) = (Ret fc, s1) ->
  Live.sidebar req s1 = (Ret tt, s2) ->
  Live.initialize_camera env req s2 = (Raise StopException, s3) ->
  Live.stop_requested s3 = true ->
  Live.main env req fuel ui s =
  (Raise StopException,
   Live.set_cut (Live.cut s3 ++ [EvInfo "Ressources libérées"])
     (Live.set_n_st (S (Live.n_st s3)) s3)).
Proof.
  intros Hp Hp' El Es Ei Hstop.
  assert (Hs : Live.stop_requested s = false).
  { unfold Live.pending in Hp. by apply orb_false_iff in Hp as [? _]. }
  assert (Hm3 : main_cap (Live.world s3) = None).
  { pose proof (live_camless_load_cascade_classifier (Live.entered s)) as K1.
    rewrite El in K1. destruct K1 as [(_&_&K1&_) _].
    pose proof (live_camless_sidebar s1) as K2.
    rewrite Es in K2. destruct K2 as [(_&_&K2&_) _].
    destruct (live_initialize_camera_spec _ s2 (closed_out_of_range _))
      as (r&s3'&E3&K3&_).
    rewrite Ei in E3. injection E3 as <- <-. cbn [snd] in *.
    rewrite K3, K2, K1. reflexivity. }
  unfold Live.main, Live.bind at 1, Live.lift at 1. cbn [fst snd modify].
  unfold Live.bind at 1, Live.st_widget at 1.
  change (Live.pending req (Live.set_world (set_main_cap None (Live.world s)) s))
    with (Live.pending req s).
  rewrite Hp. cbv beta iota.
  unfold Live.bind at 1, Live.st_widget at 1, Live.pending at 1.
  cbn [Live.stop_requested Live.n_st Live.set_n_st Live.set_world].
  rewrite Hs, Hp'. cbn [orb]. cbv beta iota.
  change (Live.set_n_st _ (Live.set_n_st _ _)) with (Live.entered s).
  unfold Live.main_guard, Live.try_finally, Live.try_except, Live.main_try.
  erewrite live_bind_run by exact El.
  erewrite live_bind_run by exact Es.
  erewrite live_bind_raise by exact Ei.
  cbn [is_Exception]. rewrite live_main_finally_run.
  unfold Live.let_go. rewrite Hm3. cbn [safe_camera_release ret snd].
  rewrite set_world_same.
  unfold Live.st_info, Live.st_call, Live.pending. by rewrite Hstop.
Qed.

(** ** How a control exception arises *)

Lemma raises_weaken {A} (E E' : exn -> Prop) (m : M A) :
  (forall e, E e -> E' e) -> raises E m -> raises E' m.
Proof.
  intros HE Hm w. specialize (Hm w). destruct (m w).1; auto.
Qed.

Lemma raises_cap_read h : raises ordinary (cap_read env h).
Proof. intros w. by rewrite cap_read_run. Qed.

Lemma raises_safe_camera_release c : raises ordinary (safe_camera_release c).
Proof. intros w. by destruct (safe_camera_release_run c w) as (w'&->&_). Qed.

Lemma raises_release_stale idxs : raises ordinary (release_stale env idxs).
Proof.
  intros w.
  by destruct (release_stale_spec env _ idxs w (closed_out_of_range w)) as (w'&->&_).
Qed.

Lemma raises_VideoCapture i : raises ordinary (VideoCapture env i).
Proof. by intros w. Qed.

Lemma raises_cvtColor_BGR2RGB r : raises ordinary (cvtColor_BGR2RGB r).
Proof. intros w. unfold cvtColor_BGR2RGB. by destruct (fsize _ =? 0). Qed.

Lemma raises_detect_faces_try fr fc sf mn c :
  raises ordinary (detect_faces_try env fr fc sf mn c).
Proof.
  intros w. destruct (frame_size w fr) eqn:Hsz.
  - by rewrite detect_faces_try_invalid.
  - destruct fr as [r|]; [|done].
    rewrite detect_faces_try_valid by (rewrite Hsz; done).
    apply (raises_weaken is_cv); [apply is_cv_ordinary|apply raises_detect_and_draw].
Qed.

Lemma prefix_interrupted s1 s2 s3 :
  Live.cut s1 `prefix_of` Live.cut s2 -> Live.interrupted s2 s3 -> Live.interrupted s1 s3.
Proof. intros H1 H2. apply prefix_length in H1. unfold Live.interrupted in *. lia. Qed.

Lemma tame_ret {A} (a : A) : Live.tame (Live.ret a).
Proof. by intros s. Qed.

Lemma tame_raise {A} e : is_Exception e = true -> Live.tame (@Live.raise A e).
Proof. intros He s. split; [done|]. intros Hs. by left. Qed.

Lemma tame_get_run {A} (f : Live.Run -> A) : Live.tame (Live.get_run f).
Proof. by intros s. Qed.

Lemma tame_lift {A} (m : M A) : raises ordinary m -> Live.tame (Live.lift m).
Proof.
  intros Hm s. split; [done|]. intros Hs. specialize (Hm (Live.world s)).
  unfold Live.lift. cbn [fst snd].
  destruct (m (Live.world s)).1 as [a|e|]; [done| |done]. by left.
Qed.

Lemma tame_st_call ev : Live.tame (Live.st_call req ev).
Proof.
  intros s. split; [apply live_camless_st_call|]. intros Hs.
  unfold Live.st_call. destruct (Live.pending req s); cbn [fst snd]; [|done].
  right. split; [done|]. left. unfold Live.interrupted.
  cbn [Live.cut Live.set_cut]. rewrite length_app. cbn. lia.
Qed.

Lemma tame_bind {A B} (m : Live.L A) (k : A -> Live.L B) :
  Live.tame m -> (forall a, Live.tame (k a)) -> Live.tame (Live.bind m k).
Proof.
  intros Hm Hk s. destruct (Hm s) as [Hg Ht]. unfold Live.bind.
  destruct (m s) as [[a|e|] s1]; cbn [fst snd] in *; [|done|done].
  destruct (Hk a s1) as [Hg1 Ht1]. split; [by etrans|].
  intros Hs. specialize (Ht1 (Ht Hs)).
  destruct (k a s1) as [[b|e|] s2]; cbn [fst snd] in *; [done| |done].
  destruct Ht1 as [H|[-> [H|H]]]; [by left| |].
  - right. split; [done|]. left. by eapply prefix_interrupted.
  - right. split; [done|]. by right.
Qed.

Lemma tame_try_except {A} (m : Live.L A) h :
  Live.tame m -> (forall e, Live.tame (h e)) -> Live.tame (Live.try_except is_Exception m h).
Proof.
  intros Hm Hh s. destruct (Hm s) as [Hg Ht]. unfold Live.try_except.
  destruct (m s) as [[a|e|] s1]; cbn [fst snd] in *; [done| |done].
  destruct (is_Exception e) eqn:He.
  2:{ split; [exact Hg|]. intros Hs. cbn [fst snd]. rewrite He.
      destruct (Ht Hs) as [[? ?]|H]; [done|by right]. }
  destruct (Hh e s1) as [Hg1 Ht1]. split; [by etrans|].
  intros Hs. destruct (Ht Hs) as [[_ Hs1]|[-> _]]; [|done].
  specialize (Ht1 Hs1).
  destruct (h e s1) as [[b|e'|] s2]; cbn [fst snd] in *; [done| |done].
  destruct Ht1 as [H|[-> [H|H]]]; [by left| |].
  - right. split; [done|]. left. by eapply prefix_interrupted.
  - right. split; [done|]. by right.
Qed.

(** The end of the handler of [initialize_camera]. *)
Lemma tame_init_stop {A} m :
  Live.tame (Live.bind
               (Live.st_error req ("Erreur d'initialisation de la caméra: " +:+ m))
               (fun _ => @Live.st_stop A)).
Proof.
  intros s. unfold Live.bind, Live.st_error, Live.st_call, Live.st_stop.
  destruct (Live.pending req s); cbn [fst snd].
  - split; [by apply prefix_app_r|]. intros _. right. split; [done|]. left.
    unfold Live.interrupted. cbn [Live.cut Live.set_cut]. rewrite length_app. cbn. lia.
  - split; [done|]. intros _. right. split; [done|]. right. split; [done|].
    exists m. cbn [Live.world Live.set_world Live.set_n_st Live.set_stop_requested trace emit].
    by rewrite last_snoc.
Qed.

Ltac tame_tac :=
  repeat first
    [ progress intros
    | solve [eauto]
    | apply tame_init_stop
    | apply tame_ret | apply tame_get_run | apply tame_st_call
    | apply tame_raise; reflexivity
    | apply tame_lift;
      first [ apply raises_cap_read | apply raises_safe_camera_release
            | apply raises_release_stale | apply raises_VideoCapture
            | apply raises_cvtColor_BGR2RGB | apply raises_detect_faces_try
            | apply raises_log | apply raises_modify ]
    | apply tame_bind | apply tame_try_except
    | py_split ].

Lemma tame_validate n cap : Live.tame (Live.validate env req n cap).
Proof.
  induction n as [|k IH]; cbn [Live.validate]; unfold Live.st_success, time_sleep; tame_tac.
Qed.

Lemma tame_initialize_camera : Live.tame (Live.initialize_camera env req).
Proof.
  unfold Live.initialize_camera, Live.open_and_validate, Live.st_info, time_sleep, cap_set.
  pose proof tame_validate. tame_tac.
Qed.

Lemma tame_process_and_publish ui fc fr :
  Live.tame (Live.process_and_publish env req ui fc fr).
Proof.
  unfold Live.process_and_publish, Live.detect_faces_frame, Live.st_error, time_sleep.
  tame_tac.
Qed.

Lemma tame_loop_body ui fc : Live.tame (Live.loop_body env req ui fc).
Proof.
  unfold Live.loop_body, Live.recover, Live.reopen, Live.st_warning, time_sleep.
  pose proof tame_initialize_camera. pose proof tame_process_and_publish.
  tame_tac.
Qed.

Lemma tame_capture_loop fuel ui fc : Live.tame (Live.capture_loop env req fuel ui fc).
Proof.
  induction fuel as [|k IH]; cbn [Live.capture_loop]; [by intros s|].
  unfold Live.st_error, time_sleep. pose proof tame_loop_body. tame_tac.
Qed.

Lemma not_Exception e : is_Exception e = false -> e = StopException.
Proof. by destruct e. Qed.

(** X4: the capture loop does not end by itself: it never returns and no
    [Exception] leaves it ([run] is not assigned in the loop and the handler
    of the loop absorbs every [Exception]).  It is left only by a control
    exception, and, started with no stop requested, that exception comes
    either from a Streamlit call that found a request (a click of the user:
    the button does end the loop, through the rerun it asks for) or from the
    [st.stop()] of initialize_camera after a failed reopen. *)
Theorem capture_loop_left_only_by_control fuel ui fc s :
  ((Live.capture_loop env req fuel ui fc s).1 = OutOfFuel
   \/ (Live.capture_loop env req fuel ui fc s).1 = Raise StopException)
  /\ (Live.stop_requested s = false ->
      (Live.capture_loop env req fuel ui fc s).1 = Raise StopException ->
      Live.interrupted s (Live.capture_loop env req fuel ui fc s).2
      \/ Live.init_failed (Live.capture_loop env req fuel ui fc s).2).
Proof.
  split.
  - revert s. induction fuel as [|k IH]; intros s; [by left|].
    rewrite live_capture_loop_S.
    destruct (Live.loop_body env req ui fc s) as [[[]|e|] s1]; [apply IH| |by left].
    destruct (is_Exception e) eqn:He; [|right; by rewrite (not_Exception e He)].
    unfold Live.st_error, Live.st_call.
    destruct (Live.pending req s1); [by right|apply IH].
  - intros Hs Hr. destruct (tame_capture_loop fuel ui fc s) as [_ Ht].
    specialize (Ht Hs). rewrite Hr in Ht. by destruct Ht as [[? _]|[_ H]].
Qed.

(** ** The success message that is cut *)

Lemma live_validate_first n h s k :
  is_opened (Live.world s) h = true ->
  first_valid env n (n_read (Live.world s)) = Some k ->
  exists s1, cam_eq (Live.world s) (Live.world s1) /\ Live.same_run s s1
    /\ Live.validate env req n h s =
       Live.bind (Live.st_success req "Caméra initialisée avec succès")
         (fun _ => Live.ret h) s1.
Proof.
  revert s k. induction n as [|n IH]; intros s k Ho Hk; [done|].
  destruct (cap_read_check env h (Live.world s) Ho) as (r&w1&E1&Hchk&_&Hn1&Hce1).
  cbn [Live.validate first_valid] in *.
  erewrite live_bind_run by (apply lift_run; exact E1).
  unfold Live.bind at 1, Live.get_run. cbn [Live.world Live.set_world]. rewrite Hchk.
  destruct (frame_ok (read_script env (n_read (Live.world s)))).
  - eexists. split; [|split; [|reflexivity]]; [exact Hce1|done].
  - erewrite live_bind_run by (apply lift_run; unfold time_sleep, log, modify; reflexivity).
    destruct (first_valid env n (S (n_read (Live.world s)))) as [k'|] eqn:Hk'; [|done].
    match goal with |- context [Live.validate env req n h ?s0] =>
      destruct (IH s0 k') as (s1&Hc&Hr&E) end.
    { cbn [Live.world Live.set_world].
      change (is_opened w1 h = true). by rewrite (cam_eq_is_opened _ _ _ Hce1). }
    { cbn [Live.world Live.set_world n_read emit]. by rewrite Hn1. }
    exists s1. split; [|split; [exact Hr|exact E]].
    eapply cam_eq_trans; [exact Hce1|]. eapply cam_eq_trans; [apply cam_eq_emit|exact Hc].
Qed.

(** X16: the defect behind C5, for every environment.  When device 0
    opens, one of the three validation reads delivers a usable frame, and a
    control request is pending at the success message that follows,
    initialize_camera ends with the control exception between the validated
    read and its [return]: the capture object it opened stays open, the
    caller's [cap] is not bound to it, and no handler of the module releases
    it. *)
Theorem interrupted_open_keeps_handle s k :
  Live.pending req s = false ->
  req (S (Live.n_st s)) = true ->
  open_script env (length (caps (Live.world s)) + 5) 0 = true ->
  first_valid env 3 (n_read (Live.world s)) = Some k ->
  let r := Live.initialize_camera env req s in
  r.1 = Raise StopException
  /\ is_opened (Live.world r.2) (length (caps (Live.world s)) + 5) = true
  /\ main_cap (Live.world r.2) = main_cap (Live.world s)
  /\ Live.cut r.2 = Live.cut s ++ [Live.camera_ready]
  /\ Live.stop_requested r.2 = false.
Proof.
  intros Hp Hreq Hopen Hk. cbv zeta.
  assert (Hs : Live.stop_requested s = false).
  { unfold Live.pending in Hp. by apply orb_false_iff in Hp as [? _]. }
  destruct (Live.initialize_camera env req s) as [r s'] eqn:E. cbn [fst snd].
  unfold Live.initialize_camera, Live.st_info, Live.bind at 1, Live.st_call in E.
  rewrite Hp in E. cbv beta iota in E.
  match type of E with context [Live.bind _ _ ?s0] => remember s0 as s1 eqn:E1 end.
  assert (H1 : cam_eq (Live.world s) (Live.world s1) /\ Live.n_st s1 = S (Live.n_st s)
               /\ Live.stop_requested s1 = false /\ Live.cut s1 = Live.cut s
               /\ n_read (Live.world s1) = n_read (Live.world s)).
  { subst s1. split; [apply cam_eq_emit|done]. }
  clear E1. destruct H1 as (Hc1&Hn1&Hs1&Hcut1&Hr1).
  destruct (release_stale_spec env _ (seq 0 5) (Live.world s1) (closed_out_of_range _))
    as (w2&E2&_&Hl2&Hm2&Hr2&_).
  erewrite live_bind_run in E by (apply lift_run; exact E2).
  erewrite live_bind_run in E
    by (apply lift_run; unfold time_sleep, log, modify; reflexivity).
  destruct (VideoCapture_run env 0 (emit (EvSleep (1 # 2)) w2)) as (w4&E4&Hc4&Hm4&_).
  erewrite live_bind_run in E by (apply lift_run; exact E4).
  cbn [caps main_cap emit] in *. rewrite length_seq in Hl2.
  assert (Hlen : length (caps w2) = length (caps (Live.world s)) + 5).
  { destruct Hc1 as (Hc&_). rewrite Hl2, Hc. done. }
  assert (Ho4 : is_opened w4 (length (caps w2)) = true).
  { pose proof (is_opened_app_new (emit (EvSleep (1 # 2)) w2) w4 _ Hc4) as H.
    cbn [caps emit] in H. by rewrite H, Hlen. }
  unfold Live.try_except, Live.open_and_validate, Live.bind at 1, Live.get_run in E.
  cbn [Live.world Live.set_world] in E. rewrite Ho4 in E. cbn [negb] in E.
  erewrite live_bind_run in E by (apply lift_run; unfold cap_set, log, modify; reflexivity).
  erewrite live_bind_run in E by (apply lift_run; unfold cap_set, log, modify; reflexivity).
  match type of E with context [Live.validate env req 3 _ ?s0] =>
    destruct (live_validate_first 3 (length (caps w2)) s0 k) as (s5&Hc5&(Hn5&Hs5&Hcut5)&E5)
  end.
  { cbn [Live.world Live.set_world]. change (is_opened w4 (length (caps w2)) = true).
    exact Ho4. }
  { cbn [Live.world Live.set_world n_read emit].
    assert (Hr4 : n_read w4 = n_read w2).
    { unfold VideoCapture in E4. by injection E4 as <-. }
    rewrite Hr4, Hr2, Hr1. exact Hk. }
  rewrite E5 in E. cbn [Live.world Live.set_world Live.n_st Live.stop_requested Live.cut
                          emit caps main_cap] in *.
  unfold Live.bind, Live.st_success, Live.st_call, Live.pending in E.
  rewrite Hs5, Hs1, Hn5, Hn1, Hreq in E. cbn [orb is_Exception] in E.
  injection E as <- <-.
  cbn [Live.world Live.set_world Live.set_n_st Live.set_cut Live.cut Live.stop_requested].
  split; [done|]. split.
  { rewrite <- Hlen. destruct Hc5 as (Hc5&_). unfold is_opened in *.
    cbn [Live.world Live.set_world caps emit] in Hc5. by rewrite Hc5. }
  split.
  { destruct Hc5 as (_&_&Hm5&_). destruct Hc1 as (_&_&Hm1&_).
    cbn [Live.world Live.set_world main_cap emit] in Hm5. congruence. }
  split; [by rewrite Hcut5, Hcut1|by rewrite Hs5].
Qed.

End LiveEffects.

(** * Instances *)

(** C1 at the unplugged camera: the second read of the run fails, no device
    opens any more, and the loop ends there with fuel left. *)
Lemma reopen_failure_is_fatal_witness :
  main_cap w_running = Some 5
  /\ read_bad env_unplugged 5 w_running = true
  /\ (capture_loop env_unplugged 4 ui_run fc_ok w_running).1 = Raise StopException.
Proof.
  split; [reflexivity|]. split; [reflexivity|].
  refine (f_equal fst
    (proj1 (reopen_failure_is_fatal env_unplugged ui_run fc_ok 3 w_running 5
              eq_refl eq_refl _))).
  intros c. vm_compute. discriminate.
Defined.

(** C2, as stated, fails where the camera cannot be opened: no frame is ever
    valid, initialize_camera fails, and it made no validation read. *)
Lemma initialize_camera_three_reads_counterexample :
  (forall k, frame_ok (read_script env_noopen k) = false)
  /\ (initialize_camera env_noopen w_init).1 = Raise StopException
  /\ read_attempts (trace (initialize_camera env_noopen w_init).2) = 0
  /\ read_attempts (trace (initialize_camera env_noopen w_init).2)
     <> read_attempts (trace w_init) + 3.
Proof. split; [done|]. vm_compute. repeat split; discriminate. Qed.

(** C2 (amended) at the camera that opens and stays blind. *)
Lemma initialize_camera_no_valid_frame_witness :
  (forall k, frame_ok (read_script env_blind k) = false)
  /\ open_script env_blind (length (caps w_init) + 5) 0 = true
  /\ (initialize_camera env_blind w_init).1 = Raise StopException
  /\ read_attempts (trace (initialize_camera env_blind w_init).2) = 3.
Proof.
  assert (H : forall k, frame_ok (read_script env_blind k) = false) by done.
  pose proof (initialize_camera_no_valid_frame env_blind w_init H) as (H1&_&H3&_).
  split; [exact H|]. split; [reflexivity|]. split; [exact H1|].
  exact (proj1 (H3 eq_refl)).
Defined.

(** C3 at a missing frame and at a running loop. *)
Lemma process_raises_only_invalid_frame_witness :
  invalid_frame w_init None
  /\ detect_faces_frame env_live None fc_ok (11 # 10) 5 (0, 255, 0)%Z w_init =
     (Ret (None, 0),
      emit (EvError ("Erreur lors de la détection: " +:+ "Frame invalide")) w_init)
  /\ main_cap (set_main_cap (Some 5) (initialize_camera env_live w_init).2) = Some 5
  /\ (loop_body env_live ui_run fc_failing
        (set_main_cap (Some 5) (initialize_camera env_live w_init).2)).1 = Ret tt.
Proof.
  assert (Hi : invalid_frame w_init None) by by left.
  pose proof (process_raises_only_invalid_frame env_live None fc_ok (11 # 10) 5
                (0, 255, 0)%Z w_init) as (_&_&H3&_).
  pose proof (process_raises_only_invalid_frame env_live None fc_failing (11 # 10) 5
                (0, 255, 0)%Z (set_main_cap (Some 5) (initialize_camera env_live w_init).2))
    as (_&_&_&H4).
  split; [exact Hi|]. split; [exact (H3 Hi)|]. split; [reflexivity|].
  exact (proj1 (H4 ui_run 5 0 eq_refl eq_refl)).
Defined.

(** C4 at two readings of the same time. *)
Lemma calculate_fps_zero_elapsed_witness :
  (clock env_live (n_clock w_init) == prev_frame_time w_init)%Q
  /\ (calculate_fps env_live w_init).1 = Ret 0%Z
  /\ prev_frame_time (calculate_fps env_live w_init).2 = clock env_live 0.
Proof.
  assert (H : (clock env_live (n_clock w_init) == prev_frame_time w_init)%Q) by done.
  destruct (calculate_fps_zero_elapsed env_live w_init) as (v&Hv&Hp&Hz&_).
  split; [exact H|]. split; [|exact Hp].
  rewrite Hv. f_equal. exact (proj1 (Hz H)).
Defined.

(** C6, as stated, fails on two opens in a row where the driver grants
    both: two handles are open at once, and the final close leaves one. *)
Lemma open_open_two_handles_counterexample :
  peak_open (dev_run env_live [DevOpen; DevOpen] w_init).2 = 2
  /\ count_open (caps (dev_run env_live [DevOpen; DevOpen] w_init).2) = 2
  /\ count_open (caps (dev_run env_live [DevOpen; DevOpen; DevClose] w_init).2) = 1.
Proof. vm_compute. done. Qed.

(** C6 (amended) on a disciplined sequence. *)
Lemma safe_camera_release_idempotent_witness :
  disciplined false [DevOpen; DevClose; DevClose; DevOpen] = true
  /\ closed_from 0 w_init
  /\ peak_open (dev_run env_live [DevOpen; DevClose; DevClose; DevOpen] w_init).2 <= 1
  /\ count_open
       (caps (dev_step env_live DevClose
                (dev_run env_live [DevOpen; DevClose; DevClose; DevOpen] w_init).2).2) = 0.
Proof.
  assert (Hc : closed_from 0 w_init) by (intros h _; reflexivity).
  pose proof (proj2 (proj2 (proj2 (proj2 (safe_camera_release_idempotent env_live))))
                [DevOpen; DevClose; DevClose; DevOpen] w_init eq_refl Hc (Nat.le_0_l 1))
    as (H1&_&H3&_).
  split; [reflexivity|]. split; [exact Hc|]. split; [exact H1|exact H3].
Defined.

(** C7, as stated, fails without a network: two runs of the script in one
    process execute the loader body twice. *)
Lemma loader_runs_again_counterexample :
  (script env_offline 1 ui_run w_init).1 = Raise StopException
  /\ loads (trace (script env_offline 1 ui_run w_init).2) = 1
  /\ loads (trace (script env_offline 1 ui_run
                     (script env_offline 1 ui_run w_init).2).2) = 2.
Proof. vm_compute. done. Qed.

(** C7 (amended) without a network. *)
Lemma load_cascade_classifier_cached_witness :
  cache w_init = None
  /\ fetch_fails env_offline w_init
  /\ (load_cascade_classifier env_offline w_init).1 = Raise StopException.
Proof.
  assert (Hf : fetch_fails env_offline w_init).
  { split; [reflexivity|]. exists "unreachable". by left. }
  pose proof (load_cascade_classifier_cached env_offline w_init) as (_&_&_&_&H5&_).
  split; [reflexivity|]. split; [exact Hf|]. exact (H5 eq_refl (or_introl Hf)).
Defined.

(** C8 at a frame of two pixels: the rectangle paints pixel (0, 0), the
    pixel (1, 0) is outside every region and keeps its value. *)
Lemma annotation_paints_only_regions_witness :
  ~ annotated env_live (detected_faces fc_ok (11 # 10) 5 w_frame 0) 1 0
  /\ pixel_at (frame_of (detect_faces_frame env_live (Some 0) fc_ok (11 # 10) 5
                           (0, 255, 0)%Z w_frame).2 0) 1 0
     = pixel_at (frame_of w_frame 0) 1 0.
Proof.
  assert (H : ~ annotated env_live (detected_faces fc_ok (11 # 10) 5 w_frame 0) 1 0).
  { intros [(fb&Hin&Hr)|[Ht|(k&Ht)]]; [|discriminate|discriminate].
    destruct fb as [[[fx fy] fw] fh]. cbn in Hr. discriminate. }
  pose proof (annotation_paints_only_regions env_live 0 fc_ok (11 # 10) 5
                (0, 255, 0)%Z w_frame) as (_&_&_&H4).
  split; [exact H|]. exact (H4 1 0 H).
Defined.

(** C9: on a frame whose first pixel is pure red and whose second is pure
    blue (in the camera's BGR order), the luminance is 76 and 29, but the
    capture loop hands the detector 29 and 76: it converts the frame to RGB
    and then applies the BGR-to-grey conversion, which weighs red as blue and
    blue as red. *)
Theorem detector_input_swaps_red_and_blue :
  read_script env_live 1 = (true, Some red_frame)
  /\ COLOR_BGR2GRAY red_frame = [[76; 29]]%Z
  /\ detector_inputs (trace (main env_live 1 ui_run w_init).2) = [[[29; 76]]]%Z
  /\ detector_inputs (trace (main env_live 1 ui_run w_init).2)
     <> [COLOR_BGR2GRAY red_frame].
Proof. vm_compute. repeat split; discriminate. Qed.

(** C10 at a detector that fails on a good frame, and at a missing frame. *)
Lemma detect_faces_frame_swallows_errors_witness :
  (detect_faces_try env_live (Some 0) fc_failing (11 # 10) 5 (0, 255, 0)%Z w_frame).1
    = Raise (CvError "detection failed")
  /\ (detect_faces_frame env_live (Some 0) fc_failing (11 # 10) 5 (0, 255, 0)%Z w_frame).1
     = Ret (Some 0, 0).
Proof.
  pose proof (detect_faces_frame_swallows_errors env_live (Some 0) fc_failing (11 # 10) 5
                (0, 255, 0)%Z w_frame) as (_&H2&_).
  split; [reflexivity|]. exact (H2 _ eq_refl).
Defined.


(** X1 at the live camera: the first read is usable. *)
Lemma initialize_camera_succeeds_iff_witness :
  open_script env_live (length (caps w_init) + 5) 0 = true
  /\ is_Some (first_valid env_live 3 (n_read w_init))
  /\ exists c, (initialize_camera env_live w_init).1 = Ret c
       /\ c = 5 /\ is_opened (initialize_camera env_live w_init).2 5 = true.
Proof.
  assert (Ho : open_script env_live (length (caps w_init) + 5) 0 = true) by reflexivity.
  assert (Hv : is_Some (first_valid env_live 3 (n_read w_init))) by (by exists 0).
  pose proof (initialize_camera_succeeds_iff env_live w_init) as H. cbv zeta in H.
  destruct H as [Hiff Hs]. destruct (proj2 Hiff (conj Ho Hv)) as [c Hc].
  destruct (Hs c Hc) as (Hc5&Hop&_).
  split; [exact Ho|]. split; [exact Hv|]. exists c. split; [exact Hc|].
  split; [exact Hc5|exact Hop].
Defined.

(** X2 at a fresh process. *)
Lemma initialize_camera_builds_six_witness :
  length (caps (initialize_camera env_live w_init).2) = 6
  /\ is_opened (initialize_camera env_live w_init).2 4 = false.
Proof.
  pose proof (initialize_camera_builds_six env_live w_init) as H. cbv zeta in H.
  destruct H as (H1&H2&_). split; [exact H1|]. apply (H2 4). lia.
Defined.

(** X3 at the camera that misses one read: handle 5 is replaced by 11. *)
Lemma recovery_resumes_witness :
  main_cap w_hiccup = Some 5
  /\ read_bad env_hiccup 5 w_hiccup = true
  /\ (loop_body env_hiccup ui_run fc_ok w_hiccup).1 = Ret tt
  /\ main_cap (loop_body env_hiccup ui_run fc_ok w_hiccup).2 = Some 11.
Proof.
  assert (Hlt : 5 < length (caps w_hiccup)) by (vm_compute; lia).
  assert (Hi : initialize_camera env_hiccup (closing 5 (after_read env_hiccup 5 w_hiccup)) =
               (Ret 11, (initialize_camera env_hiccup
                           (closing 5 (after_read env_hiccup 5 w_hiccup))).2))
    by (vm_compute; reflexivity).
  pose proof (recovery_resumes env_hiccup ui_run fc_ok w_hiccup 5 11 _
                eq_refl Hlt eq_refl Hi) as (H1&_).
  split; [reflexivity|]. split; [reflexivity|].
  split; [exact (f_equal fst H1)|exact (f_equal (fun r => main_cap r.2) H1)].
Defined.

(** X6 at the live camera with the button not pressed. *)
Lemma idle_run_opens_and_releases_witness :
  run ui_idle = false
  /\ (main env_live 3 ui_idle w_init).1 = Ret tt
  /\ is_opened (main env_live 3 ui_idle w_init).2 5 = false.
Proof.
  assert (Hl : load_cascade_classifier env_live (set_main_cap None w_init) =
               (Ret fc_ok, (load_cascade_classifier env_live (set_main_cap None w_init)).2))
    by (vm_compute; reflexivity).
  assert (Hi : initialize_camera env_live
                 (load_cascade_classifier env_live (set_main_cap None w_init)).2 =
               (Ret 5, (initialize_camera env_live
                          (load_cascade_classifier env_live (set_main_cap None w_init)).2).2))
    by (vm_compute; reflexivity).
  pose proof (idle_run_opens_and_releases env_live 3 ui_idle w_init fc_ok _ 5 _
                Hl Hi eq_refl) as (H1&_&_&H4).
  split; [reflexivity|]. split; [exact H1|exact H4].
Defined.

(** X9 at a frame on which the detector finds one face, and at a detector
    that fails. *)
Lemma detect_faces_frame_count_witness :
  frame_size w_frame (Some 0) <> 0
  /\ (detect_faces_frame env_live (Some 0) fc_ok (11 # 10) 5 (0, 255, 0)%Z w_frame).1
     = Ret (Some 0, 1)
  /\ (detect_faces_frame env_live (Some 0) fc_failing (11 # 10) 5 (0, 255, 0)%Z w_frame).1
     = Ret (Some 0, 0).
Proof.
  assert (Hs : frame_size w_frame (Some 0) <> 0) by (vm_compute; discriminate).
  pose proof (detect_faces_frame_count env_live 0 fc_ok (11 # 10) 5 (0, 255, 0)%Z w_frame)
    as H1. cbv zeta in H1.
  pose proof (detect_faces_frame_count env_live 0 fc_failing (11 # 10) 5 (0, 255, 0)%Z
                w_frame) as H2. cbv zeta in H2.
  split; [exact Hs|]. split.
  - exact (proj1 (proj1 (H1 Hs) [(0, 0, 1, 1)%Z] eq_refl
                    (fun _ _ _ => eq_refl) (fun _ _ _ => eq_refl))).
  - exact (proj1 (proj2 (H2 Hs) "detection failed" eq_refl)).
Defined.

(** X10 at the first iteration on the live camera. *)
Lemma camera_frame_untouched_witness :
  main_cap w_live = Some 5
  /\ is_opened w_live 5 = true
  /\ fsize red_frame <> 0
  /\ heap (loop_body env_live ui_run fc_ok w_live).2 !! length (heap w_live)
     = Some red_frame.
Proof.
  assert (Hs : fsize red_frame <> 0) by (vm_compute; discriminate).
  pose proof (camera_frame_untouched env_live ui_run fc_ok w_live 5 red_frame
                eq_refl eq_refl eq_refl Hs) as H. cbv zeta in H.
  split; [reflexivity|]. split; [reflexivity|]. split; [exact Hs|].
  exact (proj1 (proj2 H)).
Defined.

(** X11 at a fresh process with the network up. *)
Lemma fetch_only_if_absent_witness :
  cache w_init = None /\ cascade_file w_init = None
  /\ n_fetch (load_cascade_classifier env_live w_init).2 = 1
  /\ cascade_file (load_cascade_classifier env_live w_init).2 = Some (CtorOk fc_ok).
Proof.
  pose proof (fetch_only_if_absent env_live w_init) as H. cbv zeta in H.
  destruct (proj2 H eq_refl eq_refl) as [H1 H2].
  split; [reflexivity|]. split; [reflexivity|]. split; [exact H1|].
  exact (H2 (CtorOk fc_ok) eq_refl).
Defined.

(** X12 at a fresh process with the network up. *)
Lemma load_succeeds_iff_witness :
  cache w_init = None
  /\ model_file env_live w_init = Some (CtorOk fc_ok)
  /\ (load_cascade_classifier env_live w_init).1 = Ret fc_ok
  /\ cache (load_cascade_classifier env_live w_init).2 = Some fc_ok.
Proof.
  destruct (load_succeeds_iff env_live w_init fc_ok eq_refl) as [Hiff Hc].
  split; [reflexivity|]. split; [reflexivity|]. split.
  - apply (proj2 Hiff). exists fc_ok. split; [reflexivity|]. split; reflexivity.
  - exact (proj2 (Hc fc_ok eq_refl eq_refl)).
Defined.

(** X13 at a network that delivers an unusable model. *)
Lemma bad_download_is_kept_witness :
  fetch_script env_badmodel (n_fetch w_init) = FetchOk (CtorOk empty_classifier)
  /\ cc_empty empty_classifier = true
  /\ (load_cascade_classifier env_badmodel w_init).1 = Raise StopException
  /\ cascade_file (load_cascade_classifier env_badmodel w_init).2
     = Some (CtorOk empty_classifier)
  /\ n_fetch (load_cascade_classifier env_badmodel
                (load_cascade_classifier env_badmodel w_init).2).2 = 1.
Proof.
  pose proof (bad_download_is_kept env_badmodel w_init (CtorOk empty_classifier)
                eq_refl eq_refl eq_refl eq_refl) as H. cbv zeta in H.
  destruct H as (H1&H2&_&_&H5).
  split; [reflexivity|]. split; [reflexivity|]. split; [exact H1|]. split; [exact H2|].
  exact H5.
Defined.

(** X14 at the live camera: three iterations, three reads after the one of
    the initialisation, three detections, three displays. *)
Lemma healthy_loop_processes_every_frame_witness :
  main_cap w_live = Some 5
  /\ is_opened w_live 5 = true
  /\ (forall k, frame_ok (read_script env_live k) = true)
  /\ (capture_loop env_live 3 ui_run fc_ok w_live).1 = OutOfFuel
  /\ frames_shown (trace (capture_loop env_live 3 ui_run fc_ok w_live).2) = 3.
Proof.
  assert (Hk : forall k, frame_ok (read_script env_live k) = true) by (intros k; reflexivity).
  pose proof (healthy_loop_processes_every_frame env_live 3 ui_run fc_ok w_live 5
                eq_refl eq_refl Hk) as H. cbv zeta in H.
  destruct H as (H1&_&_&_&_&H6).
  split; [reflexivity|]. split; [reflexivity|]. split; [exact Hk|].
  split; [exact H1|exact H6].
Defined.

(** C5 fails where a control request reaches the script while
    initialize_camera is validating the camera.  On the live camera, with a
    rerun requested so that it is pending at the tenth Streamlit call of the
    run, the success message of initialize_camera, main ends with the control
    exception; its [finally] block has run and has released nothing, since
    [cap] was never bound; and the capture object that initialize_camera
    opened and validated is open when main is left.  The same happens in the
    loop: on the camera that misses one read, with the request pending at the
    success message of the reopen, the control exception unwinds out of the
    loop body; [cap] is still bound to the old handle, which the recovery had
    released, and the new capture object is open when main is left. *)
Theorem main_leaks_camera_when_interrupted :
  let r := Live.main env_live (req_at 9) 3 ui_run (Live.start w_init) in
  let r' := Live.main env_hiccup (req_at 17) 3 ui_run (Live.start w_init) in
  count_open (caps (Live.world (Live.start w_init))) = 0
  /\ (r.1 = Raise StopException
      /\ Live.cut r.2 = [Live.camera_ready]
      /\ main_cap (Live.world r.2) = None
      /\ last (trace (Live.world r.2)) = Some (EvInfo "Ressources libérées")
      /\ is_opened (Live.world r.2) 5 = true
      /\ count_open (caps (Live.world r.2)) = 1)
  /\ (r'.1 = Raise StopException
      /\ Live.cut r'.2 = [Live.camera_ready]
      /\ main_cap (Live.world r'.2) = Some 5
      /\ last (trace (Live.world r'.2)) = Some (EvInfo "Ressources libérées")
      /\ is_opened (Live.world r'.2) 5 = false
      /\ is_opened (Live.world r'.2) 11 = true
      /\ count_open (caps (Live.world r'.2)) = 1).
Proof. vm_compute. repeat split. Qed.

(** X4 at the unplugged camera: no request from outside, the second read
    fails, no device opens any more, and the loop is left by the stop of
    initialize_camera. *)
Lemma capture_loop_left_only_by_control_witness :
  Live.stop_requested (Live.start w_running) = false
  /\ (Live.capture_loop env_unplugged req_never 4 ui_run fc_ok (Live.start w_running)).1
     = Raise StopException
  /\ (Live.interrupted (Live.start w_running)
        (Live.capture_loop env_unplugged req_never 4 ui_run fc_ok (Live.start w_running)).2
      \/ Live.init_failed
           (Live.capture_loop env_unplugged req_never 4 ui_run fc_ok (Live.start w_running)).2).
Proof.
  assert (Hr : (Live.capture_loop env_unplugged req_never 4 ui_run fc_ok
                  (Live.start w_running)).1 = Raise StopException)
    by (vm_compute; reflexivity).
  split; [reflexivity|]. split; [exact Hr|].
  exact (proj2 (capture_loop_left_only_by_control env_unplugged req_never 4 ui_run fc_ok
                  (Live.start w_running)) eq_refl Hr).
Defined.

(** X5 where no camera opens. *)
Lemma startup_failure_stops_silently_witness :
  Live.pending req_never (Live.start w_init) = false
  /\ (Live.main env_noopen req_never 3 ui_run (Live.start w_init)).1 = Raise StopException
  /\ Live.cut (Live.main env_noopen req_never 3 ui_run (Live.start w_init)).2
     = [EvInfo "Ressources libérées"]
  /\ main_cap (Live.world (Live.main env_noopen req_never 3 ui_run (Live.start w_init)).2)
     = None.
Proof.
  pose (s1 := (Live.load_cascade_classifier env_noopen req_never
                 (Live.entered (Live.start w_init))).2).
  pose (s2 := (Live.sidebar req_never s1).2).
  pose (s3 := (Live.initialize_camera env_noopen req_never s2).2).
  assert (El : Live.load_cascade_classifier env_noopen req_never
                 (Live.entered (Live.start w_init)) = (Ret fc_ok, s1))
    by (vm_compute; reflexivity).
  assert (Es : Live.sidebar req_never s1 = (Ret tt, s2)) by (vm_compute; reflexivity).
  assert (Ei : Live.initialize_camera env_noopen req_never s2 = (Raise StopException, s3))
    by (vm_compute; reflexivity).
  assert (Hst : Live.stop_requested s3 = true) by (vm_compute; reflexivity).
  pose proof (startup_failure_stops_silently env_noopen req_never 3 ui_run
                (Live.start w_init) fc_ok s1 s2 s3 eq_refl eq_refl El Es Ei Hst) as H.
  split; [reflexivity|]. rewrite H. cbn [fst snd]. split; [reflexivity|].
  split; vm_compute; reflexivity.
Defined.

(** X7 at the run that stops itself because no camera opens, and at a run
    that is not started. *)
Lemma finally_report_shown_witness :
  Live.stop_requested
    (Live.main_try env_noopen req_never 3 ui_run (Live.entered (Live.start w_init))).2 = true
  /\ (Live.main_guard req_never (Live.main_try env_noopen req_never 3 ui_run)
        (Live.entered (Live.start w_init))).1 = Raise StopException
  /\ (Live.main_guard req_never (Live.main_try env_live req_never 3 ui_idle)
        (Live.entered (Live.start w_init))).1 = Ret tt.
Proof.
  assert (H1 : (Live.main_try env_noopen req_never 3 ui_run
                  (Live.entered (Live.start w_init))).1 <> OutOfFuel)
    by (vm_compute; discriminate).
  assert (H2 : Live.stop_requested
                 (Live.main_try env_noopen req_never 3 ui_run
                    (Live.entered (Live.start w_init))).2 = true)
    by (vm_compute; reflexivity).
  assert (H3 : (Live.main_try env_live req_never 3 ui_idle
                  (Live.entered (Live.start w_init))).1 = Ret tt)
    by (vm_compute; reflexivity).
  assert (H4 : Live.pending req_never
                 (Live.main_try env_live req_never 3 ui_idle
                    (Live.entered (Live.start w_init))).2 = false)
    by (vm_compute; reflexivity).
  pose proof (finally_report_shown req_never
                (Live.main_try env_noopen req_never 3 ui_run)
                (Live.entered (Live.start w_init))) as Ha. cbv zeta in Ha.
  pose proof (finally_report_shown req_never
                (Live.main_try env_live req_never 3 ui_idle)
                (Live.entered (Live.start w_init))) as Hb. cbv zeta in Hb.
  split; [exact H2|]. split.
  - exact (proj1 (proj1 Ha H1 H2)).
  - exact (proj1 (proj1 (proj2 Hb) H3 H4)).
Defined.

(** X8 five seconds after the last frame, and with a clock that has stepped
    back by two seconds. *)
Lemma calculate_fps_two_seconds_apart_witness :
  (2 <= clock env_live (n_clock w_late) - prev_frame_time w_late)%Q
  /\ (clock env_live (n_clock w_ahead) - prev_frame_time w_ahead <= -2)%Q
  /\ (calculate_fps env_live w_late).1 = Ret 0%Z
  /\ (calculate_fps env_live w_ahead).1 = Ret 0%Z.
Proof.
  assert (Hl : (2 <= clock env_live (n_clock w_late) - prev_frame_time w_late)%Q)
    by (vm_compute; discriminate).
  assert (Ha : (clock env_live (n_clock w_ahead) - prev_frame_time w_ahead <= -2)%Q)
    by (vm_compute; discriminate).
  pose proof (calculate_fps_two_seconds_apart env_live w_late) as H1. cbv zeta in H1.
  pose proof (calculate_fps_two_seconds_apart env_live w_ahead) as H2. cbv zeta in H2.
  split; [exact Hl|]. split; [exact Ha|]. split.
  - exact (proj1 (proj1 H1 Hl)).
  - exact (proj1 (proj2 H2 Ha)).
Defined.

(** X15 at a stop requested while the loop runs on the live camera: the
    request is found by the statistics display of the first iteration, and
    the [finally] block releases the camera. *)
Lemma main_releases_unless_cut_witness :
  (Live.main env_live (req_from 16) 3 ui_run (Live.start w_init)).1 <> OutOfFuel
  /\ (Live.camera_ready
        ∉ Live.cut (Live.main env_live (req_from 16) 3 ui_run (Live.start w_init)).2)
  /\ frames_shown
       (trace (Live.world (Live.main env_live (req_from 16) 3 ui_run (Live.start w_init)).2))
     = 1
  /\ count_open
       (caps (Live.world (Live.main env_live (req_from 16) 3 ui_run (Live.start w_init)).2))
     = 0.
Proof.
  assert (H1 : (Live.main env_live (req_from 16) 3 ui_run (Live.start w_init)).1
               <> OutOfFuel) by (vm_compute; discriminate).
  assert (Hc : Live.cut (Live.main env_live (req_from 16) 3 ui_run (Live.start w_init)).2
               = [EvStats 0 1; EvInfo "Ressources libérées"]) by (vm_compute; reflexivity).
  assert (H2 : Live.camera_ready
                 ∉ Live.cut (Live.main env_live (req_from 16) 3 ui_run
                               (Live.start w_init)).2).
  { rewrite Hc. intros H. apply elem_of_cons in H as [H|H]; [discriminate|].
    apply elem_of_cons in H as [H|H]; [discriminate|]. by apply elem_of_nil in H. }
  split; [exact H1|]. split; [exact H2|]. split; [vm_compute; reflexivity|].
  refine (proj1 (proj2 (main_releases_unless_cut env_live (req_from 16) 3 ui_run
                          (Live.start w_init) H1 H2)) _).
  intros h _. reflexivity.
Defined.

(** X16 at the live camera, with a request that is pending at the second
    Streamlit call of initialize_camera. *)
Lemma interrupted_open_keeps_handle_witness :
  Live.pending (req_at 1) (Live.start w_init) = false
  /\ first_valid env_live 3 (n_read w_init) = Some 0
  /\ (Live.initialize_camera env_live (req_at 1) (Live.start w_init)).1
     = Raise StopException
  /\ is_opened
       (Live.world (Live.initialize_camera env_live (req_at 1) (Live.start w_init)).2) 5
     = true.
Proof.
  pose proof (interrupted_open_keeps_handle env_live (req_at 1) (Live.start w_init) 0
                eq_refl eq_refl eq_refl eq_refl) as H. cbv zeta in H.
  split; [reflexivity|]. split; [reflexivity|]. split; [exact (proj1 H)|].
  exact (proj1 (proj2 H)).
Defined.
